(** * npmPackageChecker: the package-metadata resolution pipeline

    A shallow embedding of [src/services/npmService.ts] (with the data
    declarations of [src/types.ts]) and the properties of
    [fetchPackageDownloads] and [fetchPackageData]: selection of the
    target version, the author fallback chain, the ordering of the
    version list and the mapping of HTTP outcomes to failures.

    The handlers of the application ([App.tsx]), the filter and the key
    handler of the command palette ([CommandPalette.tsx]), the link
    texts of the package card ([PackageCard.tsx]) and the data of the
    dependency graph ([src/components/DependencyGraph.tsx]) are embedded
    after the service, with their properties at the end of the file.
    React state is a record, and a handler is the function from the
    state of the render that created it to the state it leaves.

    Host-language conventions used by the embedding:
    - a JavaScript string is a Rocq [string]; each character stands for
      one code unit below 256, so the white space recognised by [trim]
      and [Number] is TAB, LF, VT, FF, CR, SP and NBSP;
    - a JavaScript number is a [number]: [NaN], the two infinities, or a
      finite 64-bit float, given as the rational it stands for; a
      literal and a difference are rounded to the nearest float, to the
      even one of two that are as near ([roundToFloat]); the two zeros,
      which [||], [!==] and the sign of a difference do not tell apart,
      are one value;
    - [undefined] is [None]; an optional member [m?: T] is an [option T];
    - a JavaScript object used as a dictionary is the list of its own
      properties in the order [Object.keys] enumerates them; a key it
      does not own is looked up in [Object.prototype];
    - a rejected promise or a [throw] is the [Thrown] outcome; what is
      written to the console is not part of the model. *)

From Stdlib Require Import String Ascii List ZArith QArith Bool Arith Lia Lqa.
From Stdlib Require Import Permutation Sorted.
Import ListNotations.
Close Scope Q_scope.
Open Scope string_scope.

(* ================================================================== *)
(** ** Host language: strings *)
(* ================================================================== *)

Module JS.

(** White space and line terminators, as skipped by
    [String.prototype.trim] and by the string-to-number conversion. *)
Definition isWhiteSpace (c : ascii) : bool :=
  let n := nat_of_ascii c in
  ((9 <=? n)%nat && (n <=? 13)%nat) || (n =? 32)%nat || (n =? 160)%nat.

Fixpoint trimStart (s : string) : string :=
  match s with
  | String c s' => if isWhiteSpace c then trimStart s' else s
  | EmptyString => EmptyString
  end.

Fixpoint trimEnd (s : string) : string :=
  match s with
  | EmptyString => EmptyString
  | String c s' =>
      match trimEnd s' with
      | EmptyString => if isWhiteSpace c then EmptyString else String c EmptyString
      | t => String c t
      end
  end.

(** [s.trim()] *)
Definition trim (s : string) : string := trimEnd (trimStart s).

(** [s.split(sep)] for a one-character separator. *)
Fixpoint split (sep : ascii) (s : string) : list string :=
  match s with
  | EmptyString => [EmptyString]
  | String c s' =>
      if Ascii.eqb c sep then EmptyString :: split sep s'
      else match split sep s' with
           | seg :: rest => String c seg :: rest
           | [] => [String c EmptyString]
           end
  end.

(** [s.startsWith(p)], returning what follows the prefix. *)
Fixpoint stripPrefix (p s : string) : option string :=
  match p, s with
  | EmptyString, _ => Some s
  | String a p', String b s' => if Ascii.eqb a b then stripPrefix p' s' else None
  | String _ _, EmptyString => None
  end.

(** Truthiness of a string value that may be [undefined]. *)
Definition truthy (s : option string) : bool :=
  match s with
  | Some t => negb (t =? "")
  | None => false
  end.

(** [a || b] on strings that may be [undefined]. *)
Definition orElse (a b : option string) : option string :=
  if truthy a then a else b.

(* ================================================================== *)
(** ** Host language: numbers *)
(* ================================================================== *)

Inductive number : Type :=
| NaN
| NegInfinity
| Finite (q : Q)
| PosInfinity.

Definition zero : number := Finite 0%Q.

(** Truthiness of a number: [NaN] and [0] are falsy. *)
Definition truthyNumber (x : number) : bool :=
  match x with
  | NaN => false
  | Finite q => negb (Qeq_bool q 0%Q)
  | _ => true
  end.

(** [x || 0] where [x] may be [undefined] (an index past the end). *)
Definition orZero (x : option number) : number :=
  match x with
  | Some v => if truthyNumber v then v else zero
  | None => zero
  end.

(** [a !== b] on numbers. *)
Definition strictNotEqual (a b : number) : bool :=
  match a, b with
  | NaN, _ | _, NaN => true
  | Finite p, Finite q => negb (Qeq_bool p q)
  | NegInfinity, NegInfinity | PosInfinity, PosInfinity => false
  | _, _ => true
  end.

Definition negate (x : number) : number :=
  match x with
  | NaN => NaN
  | NegInfinity => PosInfinity
  | PosInfinity => NegInfinity
  | Finite q => Finite (- q)%Q
  end.

(** *** Rounding to a 64-bit float *)

(** [d * 2^k <= n], for an exponent [k] of either sign. *)
Definition leShifted (d k n : Z) : bool :=
  (d * 2 ^ Z.max 0 k <=? n * 2 ^ Z.max 0 (- k))%Z.

(** The integer part of the binary logarithm of [n / d], for positive
    [n] and [d]. *)
Definition floorLog2 (n d : Z) : Z :=
  let k := (Z.log2 n - Z.log2 d)%Z in
  if leShifted d k n then k else (k - 1)%Z.

(** The integer nearest to [n / d], for a positive [d]; the even one of
    the two when [n / d] lies half-way between them. *)
Definition roundHalfEven (n d : Z) : Z :=
  let q := (n / d)%Z in
  match (2 * (n mod d) ?= d)%Z with
  | Lt => q
  | Gt => (q + 1)%Z
  | Eq => if Z.even q then q else (q + 1)%Z
  end.

(** [m * 2^e], in lowest terms. *)
Definition timesPow2 (m e : Z) : Q :=
  Qred (Qmake (m * 2 ^ Z.max 0 e) (Z.to_pos (2 ^ Z.max 0 (- e)))).

(** The float nearest to [n / d], for positive [n] and [d].  A finite
    float is a significand of 53 bits at most times a power of two, the
    least power being 2^-1074; the exponent [e] is the one that gives
    [n / d] a significand of 53 bits, and what reaches 2^1024 after
    rounding is infinite. *)
Definition roundPositive (n d : Z) : number :=
  let e := Z.max (-1074) (floorLog2 n d - 52) in
  let m := roundHalfEven (n * 2 ^ Z.max 0 (- e)) (d * 2 ^ Z.max 0 e) in
  let v := timesPow2 m e in
  if Qle_bool (inject_Z (2 ^ 1024)) v then PosInfinity else Finite v.

(** The Number value for the real [q]. *)
Definition roundToFloat (q : Q) : number :=
  match Qnum q with
  | Z0 => zero
  | Zpos n => roundPositive (Zpos n) (Zpos (Qden q))
  | Zneg n => negate (roundPositive (Zpos n) (Zpos (Qden q)))
  end.

(** [b - a] *)
Definition sub (b a : number) : number :=
  match b, a with
  | NaN, _ | _, NaN => NaN
  | Finite p, Finite q => roundToFloat (p - q)%Q
  | PosInfinity, PosInfinity | NegInfinity, NegInfinity => NaN
  | PosInfinity, _ => PosInfinity
  | NegInfinity, _ => NegInfinity
  | Finite _, PosInfinity => NegInfinity
  | Finite _, NegInfinity => PosInfinity
  end.

Definition isPositive (x : number) : bool :=
  match x with
  | PosInfinity => true
  | Finite q => negb (Qle_bool q 0%Q)
  | _ => false
  end.

Definition isNegative (x : number) : bool :=
  match x with
  | NegInfinity => true
  | Finite q => negb (Qle_bool 0%Q q)
  | _ => false
  end.

(** *** String to number: [Number(s)] *)

(** Value of a digit in radix 16 and below. *)
Definition digitValue (c : ascii) : option Z :=
  let n := Z.of_nat (nat_of_ascii c) in
  if ((48 <=? n) && (n <=? 57))%Z then Some (n - 48)%Z
  else if ((97 <=? n) && (n <=? 102))%Z then Some (n - 87)%Z
  else if ((65 <=? n) && (n <=? 70))%Z then Some (n - 55)%Z
  else None.

Fixpoint digitsValue (radix acc : Z) (s : string) : option Z :=
  match s with
  | EmptyString => Some acc
  | String c s' =>
      match digitValue c with
      | Some d => if (d <? radix)%Z then digitsValue radix (acc * radix + d)%Z s' else None
      | None => None
      end
  end.

(** One or more digits of the radix. *)
Definition parseDigits (radix : Z) (s : string) : option Z :=
  match s with
  | EmptyString => None
  | _ => digitsValue radix 0%Z s
  end.

(** Zero or more digits of the radix. *)
Definition parseDigitsOpt (radix : Z) (s : string) : option Z :=
  digitsValue radix 0%Z s.

(** Cuts [s] at the first character satisfying [p]: what precedes it, and
    what follows it when there is one. *)
Fixpoint cut (p : ascii -> bool) (s : string) : string * option string :=
  match s with
  | EmptyString => (EmptyString, None)
  | String c s' =>
      if p c then (EmptyString, Some s')
      else let '(l, r) := cut p s' in (String c l, r)
  end.

Definition isExponentIndicator (c : ascii) : bool :=
  Ascii.eqb c "e" || Ascii.eqb c "E".

Definition isDot (c : ascii) : bool := Ascii.eqb c ".".

(** The mathematical value [m * 10^e] of a literal. *)
Definition scale10 (m e : Z) : Q :=
  if (0 <=? e)%Z then inject_Z (m * 10 ^ e)%Z else Qmake m (Z.to_pos (10 ^ (- e))%Z).

(** SignedInteger of an exponent part. *)
Definition signedInteger (s : string) : option Z :=
  match s with
  | String c d =>
      if Ascii.eqb c "+" then parseDigits 10%Z d
      else if Ascii.eqb c "-" then option_map Z.opp (parseDigits 10%Z d)
      else parseDigits 10%Z s
  | EmptyString => None
  end.

(** Mantissa of a decimal literal: its digits as an integer and the
    number of digits after the point. *)
Definition mantissa (s : string) : option (Z * Z) :=
  match cut isDot s with
  | (i, None) => option_map (fun v => (v, 0%Z)) (parseDigits 10%Z i)
  | (i, Some f) =>
      match i, f with
      | EmptyString, EmptyString => None
      | _, _ =>
          match parseDigitsOpt 10%Z i, parseDigitsOpt 10%Z f with
          | Some iv, Some fv =>
              let n := Z.of_nat (String.length f) in
              Some (iv * 10 ^ n + fv, n)%Z
          | _, _ => None
          end
      end
  end.

(** StrUnsignedDecimalLiteral without the [Infinity] case: the float
    nearest to the mathematical value of the literal, as the engines
    give it (ECMAScript leaves an implementation free to drop the digits
    after the twentieth before rounding). *)
Definition decimalLiteral (s : string) : number :=
  let '(m, e) := cut isExponentIndicator s in
  match mantissa m with
  | None => NaN
  | Some (mv, shift) =>
      match e with
      | None => roundToFloat (scale10 mv (- shift)%Z)
      | Some x =>
          match signedInteger x with
          | Some ev => roundToFloat (scale10 mv (ev - shift)%Z)
          | None => NaN
          end
      end
  end.

Definition strUnsignedDecimalLiteral (s : string) : number :=
  if s =? "Infinity" then PosInfinity else decimalLiteral s.

Definition strDecimalLiteral (s : string) : number :=
  match s with
  | String c u =>
      if Ascii.eqb c "+" then strUnsignedDecimalLiteral u
      else if Ascii.eqb c "-" then negate (strUnsignedDecimalLiteral u)
      else strUnsignedDecimalLiteral s
  | EmptyString => NaN
  end.

(** Radix announced by the letter after a leading [0]. *)
Definition radixOfPrefix (c : ascii) : option Z :=
  if Ascii.eqb c "x" || Ascii.eqb c "X" then Some 16%Z
  else if Ascii.eqb c "o" || Ascii.eqb c "O" then Some 8%Z
  else if Ascii.eqb c "b" || Ascii.eqb c "B" then Some 2%Z
  else None.

(** StrNumericLiteral: a binary, octal or hexadecimal integer announced
    by a leading [0] and a radix letter, or else a decimal literal. *)
Definition strNumericLiteral (s : string) : number :=
  match s with
  | String z (String c ds) =>
      match (if Ascii.eqb z "0" then radixOfPrefix c else None) with
      | Some r =>
          match parseDigits r ds with
          | Some v => roundToFloat (inject_Z v)
          | None => NaN
          end
      | None => strDecimalLiteral s
      end
  | _ => strDecimalLiteral s
  end.

(** [Number(s)] for a string [s]: white space around the literal is
    ignored, the empty literal is [0], anything that is not a numeric
    literal is [NaN]. *)
Definition Number (s : string) : number :=
  let t := trim s in
  if t =? "" then zero else strNumericLiteral t.

(* ================================================================== *)
(** ** Host language: [Array.prototype.sort] *)
(* ================================================================== *)

(** [sort] is stable and, for a consistent comparator, yields the one
    arrangement that is sorted and keeps tied elements in their order
    (for the comparator of the service: [stable_sorted_unique]); it is
    embedded as a stable insertion sort.  An element moves behind [y]
    only when [comparefn x y > 0]. *)
Section Sort.
Context {A : Type} (comparefn : A -> A -> number).

Fixpoint insert (x : A) (l : list A) : list A :=
  match l with
  | [] => [x]
  | y :: l' => if isPositive (comparefn x y) then y :: insert x l' else x :: l
  end.

Fixpoint sort (l : list A) : list A :=
  match l with
  | [] => []
  | x :: l' => insert x (sort l')
  end.
End Sort.

End JS.

(* ================================================================== *)
(** ** Data declarations ([src/types.ts]) *)
(* ================================================================== *)

(** An object used as a dictionary with string keys. *)
Definition Dict (V : Type) : Type := list (string * V).

(** [Object.keys(d)] *)
Definition keys {V : Type} (d : Dict V) : list string := map fst d.

(** The own property [k] of [d]. *)
Fixpoint get {V : Type} (d : Dict V) (k : string) : option V :=
  match d with
  | [] => None
  | (k', v) :: d' => if k' =? k then Some v else get d' k
  end.

(** What [d[k]] evaluates to when it is not [undefined]: an own property
    of the object, or a member inherited from [Object.prototype], of
    which the service can read nothing but [name]. *)
Inductive Property (V : Type) : Type :=
| Own (v : V)
| Inherited (name : option string).
Arguments Own {V} v.
Arguments Inherited {V} name.

(** The members of [Object.prototype] with the [name] of each: a function
    carries its name, and [__proto__] is the prototype itself, which has
    none. *)
Definition objectPrototype : Dict (option string) :=
  [ ("constructor", Some "Object");
    ("__defineGetter__", Some "__defineGetter__");
    ("__defineSetter__", Some "__defineSetter__");
    ("hasOwnProperty", Some "hasOwnProperty");
    ("__lookupGetter__", Some "__lookupGetter__");
    ("__lookupSetter__", Some "__lookupSetter__");
    ("isPrototypeOf", Some "isPrototypeOf");
    ("propertyIsEnumerable", Some "propertyIsEnumerable");
    ("toString", Some "toString");
    ("valueOf", Some "valueOf");
    ("__proto__", None);
    ("toLocaleString", Some "toLocaleString") ].

(** [d[k]] on an object parsed from JSON. *)
Definition lookup {V : Type} (d : Dict V) (k : string) : option (Property V) :=
  match get d k with
  | Some v => Some (Own v)
  | None => option_map Inherited (get objectPrototype k)
  end.

(** [o.m] for a member [m] of the records; no member of
    [Object.prototype] has it. *)
Definition member {V A : Type} (m : V -> option A) (o : Property V) : option A :=
  match o with
  | Own v => m v
  | Inherited _ => None
  end.

Module Maintainer.
Record t : Type := { name : string; email : string }.
End Maintainer.

Module Repository.
Record t : Type := { type : string; url : string }.
End Repository.

Module AuthorObject.
Record t : Type := { name : string; email : option string; url : option string }.
End AuthorObject.

(** [author?: string | { name; email?; url? }] *)
Inductive Author : Type :=
| AuthorString (s : string)
| AuthorRecord (o : AuthorObject.t).

(** An entry of [NpmRegistryResponse.versions]. *)
Module VersionData.
Record t : Type := {
  name : string;
  version : string;
  description : option string;
  license : option string;
  author : option Author;
  dependencies : option (Dict string);
  devDependencies : option (Dict string);
  homepage : option string;
  repository : option Repository.t
}.
End VersionData.

Module DistTags.
Record t : Type := { latest : option string }.
End DistTags.

Module NpmRegistryResponse.
Record t : Type := {
  name : string;
  dist_tags : option DistTags.t;
  versions : Dict VersionData.t;
  time : Dict string;
  maintainers : list Maintainer.t;
  homepage : option string;
  repository : option Repository.t
}.
End NpmRegistryResponse.

Module NpmDownloadsResponse.
Record t : Type := {
  downloads : Z;
  start : string;
  end_ : string;
  package : string
}.
End NpmDownloadsResponse.

(** [name] and [version] are read from what [data.versions[...]]
    evaluates to, and are [undefined] when that is no record. *)
Module NpmPackageData.
Record t : Type := {
  name : option string;
  version : option string;
  description : option string;
  license : option string;
  author : option string;
  dependencies : option (Dict string);
  devDependencies : option (Dict string);
  homepage : option string;
  repository : option string;
  npmUrl : string;
  publishedDate : option string;
  maintainers : option (list Maintainer.t);
  downloadsLastWeek : option Z
}.
End NpmPackageData.

Module PackageDetailsResponse.
Record t : Type := {
  packageData : NpmPackageData.t;
  allVersions : list string
}.
End PackageDetailsResponse.

(* ================================================================== *)
(** ** Failures and the network *)
(* ================================================================== *)

(** What [fetchPackageData] and [fetchPackageDownloads] throw, one
    constructor per [throw] statement, and [Rejected] for a rejection of
    [fetch] or of [response.json()], which carries the reason given by
    the transport. *)
Inductive Failure : Type :=
| NotFound (packageName : string)
| TransportError (statusText : string)
| NoLatestTag (packageName : string)
| VersionNotFound (version packageName : string)
| DownloadsError (statusText : string)
| Rejected (reason : string).

(** The double-quote character of the message templates. *)
Definition dquote : ascii := ascii_of_nat 34.

Definition quoted (s : string) : string :=
  String dquote s ++ String dquote EmptyString.

(** The [message] of the thrown [Error]. *)
Definition message (e : Failure) : string :=
  match e with
  | NotFound packageName =>
      "Package " ++ quoted packageName ++ " not found."
  | TransportError statusText =>
      "Failed to fetch package data: " ++ statusText
  | NoLatestTag packageName =>
      "Could not determine latest version for package " ++ quoted packageName ++ "."
  | VersionNotFound version packageName =>
      "Could not find data for version " ++ quoted version
        ++ " of package " ++ quoted packageName ++ "."
  | DownloadsError statusText =>
      "Failed to fetch download data: " ++ statusText
  | Rejected reason => reason
  end.

Inductive Outcome (A : Type) : Type :=
| Returned (a : A)
| Thrown (e : Failure).
Arguments Returned {A} a.
Arguments Thrown {A} e.

Definition bind {A B : Type} (m : Outcome A) (k : A -> Outcome B) : Outcome B :=
  match m with
  | Returned a => k a
  | Thrown e => Thrown e
  end.

Notation "x <- m ;; k" := (bind m (fun x => k))
  (at level 61, m at next level, right associativity).

(** [try { body } catch (error) { handler }] *)
Definition tryCatch {A : Type} (body : Outcome A) (handler : Failure -> Outcome A)
  : Outcome A :=
  match body with
  | Returned a => Returned a
  | Thrown e => handler e
  end.

Module Response.
(** The part of a [Response] the service reads; [json] is the outcome
    of [response.json()] with the body already typed. *)
Record t (B : Type) : Type := {
  status : Z;
  statusText : string;
  json : Outcome B
}.
Arguments status {B} _.
Arguments statusText {B} _.
Arguments json {B} _.

(** [response.ok]: the status is in the range 200-299. *)
Definition ok {B : Type} (r : t B) : bool :=
  ((200 <=? status r) && (status r <=? 299))%Z.
End Response.

(** The world the service runs in: the answer of each endpoint to a
    request for a URL, and the locale formatting of a time stamp
    ([new Date(raw).toLocaleDateString('en-GB', ...)]). *)
Record Host : Type := {
  fetchRegistry : string -> Outcome (Response.t NpmRegistryResponse.t);
  fetchDownloads : string -> Outcome (Response.t NpmDownloadsResponse.t);
  toLocaleDateString : string -> string
}.

(* ================================================================== *)
(** ** The service ([src/services/npmService.ts]) *)
(* ================================================================== *)

Import JS.

(** [await fetchPackageDownloads(packageName)]: the number of downloads,
    or [undefined]; the function never rejects. *)
Definition fetchPackageDownloads (h : Host) (packageName : string) : option Z :=
  let attempt : Outcome (option Z) :=
    response <- fetchDownloads h
                  ("https://api.npmjs.org/downloads/point/last-week/" ++ packageName) ;;
    if negb (Response.ok response) then
      if (Response.status response =? 404)%Z then Returned None
      else Thrown (DownloadsError (Response.statusText response))
    else
      data <- Response.json response ;;
      Returned (Some (NpmDownloadsResponse.downloads data))
  in
  match attempt with
  | Returned r => r
  | Thrown _ => None
  end.

(** [a || b] where [b] is a string. *)
Definition orString (a : option string) (b : string) : string :=
  match a with
  | Some s => if s =? "" then b else s
  | None => b
  end.

(** [o?.url] for a repository that may be [undefined]. *)
Definition repositoryUrl (r : option Repository.t) : option string :=
  option_map Repository.url r.

(** *** Author extraction *)

Fixpoint takeWhile (p : ascii -> bool) (s : string) : string :=
  match s with
  | String c s' => if p c then String c (takeWhile p s') else EmptyString
  | EmptyString => EmptyString
  end.

Fixpoint dropWhile (p : ascii -> bool) (s : string) : string :=
  match s with
  | String c s' => if p c then dropWhile p s' else s
  | EmptyString => EmptyString
  end.

Definition notLt (c : ascii) : bool := negb (Ascii.eqb c "<").
Definition notSlash (c : ascii) : bool := negb (Ascii.eqb c "/").

(** Group 1 of [s.match(/^([^<]+)/)]: the longest run of characters
    other than [<] at the start of [s], when it is not empty. *)
Definition matchName (s : string) : option string :=
  match takeWhile notLt s with
  | EmptyString => None
  | m => Some m
  end.

(** Step 1: the author from [versionData.author]. *)
Definition authorOfField (a : option Author) : option string :=
  match a with
  | None => None
  | Some (AuthorRecord o) =>
      if AuthorObject.name o =? "" then None else Some (AuthorObject.name o)
  | Some (AuthorString s) =>
      if s =? "" then None
      else match matchName s with
           | Some nameMatch => Some (trim nameMatch)
           | None => Some s
           end
  end.

(** [s.replace(/^git\+/, '')] *)
Definition removeGitPlus (s : string) : string :=
  match stripPrefix "git+" s with
  | Some r => r
  | None => s
  end.

(** [s.replace(/\.git$/, '')] *)
Fixpoint removeDotGit (s : string) : string :=
  if s =? ".git" then EmptyString
  else match s with
       | String c s' => String c (removeDotGit s')
       | EmptyString => EmptyString
       end.

(** [/github\.com\/([^/]+)\/[^/]+/] tried at the start of [s]: group 1.
    The greedy run of non-slash characters must be followed by a slash
    (the character [slash] at which [dropWhile] stops), so no shorter run
    can match. *)
Definition matchGithubHere (s : string) : option string :=
  match stripPrefix "github.com/" s with
  | None => None
  | Some r =>
      match takeWhile notSlash r, dropWhile notSlash r with
      | String c o, String slash (String d _) =>
          if notSlash d then Some (String c o) else None
      | _, _ => None
      end
  end.

(** Group 1 of [s.match(/github\.com\/([^/]+)\/[^/]+/)]: the match that
    starts leftmost. *)
Fixpoint matchGithub (s : string) : option string :=
  match matchGithubHere s with
  | Some owner => Some owner
  | None =>
      match s with
      | String _ s' => matchGithub s'
      | EmptyString => None
      end
  end.

(** Step 2: the owner inferred from the repository URL, tried when step 1
    left no author. *)
Definition authorOfRepository (author repoUrl : option string) : option string :=
  if negb (truthy author) && truthy repoUrl then
    match repoUrl with
    | Some u =>
        let cleanedRepoUrl := removeDotGit (removeGitPlus u) in
        match matchGithub cleanedRepoUrl with
        | Some owner => Some owner
        | None => author
        end
    | None => author
    end
  else author.

(** The author block as a whole: the value of [author] before the
    default is applied. *)
Definition extractAuthor (a : option Author) (repoUrl : option string) : option string :=
  authorOfRepository (authorOfField a) repoUrl.

(** *** Ordering of versions *)

(** The loop of the comparator, from index [i] for [steps] iterations. *)
Fixpoint compareParts (aParts bParts : list number) (i steps : nat) : number :=
  match steps with
  | O => zero
  | S k =>
      let aNum := orZero (nth_error aParts i) in
      let bNum := orZero (nth_error bParts i) in
      if strictNotEqual aNum bNum then sub bNum aNum
      else compareParts aParts bParts (S i) k
  end.

(** The comparator passed to [sort]. *)
Definition compareVersions (a b : string) : number :=
  let aParts := map Number (split "." a) in
  let bParts := map Number (split "." b) in
  compareParts aParts bParts 0 (Nat.max (length aParts) (length bParts)).

(** [Object.keys(data.versions).sort(...)] *)
Definition sortedVersions (data : NpmRegistryResponse.t) : list string :=
  sort compareVersions (keys (NpmRegistryResponse.versions data)).

(** [data['dist-tags']?.latest] *)
Definition latestTag (data : NpmRegistryResponse.t) : option string :=
  match NpmRegistryResponse.dist_tags data with
  | Some tags => DistTags.latest tags
  | None => None
  end.

(** *** [fetchPackageData] *)

(** [versionData.name] *)
Definition nameOf (versionData : Property VersionData.t) : option string :=
  match versionData with
  | Own v => Some (VersionData.name v)
  | Inherited name => name
  end.

(** [versionData.version] *)
Definition versionOf (versionData : Property VersionData.t) : option string :=
  member (fun v => Some (VersionData.version v)) versionData.

(** Lines 58-134: what is returned once [data.versions[versionToFetch]]
    has been found. *)
Definition assemble (h : Host) (packageName : string) (data : NpmRegistryResponse.t)
  (versionToFetch : string) (versionData : Property VersionData.t)
  : PackageDetailsResponse.t :=
  let repoUrl :=
    orElse (repositoryUrl (member VersionData.repository versionData))
           (repositoryUrl (NpmRegistryResponse.repository data)) in
  let homepageUrl :=
    orElse (member VersionData.homepage versionData)
           (NpmRegistryResponse.homepage data) in
  let author := extractAuthor (member VersionData.author versionData) repoUrl in
  let publishedDate :=
    match lookup (NpmRegistryResponse.time data) versionToFetch with
    | Some (Own rawPublishedDate) =>
        if rawPublishedDate =? "" then None
        else Some (toLocaleDateString h rawPublishedDate)
    | Some (Inherited _) => Some "Invalid Date"
    | None => None
    end in
  let allVersions := sortedVersions data in
  let downloadsLastWeek := fetchPackageDownloads h packageName in
  {| PackageDetailsResponse.packageData := {|
       NpmPackageData.name := nameOf versionData;
       NpmPackageData.version := versionOf versionData;
       NpmPackageData.description := member VersionData.description versionData;
       NpmPackageData.license := member VersionData.license versionData;
       NpmPackageData.author := Some (orString author "N/A");
       NpmPackageData.dependencies := member VersionData.dependencies versionData;
       NpmPackageData.devDependencies := member VersionData.devDependencies versionData;
       NpmPackageData.homepage := homepageUrl;
       NpmPackageData.repository := repoUrl;
       NpmPackageData.npmUrl := "https://www.npmjs.com/package/" ++ packageName;
       NpmPackageData.publishedDate := publishedDate;
       NpmPackageData.maintainers := Some (NpmRegistryResponse.maintainers data);
       NpmPackageData.downloadsLastWeek := downloadsLastWeek
     |};
     PackageDetailsResponse.allVersions := allVersions |}.

(** Lines 46-134: the body of [fetchPackageData] once the document has
    been parsed. *)
Definition packageDetails (h : Host) (packageName : string) (version : option string)
  (data : NpmRegistryResponse.t) : Outcome PackageDetailsResponse.t :=
  match latestTag data with
  | None => Thrown (NoLatestTag packageName)
  | Some latestVersion =>
      if latestVersion =? "" then Thrown (NoLatestTag packageName)
      else
        let versionToFetch := orString version latestVersion in
        match lookup (NpmRegistryResponse.versions data) versionToFetch with
        | None => Thrown (VersionNotFound versionToFetch packageName)
        | Some versionData =>
            Returned (assemble h packageName data versionToFetch versionData)
        end
  end.

Definition fetchPackageData (h : Host) (packageName : string) (version : option string)
  : Outcome PackageDetailsResponse.t :=
  tryCatch (
    response <- fetchRegistry h ("https://registry.npmjs.org/" ++ packageName) ;;
    if negb (Response.ok response) then
      if (Response.status response =? 404)%Z then Thrown (NotFound packageName)
      else Thrown (TransportError (Response.statusText response))
    else
      data <- Response.json response ;;
      packageDetails h packageName version data
  ) (fun error => Thrown error).

(* ================================================================== *)
(** ** The vocabulary of the specification *)
(* ================================================================== *)

(** *** Order on numbers *)

(** [x] and [y] are the same numeric value. *)
Definition numEq (x y : number) : Prop :=
  match x, y with
  | Finite p, Finite q => (p == q)%Q
  | NegInfinity, NegInfinity | PosInfinity, PosInfinity => True
  | _, _ => False
  end.

(** [x] is numerically below [y]. *)
Definition numLt (x y : number) : Prop :=
  match x, y with
  | Finite p, Finite q => (p < q)%Q
  | NegInfinity, Finite _ | NegInfinity, PosInfinity | Finite _, PosInfinity => True
  | _, _ => False
  end.

(** [x] is a value a number can take: when finite, a multiple of
    2^-1074, the least positive float. *)
Definition isFloat (x : number) : Prop :=
  match x with
  | Finite q => exists k : Z, (q == k # (2 ^ 1074))%Q
  | _ => True
  end.

(** *** Order on versions *)

(** A segment that is not numeric counts as 0. *)
Definition segmentValue (seg : string) : number :=
  match Number seg with
  | NaN => zero
  | n => n
  end.

(** The value at position [i] of the key split on the dot; a missing
    position counts as 0. *)
Definition partAt (v : string) (i : nat) : number :=
  match nth_error (split "." v) i with
  | Some seg => segmentValue seg
  | None => zero
  end.

(** Sequences of values compared position by position. *)
Definition seqHigher (f g : nat -> number) : Prop :=
  exists i, (forall j, j < i -> numEq (f j) (g j)) /\ numLt (g i) (f i).

Definition seqTied (f g : nat -> number) : Prop :=
  forall i, numEq (f i) (g i).

(** [a] is a higher version than [b]: at the first position where they
    differ, [a] has the larger value. *)
Definition higher (a b : string) : Prop := seqHigher (partAt a) (partAt b).

(** [a] and [b] have the same value at every position. *)
Definition tied (a b : string) : Prop := seqTied (partAt a) (partAt b).

(** The value the comparator reads at index [i] of an array of parts. *)
Definition partOf (parts : list number) (i : nat) : number :=
  orZero (nth_error parts i).

(** [x] has to go behind [y] for the comparator. *)
Definition behind {A : Type} (comparefn : A -> A -> number) (x y : A) : bool :=
  isPositive (comparefn x y).

(** The comparator returns 0 (neither sign) exactly on a tie. *)
Definition isTie (a b : string) : bool :=
  negb (isPositive (compareVersions a b)) && negb (isNegative (compareVersions a b)).

(** *** Decimal numerals *)

Definition isDecimalDigit (c : ascii) : bool :=
  let n := nat_of_ascii c in (48 <=? n)%nat && (n <=? 57)%nat.

Fixpoint allDigits (s : string) : bool :=
  match s with
  | EmptyString => true
  | String c s' => isDecimalDigit c && allDigits s'
  end.

(** The integer a string of decimal digits denotes, by position. *)
Fixpoint decimalValue (s : string) : Z :=
  match s with
  | EmptyString => 0%Z
  | String c s' =>
      ((Z.of_nat (nat_of_ascii c) - 48) * 10 ^ Z.of_nat (String.length s')
       + decimalValue s')%Z
  end.

(** *** The order of the specification: segments as integers *)

(** A segment read as an integer: the integer a non-empty string of
    decimal digits denotes, and 0 for any other segment. *)
Definition integerOfSegment (seg : string) : Z :=
  if negb (seg =? "") && allDigits seg then decimalValue seg else 0%Z.

Definition integerAt (v : string) (i : nat) : Z :=
  match nth_error (split "." v) i with
  | Some seg => integerOfSegment seg
  | None => 0%Z
  end.

(** [a] is higher than [b] when their segments are compared as
    integers, whatever their size. *)
Definition integerHigher (a b : string) : Prop :=
  exists i, (forall j, j < i -> integerAt a j = integerAt b j) /\
            (integerAt b i < integerAt a i)%Z.

(** *** Author strings and repository URLs *)

(** No character of [s] is [c]. *)
Fixpoint lacks (c : ascii) (s : string) : Prop :=
  match s with
  | EmptyString => True
  | String d s' => d <> c /\ lacks c s'
  end.

(** [pre] is the portion of [s] that precedes its first [c] (all of [s]
    when it has none). *)
Definition beforeFirst (c : ascii) (s pre : string) : Prop :=
  lacks c pre /\ (s = pre \/ exists rest, s = pre ++ String c rest).

(** [c] is [u] without the prefix [p], when [u] starts with it. *)
Definition withoutPrefix (p u c : string) : Prop :=
  u = p ++ c \/ ((forall x, u <> p ++ x) /\ c = u).

(** [c] is [u] without the suffix [q], when [u] ends with it. *)
Definition withoutSuffix (q u c : string) : Prop :=
  u = c ++ q \/ ((forall x, u <> x ++ q) /\ c = u).

(** After [pre], [c] reads [github.com/<owner>/<repo>]: an owner and a
    repository name of one character at least, neither holding a slash. *)
Definition githubAt (c pre owner : string) : Prop :=
  exists d rest,
    c = pre ++ "github.com/" ++ owner ++ String "/" (String d rest) /\
    owner <> EmptyString /\ lacks "/" owner /\ d <> "/"%char.

(** [c] matches the pattern, and [owner] is the owner of its leftmost
    match. *)
Definition githubPattern (c owner : string) : Prop :=
  exists pre,
    githubAt c pre owner /\
    forall pre' owner',
      String.length pre' < String.length pre -> ~ githubAt c pre' owner'.

(** *** The pipeline *)

(** The registry document of a package: the parsed body of a successful
    answer of the registry. *)
Definition registryDocument (h : Host) (packageName : string)
  : option NpmRegistryResponse.t :=
  match fetchRegistry h ("https://registry.npmjs.org/" ++ packageName) with
  | Returned response =>
      if Response.ok response then
        match Response.json response with
        | Returned data => Some data
        | Thrown _ => None
        end
      else None
  | Thrown _ => None
  end.

(** The target version: the requested version if one is given, else the
    latest tag; none when the document has no latest tag. *)
Definition targetVersion (version : option string) (data : NpmRegistryResponse.t)
  : option string :=
  match latestTag data with
  | Some latestVersion =>
      if latestVersion =? "" then None else Some (orString version latestVersion)
  | None => None
  end.

(** Resolution of [version] of [packageName] succeeds with [r], from the
    document [data] and the record [versionData] of the target version. *)
Definition resolves (h : Host) (packageName : string) (version : option string)
  (data : NpmRegistryResponse.t) (versionData : VersionData.t)
  (r : PackageDetailsResponse.t) : Prop :=
  registryDocument h packageName = Some data /\
  (exists t, targetVersion version data = Some t /\
             get (NpmRegistryResponse.versions data) t = Some versionData) /\
  fetchPackageData h packageName version = Returned r.

(** The repository URL of a record: its own, else the one of the root of
    the document. *)
Definition repositoryUrlOf (versionData : VersionData.t) (data : NpmRegistryResponse.t)
  (u : string) : Prop :=
  (repositoryUrl (VersionData.repository versionData) = Some u /\ u <> EmptyString) \/
  ((repositoryUrl (VersionData.repository versionData) = None \/
    repositoryUrl (VersionData.repository versionData) = Some EmptyString) /\
   repositoryUrl (NpmRegistryResponse.repository data) = Some u).

(** The host [h] with another downloads endpoint. *)
Definition withDownloads (h : Host)
  (d : string -> Outcome (Response.t NpmDownloadsResponse.t)) : Host :=
  {| fetchRegistry := fetchRegistry h;
     fetchDownloads := d;
     toLocaleDateString := toLocaleDateString h |}.

(** The ways the downloads request can fail: a transport failure, a
    response that is not a success (404 or another status), a body that
    cannot be read. *)
Definition downloadsFailed (o : Outcome (Response.t NpmDownloadsResponse.t)) : Prop :=
  match o with
  | Thrown _ => True
  | Returned response =>
      Response.ok response = false \/ exists e, Response.json response = Thrown e
  end.

(** [p] with another count of downloads. *)
Definition setDownloads (d : option Z) (p : NpmPackageData.t) : NpmPackageData.t :=
  {| NpmPackageData.name := NpmPackageData.name p;
     NpmPackageData.version := NpmPackageData.version p;
     NpmPackageData.description := NpmPackageData.description p;
     NpmPackageData.license := NpmPackageData.license p;
     NpmPackageData.author := NpmPackageData.author p;
     NpmPackageData.dependencies := NpmPackageData.dependencies p;
     NpmPackageData.devDependencies := NpmPackageData.devDependencies p;
     NpmPackageData.homepage := NpmPackageData.homepage p;
     NpmPackageData.repository := NpmPackageData.repository p;
     NpmPackageData.npmUrl := NpmPackageData.npmUrl p;
     NpmPackageData.publishedDate := NpmPackageData.publishedDate p;
     NpmPackageData.maintainers := NpmPackageData.maintainers p;
     NpmPackageData.downloadsLastWeek := d |}.

(** [s] occurs in [t]. *)
Definition names (t s : string) : Prop := exists pre post, t = pre ++ s ++ post.

(** *** Sample documents and hosts *)

Definition sampleVersion (v : string) (a : option Author) (repo : option string)
  : VersionData.t :=
  {| VersionData.name := "widget";
     VersionData.version := v;
     VersionData.description := None;
     VersionData.license := Some "MIT";
     VersionData.author := a;
     VersionData.dependencies := None;
     VersionData.devDependencies := None;
     VersionData.homepage := None;
     VersionData.repository :=
       option_map (fun u => {| Repository.type := "git"; Repository.url := u |}) repo |}.

Definition sampleDocumentOf (tags : option DistTags.t) (vs : Dict VersionData.t)
  : NpmRegistryResponse.t :=
  {| NpmRegistryResponse.name := "widget";
     NpmRegistryResponse.dist_tags := tags;
     NpmRegistryResponse.versions := vs;
     NpmRegistryResponse.time := [];
     NpmRegistryResponse.maintainers := [];
     NpmRegistryResponse.homepage := None;
     NpmRegistryResponse.repository := None |}.

Definition latestIs (v : string) : option DistTags.t :=
  Some {| DistTags.latest := Some v |}.

Definition sampleVersions : Dict VersionData.t :=
  [ ("1.2.0", sampleVersion "1.2.0" (Some (AuthorString "Jane Doe <jane@example.com>")) None);
    ("1.10.0", sampleVersion "1.10.0" None (Some "git+https://github.com/acme/widget.git"));
    ("2.0.0", sampleVersion "2.0.0" (Some (AuthorString "<jane@example.com>")) None);
    ("1.2.10", sampleVersion "1.2.10" (Some (AuthorString "  <jane@example.com>")) None) ].

Definition sampleDocument : NpmRegistryResponse.t :=
  sampleDocumentOf (latestIs "2.0.0") sampleVersions.

(** A document without dist-tags. *)
Definition untaggedDocument : NpmRegistryResponse.t :=
  sampleDocumentOf None sampleVersions.

(** A document whose latest tag is the empty string. *)
Definition emptyTagDocument : NpmRegistryResponse.t :=
  sampleDocumentOf (latestIs EmptyString) sampleVersions.

(** A document one key of which is the empty string, and one record of
    which is stored under another version than its own. *)
Definition oddDocument : NpmRegistryResponse.t :=
  sampleDocumentOf (latestIs "1.0.0")
    [ ("1.0.0", sampleVersion "1.0.0" None None);
      (EmptyString, sampleVersion EmptyString None None);
      ("3.0.0", sampleVersion "2.0.0" None None) ].

(** A document two keys of which differ in a segment above 2^53 only. *)
Definition hugeDocument : NpmRegistryResponse.t :=
  sampleDocumentOf (latestIs "1.9007199254740993")
    [ ("1.9007199254740992", sampleVersion "1.9007199254740992" None None);
      ("1.9007199254740993", sampleVersion "1.9007199254740993" None None) ].

Definition answer {B : Type} (status : Z) (statusText : string) (body : Outcome B)
  : Outcome (Response.t B) :=
  Returned {| Response.status := status; Response.statusText := statusText;
              Response.json := body |}.

(** A host whose registry serves [data] and whose downloads endpoint
    answers 404. *)
Definition hostOf (data : NpmRegistryResponse.t) : Host :=
  {| fetchRegistry := fun _ => answer 200 "OK" (Returned data);
     fetchDownloads := fun _ => answer 404 "Not Found" (Thrown (Rejected "Unexpected token"));
     toLocaleDateString := fun raw => raw |}.

(** A host whose registry answers with a failure status. *)
Definition failingHost (status : Z) (statusText : string) : Host :=
  {| fetchRegistry := fun _ => answer status statusText (Thrown (Rejected "Unexpected token"));
     fetchDownloads := fun _ => Thrown (Rejected "Failed to fetch");
     toLocaleDateString := fun raw => raw |}.

(* ================================================================== *)
(** ** More sample documents *)
(* ================================================================== *)

(** A document with publication times, and with a homepage and a
    repository at its root. *)
Definition datedDocument : NpmRegistryResponse.t :=
  {| NpmRegistryResponse.name := "widget";
     NpmRegistryResponse.dist_tags := latestIs "1.1.0";
     NpmRegistryResponse.versions :=
       [ ("1.0.0", sampleVersion "1.0.0"
                     (Some (AuthorRecord {| AuthorObject.name := "Jane Doe";
                                            AuthorObject.email := None;
                                            AuthorObject.url := None |}))
                     (Some "git+https://github.com/acme/widget.git"));
         ("1.1.0", sampleVersion "1.1.0" (Some (AuthorString EmptyString)) None) ];
     NpmRegistryResponse.time :=
       [ ("1.0.0", "2020-01-02T03:04:05.000Z"); ("1.1.0", EmptyString) ];
     NpmRegistryResponse.maintainers := [];
     NpmRegistryResponse.homepage := Some "https://widget.example";
     NpmRegistryResponse.repository :=
       Some {| Repository.type := "git";
               Repository.url := "https://github.com/root/widget" |} |}.

(** A host whose registry rejects the request. *)
Definition offlineHost : Host :=
  {| fetchRegistry := fun _ => Thrown (Rejected "Failed to fetch");
     fetchDownloads := fun _ => Thrown (Rejected "Failed to fetch");
     toLocaleDateString := fun raw => raw |}.

(* ================================================================== *)
(** ** Security advisories ([src/services/npmService.ts]) *)
(* ================================================================== *)

(** [await fetchSecurityAdvisories(packageName, version)]: once the
    simulated delay has passed, the promise resolves to the empty array,
    whatever the arguments (the caller passes the name and the version
    of the fetched data, which may be [undefined]). *)
Definition fetchSecurityAdvisories (packageName version : option string)
  : Outcome (list string) :=
  Returned [].

(* ================================================================== *)
(** ** The application ([App.tsx], in [src/unnamed/part_002]) *)
(* ================================================================== *)

Module App.

(** The state variables of the component.  [selectedVersion] receives
    [fetchedPackageData.version], which is [undefined] when the data
    were read from an inherited member. *)
Record State : Type := {
  packageName : string;
  selectedVersion : option string;
  availableVersions : list string;
  packageData : option NpmPackageData.t;
  securityAdvisories : list string;
  loading : bool;
  error : option string;
  commandPaletteOpen : bool
}.

(** The values given to [useState]. *)
Definition initial : State :=
  {| packageName := EmptyString;
     selectedVersion := Some EmptyString;
     availableVersions := [];
     packageData := None;
     securityAdvisories := [];
     loading := false;
     error := None;
     commandPaletteOpen := false |}.

Definition setPackageName (v : string) (s : State) : State :=
  {| packageName := v;
     selectedVersion := selectedVersion s;
     availableVersions := availableVersions s;
     packageData := packageData s;
     securityAdvisories := securityAdvisories s;
     loading := loading s;
     error := error s;
     commandPaletteOpen := commandPaletteOpen s |}.

Definition setSelectedVersion (v : option string) (s : State) : State :=
  {| packageName := packageName s;
     selectedVersion := v;
     availableVersions := availableVersions s;
     packageData := packageData s;
     securityAdvisories := securityAdvisories s;
     loading := loading s;
     error := error s;
     commandPaletteOpen := commandPaletteOpen s |}.

Definition setAvailableVersions (v : list string) (s : State) : State :=
  {| packageName := packageName s;
     selectedVersion := selectedVersion s;
     availableVersions := v;
     packageData := packageData s;
     securityAdvisories := securityAdvisories s;
     loading := loading s;
     error := error s;
     commandPaletteOpen := commandPaletteOpen s |}.

Definition setPackageData (v : option NpmPackageData.t) (s : State) : State :=
  {| packageName := packageName s;
     selectedVersion := selectedVersion s;
     availableVersions := availableVersions s;
     packageData := v;
     securityAdvisories := securityAdvisories s;
     loading := loading s;
     error := error s;
     commandPaletteOpen := commandPaletteOpen s |}.

Definition setSecurityAdvisories (v : list string) (s : State) : State :=
  {| packageName := packageName s;
     selectedVersion := selectedVersion s;
     availableVersions := availableVersions s;
     packageData := packageData s;
     securityAdvisories := v;
     loading := loading s;
     error := error s;
     commandPaletteOpen := commandPaletteOpen s |}.

Definition setLoading (v : bool) (s : State) : State :=
  {| packageName := packageName s;
     selectedVersion := selectedVersion s;
     availableVersions := availableVersions s;
     packageData := packageData s;
     securityAdvisories := securityAdvisories s;
     loading := v;
     error := error s;
     commandPaletteOpen := commandPaletteOpen s |}.

Definition setError (v : option string) (s : State) : State :=
  {| packageName := packageName s;
     selectedVersion := selectedVersion s;
     availableVersions := availableVersions s;
     packageData := packageData s;
     securityAdvisories := securityAdvisories s;
     loading := loading s;
     error := v;
     commandPaletteOpen := commandPaletteOpen s |}.

Definition setCommandPaletteOpen (v : bool) (s : State) : State :=
  {| packageName := packageName s;
     selectedVersion := selectedVersion s;
     availableVersions := availableVersions s;
     packageData := packageData s;
     securityAdvisories := securityAdvisories s;
     loading := loading s;
     error := error s;
     commandPaletteOpen := v |}.

(** Each handler is given as the state it leaves once the promise it
    returns has settled, from the state [s] of the render that created
    it and with no other event in between. *)

Definition clearResults (s : State) : State :=
  let s := setPackageName EmptyString s in
  let s := setSelectedVersion (Some EmptyString) s in
  let s := setAvailableVersions [] s in
  let s := setPackageData None s in
  let s := setSecurityAdvisories [] s in
  setError None s.

(** The [try] block of [handleSearch]: the state it reaches, and the
    error it throws if any. *)
Definition trySearch (h : Host) (currentPackageName : string)
  (versionToFetch pkgNameOverride : option string) (s : State)
  : State * option Failure :=
  match fetchPackageData h currentPackageName versionToFetch with
  | Thrown err => (s, Some err)
  | Returned r =>
      let fetchedPackageData := PackageDetailsResponse.packageData r in
      let allVersions := PackageDetailsResponse.allVersions r in
      let s := setPackageData (Some fetchedPackageData) s in
      let s := setAvailableVersions allVersions s in
      let s := setSelectedVersion (NpmPackageData.version fetchedPackageData) s in
      let s := if negb (truthy pkgNameOverride)
               then setPackageName currentPackageName s else s in
      match fetchSecurityAdvisories (NpmPackageData.name fetchedPackageData)
                                    (NpmPackageData.version fetchedPackageData) with
      | Thrown err => (s, Some err)
      | Returned advisories => (setSecurityAdvisories advisories s, None)
      end
  end.

(** The [catch] block of [handleSearch]. *)
Definition catchSearch (err : Failure) (s : State) : State :=
  let s := setError (Some (orString (Some (message err))
                                    "An unexpected error occurred.")) s in
  let s := setAvailableVersions [] s in
  let s := setSelectedVersion (Some EmptyString) s in
  let s := setPackageData None s in
  setSecurityAdvisories [] s.

(** [handleSearch(e, versionToFetch, pkgNameOverride)] *)
Definition handleSearch (h : Host) (versionToFetch pkgNameOverride : option string)
  (s : State) : State :=
  let currentPackageName := orString pkgNameOverride (trim (packageName s)) in
  if currentPackageName =? "" then
    let s := setError (Some "Please enter a package name.") s in
    let s := setPackageData None s in
    let s := setSecurityAdvisories [] s in
    let s := setAvailableVersions [] s in
    setSelectedVersion (Some EmptyString) s
  else
    let s := setLoading true s in
    let s := setError None s in
    let s := setPackageData None s in
    let s := setSecurityAdvisories [] s in
    let s := match trySearch h currentPackageName versionToFetch pkgNameOverride s with
             | (s, None) => s
             | (s, Some err) => catchSearch err s
             end in
    setLoading false s.

(** [handleVersionChange(e)], [newVersion] being [e.target.value]. *)
Definition handleVersionChange (h : Host) (newVersion : string) (s : State) : State :=
  let s := setSelectedVersion (Some newVersion) s in
  handleSearch h (Some newVersion) None s.

(** [searchPackageCommand()], [pkg] being what [prompt] returns: the
    text entered, or [null] when the dialog is cancelled. *)
Definition searchPackageCommand (h : Host) (pkg : option string) (s : State) : State :=
  if truthy pkg then
    match pkg with
    | Some text => handleSearch h None (Some (trim text)) s
    | None => s
    end
  else s.

(** The [onChange] of the input of the package name. *)
Definition onChange (value : string) (s : State) : State :=
  let s := setPackageName value s in
  if value =? "" then clearResults s else s.

(** [handleGlobalKeyDown(e)] *)
Definition handleGlobalKeyDown (ctrlKey metaKey : bool) (key : string) (s : State)
  : State :=
  if (ctrlKey || metaKey) && (key =? "k") then setCommandPaletteOpen true s else s.

(** The [onClose] given to the command palette. *)
Definition onClose (s : State) : State := setCommandPaletteOpen false s.

(** What the user can do.  A command of the palette is run by the
    palette, which closes itself after calling the action. *)
Inductive Event : Type :=
| Submitted
| Typed (value : string)
| VersionChosen (newVersion : string)
| KeyPressed (ctrlKey metaKey : bool) (key : string)
| SearchCommand (pkg : option string)
| ClearCommand
| HelpCommand
| PaletteClosed.

Definition step (h : Host) (e : Event) (s : State) : State :=
  match e with
  | Submitted => handleSearch h None None s
  | Typed value => onChange value s
  | VersionChosen newVersion => handleVersionChange h newVersion s
  | KeyPressed ctrlKey metaKey key => handleGlobalKeyDown ctrlKey metaKey key s
  | SearchCommand pkg => onClose (searchPackageCommand h pkg s)
  | ClearCommand => onClose (clearResults s)
  | HelpCommand => onClose s
  | PaletteClosed => onClose s
  end.

(** A session: events handled one after the other, each with the
    answers the network gives at that time. *)
Definition run (events : list (Host * Event)) (s : State) : State :=
  fold_left (fun s he => step (fst he) (snd he) s) events s.

(** What the component renders below the form. *)
Definition showsSpinner (s : State) : bool := loading s.

End App.

(** What holds of the state after any handler of the application. *)
Definition settled (s : App.State) : Prop :=
  App.loading s = false /\
  App.securityAdvisories s = [] /\
  App.error s <> Some EmptyString /\
  (App.error s = None \/ App.packageData s = None) /\
  (App.packageData s = None ->
   App.availableVersions s = [] /\ App.selectedVersion s = Some EmptyString).

(* ================================================================== *)
(** ** The command palette ([CommandPalette.tsx], in [src/unnamed/part_000]) *)
(* ================================================================== *)

Module CommandPalette.

(** [c.toLowerCase()] for one code unit below 256: the capital letters
    are A to Z and the accented capitals from 192 to 222, the
    multiplication sign (215) apart. *)
Definition toLowerCaseUnit (c : ascii) : ascii :=
  let n := nat_of_ascii c in
  if ((65 <=? n)%nat && (n <=? 90)%nat)
     || ((192 <=? n)%nat && (n <=? 222)%nat && negb (n =? 215)%nat)
  then ascii_of_nat (n + 32) else c.

(** [s.toLowerCase()] *)
Fixpoint toLowerCase (s : string) : string :=
  match s with
  | EmptyString => EmptyString
  | String c s' => String (toLowerCaseUnit c) (toLowerCase s')
  end.

(** [s.includes(t)] *)
Fixpoint includes (s t : string) : bool :=
  match stripPrefix t s with
  | Some _ => true
  | None =>
      match s with
      | EmptyString => false
      | String _ s' => includes s' t
      end
  end.

(** A command; [A] is what its action does, and the icon, which the
    logic never reads, is left out. *)
Record Command (A : Type) : Type := {
  id : string;
  name : string;
  action : A;
  keywords : option (list string)
}.
Arguments id {A} _.
Arguments name {A} _.
Arguments action {A} _.
Arguments keywords {A} _.

(** The predicate given to [commands.filter]. *)
Definition matches {A : Type} (searchTerm : string) (command : Command A) : bool :=
  includes (toLowerCase (name command)) (toLowerCase searchTerm)
  || match keywords command with
     | Some ks =>
         existsb (fun keyword => includes (toLowerCase keyword) (toLowerCase searchTerm)) ks
     | None => false
     end.

Definition filteredCommands {A : Type} (commands : list (Command A)) (searchTerm : string)
  : list (Command A) :=
  filter (matches searchTerm) commands.

(** [filteredCommands[selectedIndex]] for an integer index. *)
Definition at_ {A : Type} (l : list A) (i : Z) : option A :=
  if (i <? 0)%Z then None else nth_error l (Z.to_nat i).

(** The updaters given to [setSelectedIndex] by the arrow keys, [len]
    being [filteredCommands.length]. *)
Definition arrowUp (len : Z) (prev : Z) : Z :=
  if (0 <? prev)%Z then (prev - 1)%Z else (len - 1)%Z.

Definition arrowDown (len : Z) (prev : Z) : Z :=
  if (prev <? len - 1)%Z then (prev + 1)%Z else 0%Z.

(** What [handleKeyDown] asks for, in order. *)
Inductive Request (A : Type) : Type :=
| StopPropagation
| PreventDefault
| OnClose
| SetSelectedIndex (update : Z -> Z)
| Action (a : A).
Arguments StopPropagation {A}.
Arguments PreventDefault {A}.
Arguments OnClose {A}.
Arguments SetSelectedIndex {A} update.
Arguments Action {A} a.

(** [handleKeyDown(e)], [key] being [e.key], for the filtered commands
    and the selected index the callback was created with. *)
Definition handleKeyDown {A : Type} (filteredCommands : list (Command A))
  (selectedIndex : Z) (key : string) : list (Request A) :=
  let len := Z.of_nat (length filteredCommands) in
  if key =? "Escape" then [StopPropagation; OnClose]
  else if key =? "ArrowUp" then [PreventDefault; SetSelectedIndex (arrowUp len)]
  else if key =? "ArrowDown" then [PreventDefault; SetSelectedIndex (arrowDown len)]
  else if key =? "Enter" then
    PreventDefault ::
    match at_ filteredCommands selectedIndex with
    | Some command => [Action (action command); OnClose]
    | None => []
    end
  else [].

(** The selected index after the requests of one key, and the actions
    they run. *)
Definition selectedAfter {A : Type} (requests : list (Request A)) (selectedIndex : Z) : Z :=
  fold_left (fun i r => match r with SetSelectedIndex update => update i | _ => i end)
            requests selectedIndex.

Fixpoint actionsOf {A : Type} (requests : list (Request A)) : list A :=
  match requests with
  | [] => []
  | Action a :: rest => a :: actionsOf rest
  | _ :: rest => actionsOf rest
  end.

(** The commands the application gives to the palette, each with the
    name of the handler it runs. *)
Inductive AppAction : Type := RunSearchPackage | RunClearResults | RunHelp.

Definition appCommands : list (Command AppAction) :=
  [ {| id := "search-package"; name := "Search Package"; action := RunSearchPackage;
       keywords := Some ["find"; "lookup"; "npm"; "package"] |};
    {| id := "clear-results"; name := "Clear Results"; action := RunClearResults;
       keywords := Some ["reset"; "empty"] |};
    {| id := "help"; name := "Help"; action := RunHelp;
       keywords := Some ["info"; "guide"] |} ].

End CommandPalette.

(* ================================================================== *)
(** ** The package card ([PackageCard.tsx], in [src/unnamed/part_001]) *)
(* ================================================================== *)

Module PackageCard.

(** The class [\w]: letters, digits and the underscore. *)
Definition isWord (c : ascii) : bool :=
  let n := nat_of_ascii c in
  ((48 <=? n)%nat && (n <=? 57)%nat) || ((65 <=? n)%nat && (n <=? 90)%nat)
  || ((97 <=? n)%nat && (n <=? 122)%nat) || (n =? 95)%nat.

(** Every character of [s] is a word character. *)
Fixpoint wordOnly (s : string) : bool :=
  match s with
  | EmptyString => true
  | String c s' => isWord c && wordOnly s'
  end.

(** [s.replace(/(^\w+:|^)\/\//, '')].  Both alternatives are anchored
    at the start.  The first needs the longest run of word characters,
    not empty, followed by a colon and two slashes (a shorter run is
    followed by a word character, not by the colon); the second needs
    two slashes at the start. *)
Definition removeScheme (s : string) : string :=
  match takeWhile isWord s, stripPrefix "://" (dropWhile isWord s) with
  | String _ _, Some rest => rest
  | _, _ =>
      match stripPrefix "//" s with
      | Some rest => rest
      | None => s
      end
  end.

(** The text of the homepage link:
    [homepage.replace(/(^\w+:|^)\/\//, '').split('/')[0]]. *)
Definition homepageLabel (homepage : string) : string :=
  hd EmptyString (split "/" (removeScheme homepage)).

(** The target of the repository link. *)
Definition repositoryHref (repository : string) : string :=
  removeDotGit (removeGitPlus repository).

(** The text of the repository link: [....split('/').pop()]. *)
Definition repositoryLabel (repository : string) : string :=
  last (split "/" (repositoryHref repository)) EmptyString.

(** [!dependencies || Object.keys(dependencies).length === 0] *)
Definition isEmpty (dependencies : option (Dict string)) : bool :=
  match dependencies with
  | None => true
  | Some d => (length (keys d) =? 0)%nat
  end.

(** The number a [DependencyList] shows after its title: 0, or the
    length of [Object.entries(dependencies)]. *)
Definition listedCount (dependencies : option (Dict string)) : nat :=
  if isEmpty dependencies then 0%nat
  else match dependencies with
       | Some d => length d
       | None => 0%nat
       end.

(** Whether the card says that no dependencies are listed. *)
Definition listsNoDependencies (packageData : NpmPackageData.t) : bool :=
  isEmpty (NpmPackageData.dependencies packageData)
  && isEmpty (NpmPackageData.devDependencies packageData).

(** The security status: the advisories when there are some, else the
    text that no known vulnerabilities were found. *)
Inductive SecurityStatus : Type :=
| Advisories (items : list string)
| NoKnownVulnerabilities.

Definition securityStatus (securityAdvisories : list string) : SecurityStatus :=
  if (0 <? length securityAdvisories)%nat then Advisories securityAdvisories
  else NoKnownVulnerabilities.

End PackageCard.

(* ================================================================== *)
(** ** The dependency graph ([src/components/DependencyGraph.tsx]) *)
(* ================================================================== *)

Module DependencyGraph.

Record VisNode : Type := { id : string; label : string; group : string }.

Record VisEdge : Type := { from : string; to : string; arrows : string; dashes : bool }.

(** Of [vis.DataSet], which the component only declares, the effect
    uses [get] and [add]: the set keeps its items by id in the order
    they were added; [get(id)] is the item with that id, or [null];
    [add(item)] throws when the id of the item is taken.  An edge is
    added without an id and receives a fresh one, so that adding an
    edge cannot fail. *)
Definition get (nodes : list VisNode) (i : string) : option VisNode :=
  find (fun n => id n =? i) nodes.

Definition add (nodes : list VisNode) (n : VisNode) : option (list VisNode) :=
  match get nodes (id n) with
  | Some _ => None
  | None => Some (nodes ++ [n])%list
  end.

Record Graph : Type := { nodes : list VisNode; edges : list VisEdge }.

Definition newline : string := String (ascii_of_nat 10) EmptyString.

(** The text of a value in a template literal. *)
Definition text (v : option string) : string :=
  match v with
  | Some s => s
  | None => "undefined"
  end.

(** The body of the [forEach] of [addDependencies], for the package
    [name]; [None] when an [add] throws. *)
Definition addDependency (name type : string) (g : Graph) (entry : string * string)
  : option Graph :=
  let depName := fst entry in
  let depVersion := snd entry in
  let added :=
    match get (nodes g) depName with
    | None => add (nodes g) {| id := depName;
                               label := depName ++ newline ++ depVersion;
                               group := type |}
    | Some _ => Some (nodes g)
    end in
  match added with
  | None => None
  | Some nodes' =>
      Some {| nodes := nodes';
              edges := (edges g ++ [ {| from := name; to := depName; arrows := "to";
                                        dashes := type =? "devDep" |} ])%list |}
  end.

(** [addDependencies(deps, type)] *)
Definition addDependencies (name : string) (deps : option (Dict string)) (type : string)
  (g : Graph) : option Graph :=
  match deps with
  | None => Some g
  | Some d =>
      fold_left (fun acc entry =>
                   match acc with
                   | Some g' => addDependency name type g' entry
                   | None => None
                   end) d (Some g)
  end.

(** The data given to [vis.Network] for a package whose data hold the
    name [name]. *)
Definition graphOf (name : string) (version : option string)
  (dependencies devDependencies : option (Dict string)) : option Graph :=
  match add [] {| id := name; label := name ++ newline ++ "v" ++ text version;
                  group := "main" |} with
  | None => None
  | Some nodes0 =>
      match addDependencies name dependencies "dep" {| nodes := nodes0; edges := [] |} with
      | None => None
      | Some g => addDependencies name devDependencies "devDep" g
      end
  end.

(** The edge drawn for an entry of a dependency list. *)
Definition edgeOf (name type : string) (entry : string * string) : VisEdge :=
  {| from := name; to := fst entry; arrows := "to"; dashes := type =? "devDep" |}.

Definition entries (deps : option (Dict string)) : Dict string :=
  match deps with
  | Some d => d
  | None => []
  end.

End DependencyGraph.

(** The main node of the graph of a package. *)
Definition mainNode (name : string) (version : option string) : DependencyGraph.VisNode :=
  {| DependencyGraph.id := name;
     DependencyGraph.label :=
       name ++ DependencyGraph.newline ++ "v" ++ DependencyGraph.text version;
     DependencyGraph.group := "main" |}.

(* ================================================================== *)
(** ** Rounding to a float *)
(* ================================================================== *)

Lemma pow2_pos (k : Z) : (0 < 2 ^ Z.max 0 k)%Z.
Proof. apply Z.pow_pos_nonneg; lia. Qed.

Lemma leShifted_mono (d n k k' : Z) :
  (0 < d)%Z -> (0 < n)%Z -> (k' <= k)%Z ->
  leShifted d k n = true -> leShifted d k' n = true.
Proof.
  unfold leShifted. intros Hd Hn Hk H. apply Z.leb_le in H. apply Z.leb_le.
  assert (E : forall a b : Z, (a <= b)%Z ->
            (2 ^ Z.max 0 b * 2 ^ Z.max 0 (- a)
             = 2 ^ Z.max 0 a * 2 ^ Z.max 0 (- b) * 2 ^ (b - a))%Z).
  { intros a b Hab. rewrite <- !Z.pow_add_r by lia. f_equal. lia. }
  specialize (E k' k Hk).
  pose proof (pow2_pos k) as P1. pose proof (pow2_pos (- k)) as P2.
  pose proof (pow2_pos k') as P3. pose proof (pow2_pos (- k')) as P4.
  assert (P5 : (0 < 2 ^ (k - k'))%Z) by (apply Z.pow_pos_nonneg; lia).
  (* d * 2^[k'] * 2^[-k] * 2^(k-k') = d * 2^[k] * 2^[-k'] <= n * 2^[-k] * 2^[-k'] *)
  apply (Z.mul_le_mono_pos_r _ _ (2 ^ Z.max 0 (- k))); [exact P2 |].
  apply Z.le_trans with (d * 2 ^ Z.max 0 k * 2 ^ Z.max 0 (- k'))%Z.
  - replace (d * 2 ^ Z.max 0 k * 2 ^ Z.max 0 (- k'))%Z
      with (d * (2 ^ Z.max 0 k * 2 ^ Z.max 0 (- k')))%Z by ring.
    rewrite E. nia.
  - nia.
Qed.

Lemma floorLog2_below (n d : Z) :
  (0 < n)%Z -> (0 < d)%Z -> leShifted d (floorLog2 n d) n = true.
Proof.
  intros Hn Hd. unfold floorLog2.
  destruct (leShifted d (Z.log2 n - Z.log2 d) n) eqn:E; [exact E |].
  unfold leShifted. apply Z.leb_le.
  pose proof (Z.log2_spec n Hn) as [Ha _].
  pose proof (Z.log2_spec d Hd) as [_ Hb].
  pose proof (Z.log2_nonneg n) as Na. pose proof (Z.log2_nonneg d) as Nb.
  set (a := Z.log2 n) in *. set (b := Z.log2 d) in *.
  assert (E2 : (2 ^ Z.succ b * 2 ^ Z.max 0 (a - b - 1)
                = 2 ^ a * 2 ^ Z.max 0 (- (a - b - 1)))%Z).
  { rewrite <- !Z.pow_add_r by lia. f_equal. lia. }
  pose proof (pow2_pos (a - b - 1)) as P1.
  pose proof (pow2_pos (- (a - b - 1))) as P2.
  nia.
Qed.

Lemma floorLog2_above (n d : Z) :
  (0 < n)%Z -> (0 < d)%Z -> leShifted d (floorLog2 n d + 1) n = false.
Proof.
  intros Hn Hd. unfold floorLog2.
  destruct (leShifted d (Z.log2 n - Z.log2 d) n) eqn:E.
  - unfold leShifted. apply Z.leb_gt.
    pose proof (Z.log2_spec n Hn) as [_ Ha].
    pose proof (Z.log2_spec d Hd) as [Hb _].
    pose proof (Z.log2_nonneg n) as Na. pose proof (Z.log2_nonneg d) as Nb.
    set (a := Z.log2 n) in *. set (b := Z.log2 d) in *.
    assert (E2 : (2 ^ b * 2 ^ Z.max 0 (a - b + 1)
                  = 2 ^ Z.succ a * 2 ^ Z.max 0 (- (a - b + 1)))%Z).
    { rewrite <- !Z.pow_add_r by lia. f_equal. lia. }
    pose proof (pow2_pos (a - b + 1)) as P1.
    pose proof (pow2_pos (- (a - b + 1))) as P2.
    nia.
  - replace (Z.log2 n - Z.log2 d - 1 + 1)%Z with (Z.log2 n - Z.log2 d)%Z by lia.
    exact E.
Qed.

Lemma roundHalfEven_floor (n d : Z) :
  (0 < d)%Z -> (n / d <= roundHalfEven n d)%Z.
Proof.
  intro Hd. unfold roundHalfEven.
  destruct (2 * (n mod d) ?= d)%Z; [destruct (Z.even (n / d)) | |]; lia.
Qed.

Lemma timesPow2_value (m e : Z) :
  (timesPow2 m e == (m * 2 ^ Z.max 0 e) # Z.to_pos (2 ^ Z.max 0 (- e)))%Q.
Proof. unfold timesPow2. apply Qred_correct. Qed.

Lemma timesPow2_positive (m e : Z) : (0 < m)%Z -> (0 < timesPow2 m e)%Q.
Proof.
  intro Hm. rewrite timesPow2_value. unfold Qlt. simpl.
  pose proof (pow2_pos e). nia.
Qed.

Lemma timesPow2_grid (m e : Z) :
  (- 1074 <= e)%Z -> exists k : Z, (timesPow2 m e == k # (2 ^ 1074))%Q.
Proof.
  intro He. exists (m * 2 ^ (e + 1074))%Z. rewrite timesPow2_value.
  unfold Qeq. cbn [Qnum Qden].
  rewrite Z2Pos.id by apply pow2_pos.
  change (Z.pos (2 ^ 1074)) with (2 ^ 1074)%Z.
  rewrite <- !Z.mul_assoc, <- !Z.pow_add_r by lia. do 2 f_equal. lia.
Qed.

(** Rounding a positive value that is not below the least float. *)
Lemma roundPositive_sign (n d : Z) :
  (0 < n)%Z -> (0 < d)%Z -> (d <= n * 2 ^ 1074)%Z ->
  isPositive (roundPositive n d) = true /\ isNegative (roundPositive n d) = false.
Proof.
  intros Hn Hd Hgrid. unfold roundPositive.
  set (e := Z.max (-1074) (floorLog2 n d - 52)).
  set (m := roundHalfEven (n * 2 ^ Z.max 0 (- e)) (d * 2 ^ Z.max 0 e)).
  assert (Hle : leShifted d e n = true).
  { destruct (Z_le_dec (floorLog2 n d - 52) (-1074)) as [H | H].
    - assert (E : e = (-1074)%Z) by (unfold e; lia). rewrite E.
      unfold leShifted. apply Z.leb_le.
      change (Z.max 0 (-1074)) with 0%Z. change (Z.max 0 (- -1074)) with 1074%Z.
      rewrite Z.pow_0_r. lia.
    - apply (leShifted_mono d n (floorLog2 n d) e Hd Hn); [unfold e; lia |].
      apply floorLog2_below; assumption. }
  assert (Hm : (0 < m)%Z).
  { unfold leShifted in Hle. apply Z.leb_le in Hle.
    pose proof (pow2_pos e) as P.
    assert (Hq : (1 <= (n * 2 ^ Z.max 0 (- e)) / (d * 2 ^ Z.max 0 e))%Z)
      by (apply Z.div_le_lower_bound; nia).
    pose proof (roundHalfEven_floor (n * 2 ^ Z.max 0 (- e)) (d * 2 ^ Z.max 0 e)) as Hf.
    fold m in Hf. assert (0 < d * 2 ^ Z.max 0 e)%Z by nia. specialize (Hf H). lia. }
  pose proof (timesPow2_positive m e Hm) as Hv.
  destruct (Qle_bool (inject_Z (2 ^ 1024)) (timesPow2 m e)); simpl.
  - split; reflexivity.
  - split.
    + apply negb_true_iff, not_true_iff_false. rewrite Qle_bool_iff. lra.
    + apply negb_false_iff, Qle_bool_iff. lra.
Qed.

Lemma roundPositive_isFloat (n d : Z) : isFloat (roundPositive n d).
Proof.
  unfold roundPositive.
  destruct (Qle_bool _ _); simpl; [exact I |].
  apply timesPow2_grid. lia.
Qed.

Lemma negate_isFloat (x : number) : isFloat x -> isFloat (negate x).
Proof.
  destruct x as [| | q |]; simpl; try tauto.
  intros [k Hk]. exists (- k)%Z. rewrite Hk. reflexivity.
Qed.

Lemma roundToFloat_isFloat (q : Q) : isFloat (roundToFloat q).
Proof.
  unfold roundToFloat. destruct (Qnum q).
  - exists 0%Z. reflexivity.
  - apply roundPositive_isFloat.
  - apply negate_isFloat, roundPositive_isFloat.
Qed.

(** The sign of the float nearest to a multiple of 2^-1074 is the sign
    of that multiple: no difference of two floats is rounded to 0. *)
Lemma isPositive_Finite (v : Q) : isPositive (Finite v) = true <-> (0 < v)%Q.
Proof.
  simpl. rewrite negb_true_iff, <- not_true_iff_false, Qle_bool_iff. split; intro; lra.
Qed.

Lemma isNegative_Finite (v : Q) : isNegative (Finite v) = true <-> (v < 0)%Q.
Proof.
  simpl. rewrite negb_true_iff, <- not_true_iff_false, Qle_bool_iff. split; intro; lra.
Qed.

Lemma roundToFloat_sign (q : Q) (k : Z) :
  (q == k # (2 ^ 1074))%Q ->
  (isPositive (roundToFloat q) = true <-> (0 < q)%Q) /\
  (isNegative (roundToFloat q) = true <-> (q < 0)%Q).
Proof.
  intro Hk. destruct q as [n d]. unfold roundToFloat. cbn [Qnum Qden].
  unfold Qeq in Hk. cbn [Qnum Qden] in Hk.
  change (Z.pos (2 ^ 1074)) with (2 ^ 1074)%Z in Hk.
  assert (P : (0 < 2 ^ 1074)%Z) by reflexivity.
  destruct n as [| n | n].
  - unfold zero. rewrite isPositive_Finite, isNegative_Finite. split; reflexivity.
  - assert (Hgrid : (Z.pos d <= Z.pos n * 2 ^ 1074)%Z).
    { assert (0 < k)%Z by nia. nia. }
    destruct (roundPositive_sign (Z.pos n) (Z.pos d) eq_refl eq_refl Hgrid) as [H1 H2].
    rewrite H1, H2. unfold Qlt. cbn [Qnum Qden]. split; split; intro H; try reflexivity;
      try discriminate H; lia.
  - assert (Hgrid : (Z.pos d <= Z.pos n * 2 ^ 1074)%Z).
    { assert (k < 0)%Z by nia. nia. }
    destruct (roundPositive_sign (Z.pos n) (Z.pos d) eq_refl eq_refl Hgrid) as [H1 H2].
    assert (Hq : (Z.neg n # d < 0)%Q) by (unfold Qlt; cbn [Qnum Qden]; lia).
    destruct (roundPositive (Z.pos n) (Z.pos d)) as [| | v |];
      try discriminate H1; try discriminate H2.
    + apply isPositive_Finite in H1. cbn [negate].
      rewrite isPositive_Finite, isNegative_Finite. split; split; intro H; lra.
    + cbn [negate isPositive isNegative]. split; split; intro H; try reflexivity;
        try discriminate H; try exact Hq; lra.
Qed.

Lemma Qred_inject_Z (n : Z) : Qred (inject_Z n) = inject_Z n.
Proof.
  unfold Qred, inject_Z.
  pose proof (Z.ggcd_gcd n 1) as Hg. pose proof (Z.ggcd_correct_divisors n 1) as Hd.
  destruct (Z.ggcd n 1) as [g [aa bb]]. cbn [fst snd] in *.
  rewrite Z.gcd_1_r in Hg. subst g. destruct Hd as [Ha Hb].
  rewrite Z.mul_1_l in Ha, Hb. subst n bb. reflexivity.
Qed.

Lemma timesPow2_integer (n j : Z) :
  (0 <= j)%Z -> timesPow2 (n * 2 ^ j) (- j) = inject_Z n.
Proof.
  intro Hj. unfold timesPow2.
  rewrite (Z.max_l 0 (- j)), Z.opp_involutive, (Z.max_r 0 j) by lia.
  rewrite Z.pow_0_r, Z.mul_1_r.
  assert (P : (0 < 2 ^ j)%Z) by (apply Z.pow_pos_nonneg; lia).
  rewrite (Qred_complete ((n * 2 ^ j) # Z.to_pos (2 ^ j)) (inject_Z n)).
  - apply Qred_inject_Z.
  - unfold Qeq. simpl. rewrite Z2Pos.id by exact P. ring.
Qed.

(** An integer below 2^53 is a float. *)
Lemma roundToFloat_integer (n : Z) :
  (0 <= n < 2 ^ 53)%Z -> roundToFloat (inject_Z n) = Finite (inject_Z n).
Proof.
  intros [H0 H1]. destruct n as [| p | p]; [reflexivity | | lia].
  unfold roundToFloat, inject_Z. cbn [Qnum Qden]. unfold roundPositive.
  assert (Hp : (0 < Z.pos p)%Z) by lia.
  pose proof (Z.log2_spec (Z.pos p) Hp) as [Hlow _].
  pose proof (Z.log2_nonneg (Z.pos p)) as Hk0.
  assert (Hk : (Z.log2 (Z.pos p) < 53)%Z) by (apply Z.log2_lt_pow2; assumption).
  set (k := Z.log2 (Z.pos p)) in *.
  assert (Hfl : floorLog2 (Z.pos p) 1 = k).
  { unfold floorLog2. change (Z.log2 1) with 0%Z. rewrite Z.sub_0_r. fold k.
    assert (E : leShifted 1 k (Z.pos p) = true).
    { unfold leShifted. apply Z.leb_le.
      rewrite (Z.max_r 0 k), (Z.max_l 0 (- k)) by lia.
      rewrite Z.pow_0_r. lia. }
    rewrite E. reflexivity. }
  rewrite Hfl.
  assert (He : Z.max (-1074) (k - 52) = (- (52 - k))%Z) by lia.
  rewrite He, Z.opp_involutive.
  rewrite (Z.max_r 0 (52 - k)), (Z.max_l 0 (- (52 - k))) by lia.
  rewrite Z.pow_0_r.
  assert (Hm : roundHalfEven (Z.pos p * 2 ^ (52 - k)) (1 * 1) = (Z.pos p * 2 ^ (52 - k))%Z).
  { unfold roundHalfEven. change (1 * 1)%Z with 1%Z.
    rewrite Z.mod_1_r, Z.div_1_r. reflexivity. }
  rewrite Hm, timesPow2_integer by lia.
  assert (Hno : Qle_bool (inject_Z (2 ^ 1024)) (inject_Z (Z.pos p)) = false).
  { apply not_true_iff_false. rewrite Qle_bool_iff, <- Zle_Qle.
    assert ((2 ^ 53 < 2 ^ 1024)%Z) by reflexivity. lia. }
  rewrite Hno. reflexivity.
Qed.

Lemma roundToFloat_not_NaN (q : Q) : roundToFloat q <> NaN.
Proof.
  unfold roundToFloat, roundPositive.
  destruct (Qnum q); [discriminate | |];
    destruct (Qle_bool _ _); discriminate.
Qed.

Lemma zero_isFloat : isFloat zero.
Proof. exists 0%Z. reflexivity. Qed.

Lemma orZero_isFloat (x : option number) :
  (forall v, x = Some v -> isFloat v) -> isFloat (orZero x).
Proof.
  intro H. unfold orZero. destruct x as [v |]; [| apply zero_isFloat].
  destruct (truthyNumber v); [apply H; reflexivity | apply zero_isFloat].
Qed.

Lemma Number_isFloat (s : string) : isFloat (Number s).
Proof.
  assert (Hdec : forall t, isFloat (decimalLiteral t)).
  { intro t. unfold decimalLiteral. destruct (cut isExponentIndicator t) as [m e].
    destruct (mantissa m) as [[mv shift] |]; [| exact I].
    destruct e as [x |]; [| apply roundToFloat_isFloat].
    destruct (signedInteger x); [apply roundToFloat_isFloat | exact I]. }
  assert (Huns : forall t, isFloat (strUnsignedDecimalLiteral t)).
  { intro t. unfold strUnsignedDecimalLiteral. destruct (t =? "Infinity"); [exact I |].
    apply Hdec. }
  assert (Hstr : forall t, isFloat (strDecimalLiteral t)).
  { intro t. unfold strDecimalLiteral. destruct t as [| c u]; [exact I |].
    destruct (Ascii.eqb c "+"); [apply Huns |].
    destruct (Ascii.eqb c "-"); [apply negate_isFloat, Huns | apply Huns]. }
  unfold Number. destruct (trim s =? ""); [apply zero_isFloat |].
  unfold strNumericLiteral. destruct (trim s) as [| z [| c ds]]; try apply Hstr.
  destruct (if Ascii.eqb z "0" then radixOfPrefix c else None); [| apply Hstr].
  destruct (parseDigits z0 ds); [apply roundToFloat_isFloat | exact I].
Qed.

Lemma Qminus_same_den (k1 k2 : Z) (d : positive) :
  ((k1 # d) - (k2 # d) == (k1 - k2) # d)%Q.
Proof. unfold Qeq, Qminus, Qplus, Qopp. simpl. rewrite Pos2Z.inj_mul. ring. Qed.

Lemma sub_sign (b a : number) :
  isFloat b -> isFloat a ->
  (isPositive (sub b a) = true <-> numLt a b) /\
  (isNegative (sub b a) = true <-> numLt b a).
Proof.
  intros Hb Ha.
  destruct b as [| | p |], a as [| | q |];
    try (cbn [sub numLt isPositive isNegative]; split; split; intro H;
         first [discriminate H | exact I | reflexivity | contradiction]; fail).
  cbn [sub numLt]. destruct Hb as [k1 H1], Ha as [k2 H2].
  assert (Hk : (p - q == (k1 - k2) # (2 ^ 1074))%Q)
    by (rewrite H1, H2; apply Qminus_same_den).
  destruct (roundToFloat_sign _ _ Hk) as [Hp Hn]. rewrite Hp, Hn.
  split; split; intro H; lra.
Qed.

(* ================================================================== *)
(** ** Order on numbers *)
(* ================================================================== *)

Lemma strictNotEqual_false (x y : number) :
  strictNotEqual x y = false <-> numEq x y.
Proof.
  destruct x, y; simpl; try (split; [discriminate | tauto]); try tauto.
  rewrite negb_false_iff. apply Qeq_bool_iff.
Qed.

Lemma isPositive_sub (b a : number) :
  isFloat b -> isFloat a -> (isPositive (sub b a) = true <-> numLt a b).
Proof. intros Hb Ha. exact (proj1 (sub_sign b a Hb Ha)). Qed.

Lemma isNegative_sub (b a : number) :
  isFloat b -> isFloat a -> (isNegative (sub b a) = true <-> numLt b a).
Proof. intros Hb Ha. exact (proj2 (sub_sign b a Hb Ha)). Qed.

Lemma numEq_sym (x y : number) : numEq x y -> numEq y x.
Proof. destruct x, y; simpl; try tauto. intro H. lra. Qed.

Lemma numEq_trans (x y z : number) : numEq x y -> numEq y z -> numEq x z.
Proof. destruct x, y, z; simpl; try tauto. intros. lra. Qed.

Lemma numLt_trans (x y z : number) : numLt x y -> numLt y z -> numLt x z.
Proof. destruct x, y, z; simpl; try tauto. intros. lra. Qed.

Lemma numLt_eq_l (x y z : number) : numEq x y -> numLt x z -> numLt y z.
Proof. destruct x, y, z; simpl; try tauto. intros. lra. Qed.

Lemma numLt_eq_r (x y z : number) : numEq y z -> numLt x y -> numLt x z.
Proof. destruct x, y, z; simpl; try tauto. intros. lra. Qed.

Lemma numLt_not_eq (x y : number) : numLt x y -> ~ numEq x y.
Proof. destruct x, y; simpl; try tauto. intros. lra. Qed.

Lemma numLt_asym (x y : number) : numLt x y -> ~ numLt y x.
Proof. destruct x, y; simpl; try tauto. intros. lra. Qed.

Lemma orZero_not_NaN (x : option number) : orZero x <> NaN.
Proof.
  destruct x as [[| | q |]|]; simpl; try discriminate.
  destruct (Qeq_bool q 0); discriminate.
Qed.

Lemma numEq_refl (x : number) : x <> NaN -> numEq x x.
Proof. destruct x; simpl; try tauto. intros _. lra. Qed.

Lemma num_trichotomy (x y : number) :
  x <> NaN -> y <> NaN -> numLt x y \/ numEq x y \/ numLt y x.
Proof.
  destruct x, y; simpl; try tauto.
  intros _ _. destruct (Q_dec q q0) as [[H | H] | H]; auto.
Qed.

(* ================================================================== *)
(** ** The comparator *)
(* ================================================================== *)

Lemma seqHigher_not_tied (f g : nat -> number) : seqHigher f g -> ~ seqTied f g.
Proof.
  intros [i [_ Hlt]] Ht. apply (numLt_not_eq _ _ Hlt). apply numEq_sym, Ht.
Qed.

Lemma seqHigher_asym (f g : nat -> number) : seqHigher f g -> ~ seqHigher g f.
Proof.
  intros [i [Hi Hlt]] [j [Hj Hlt']].
  destruct (Nat.lt_trichotomy i j) as [Hij | [Hij | Hij]].
  - apply (numLt_not_eq _ _ Hlt). apply Hj, Hij.
  - subst j. exact (numLt_asym _ _ Hlt Hlt').
  - apply (numLt_not_eq _ _ Hlt'). apply Hi, Hij.
Qed.

Lemma seqHigher_trans (f g k : nat -> number) :
  seqHigher f g -> seqHigher g k -> seqHigher f k.
Proof.
  intros [i [Hi Hlt]] [j [Hj Hlt']].
  destruct (Nat.lt_trichotomy i j) as [Hij | [Hij | Hij]].
  - exists i. split.
    + intros m Hm. eapply numEq_trans; [apply Hi, Hm | apply Hj; lia].
    + eapply numLt_eq_l; [apply Hj, Hij | exact Hlt].
  - subst j. exists i. split.
    + intros m Hm. eapply numEq_trans; [apply Hi, Hm | apply Hj, Hm].
    + eapply numLt_trans; eassumption.
  - exists j. split.
    + intros m Hm. eapply numEq_trans; [apply Hi; lia | apply Hj, Hm].
    + eapply numLt_eq_r; [apply numEq_sym, Hi, Hij | exact Hlt'].
Qed.

Lemma seqTied_sym (f g : nat -> number) : seqTied f g -> seqTied g f.
Proof. intros H i. apply numEq_sym, H. Qed.

Lemma seqTied_trans (f g k : nat -> number) :
  seqTied f g -> seqTied g k -> seqTied f k.
Proof. intros H1 H2 i. eapply numEq_trans; [apply H1 | apply H2]. Qed.

Lemma seqHigher_tied_l (f f' g : nat -> number) :
  seqTied f f' -> seqHigher f g -> seqHigher f' g.
Proof.
  intros Ht [i [Hi Hlt]]. exists i. split.
  - intros j Hj. eapply numEq_trans; [apply numEq_sym, Ht | apply Hi, Hj].
  - eapply numLt_eq_r; [apply Ht | exact Hlt].
Qed.

Lemma seqHigher_tied_r (f g g' : nat -> number) :
  seqTied g g' -> seqHigher f g -> seqHigher f g'.
Proof.
  intros Ht [i [Hi Hlt]]. exists i. split.
  - intros j Hj. eapply numEq_trans; [apply Hi, Hj | apply Ht].
  - eapply numLt_eq_l; [apply Ht | exact Hlt].
Qed.

(** What the loop of the comparator returns, read on the two arrays. *)
Lemma compareParts_sound (aParts bParts : list number) :
  (forall j, isFloat (partOf aParts j)) ->
  (forall j, isFloat (partOf bParts j)) ->
  forall steps i,
    (forall j, j < i -> numEq (partOf aParts j) (partOf bParts j)) ->
    (forall j, i + steps <= j -> numEq (partOf aParts j) (partOf bParts j)) ->
    let c := compareParts aParts bParts i steps in
    (isPositive c = true -> seqHigher (partOf bParts) (partOf aParts)) /\
    (isNegative c = true -> seqHigher (partOf aParts) (partOf bParts)) /\
    (isPositive c = false -> isNegative c = false ->
     seqTied (partOf aParts) (partOf bParts)).
Proof.
  intros HfA HfB.
  pose proof (fun i => isPositive_sub _ _ (HfB i) (HfA i)) as Hpos_sub.
  pose proof (fun i => isNegative_sub _ _ (HfB i) (HfA i)) as Hneg_sub.
  induction steps as [| k IH]; intros i Hbelow Habove; cbn [compareParts].
  - repeat split; try discriminate.
    intros _ _ j. destruct (Nat.lt_ge_cases j i) as [H | H].
    + apply Hbelow, H.
    + apply Habove. lia.
  - fold (partOf aParts i). fold (partOf bParts i).
    destruct (strictNotEqual (partOf aParts i) (partOf bParts i)) eqn:Hne.
    + repeat split.
      * intro Hpos. apply Hpos_sub in Hpos. exists i. split; [| exact Hpos].
        intros j Hj. apply numEq_sym, Hbelow, Hj.
      * intro Hneg. apply Hneg_sub in Hneg. exists i. split; [| exact Hneg].
        intros j Hj. apply Hbelow, Hj.
      * intros Hpos Hneg. exfalso.
        destruct (num_trichotomy (partOf aParts i) (partOf bParts i))
          as [H | [H | H]]; try apply orZero_not_NaN.
        -- apply Hpos_sub in H. congruence.
        -- apply strictNotEqual_false in H. congruence.
        -- apply Hneg_sub in H. congruence.
    + apply strictNotEqual_false in Hne. apply IH.
      * intros j Hj. destruct (Nat.eq_dec j i) as [-> | Hji]; [exact Hne |].
        apply Hbelow. lia.
      * intros j Hj. apply Habove. lia.
Qed.

Lemma partOf_past_end (parts : list number) (j : nat) :
  length parts <= j -> partOf parts j = zero.
Proof.
  intro H. unfold partOf. apply nth_error_None in H. rewrite H. reflexivity.
Qed.

Lemma partOf_partAt (v : string) (i : nat) :
  numEq (partOf (map Number (split "." v)) i) (partAt v i).
Proof.
  unfold partOf, partAt, segmentValue. rewrite nth_error_map.
  destruct (nth_error (split "." v) i) as [seg |]; simpl; [| reflexivity].
  destruct (Number seg) as [| | q |]; simpl; try reflexivity.
  destruct (Qeq_bool q 0) eqn:H; simpl; [| reflexivity].
  apply Qeq_bool_iff in H. symmetry. exact H.
Qed.

Lemma partsTied (v : string) :
  seqTied (partOf (map Number (split "." v))) (partAt v).
Proof. intro i. apply partOf_partAt. Qed.

Lemma partOf_Number_isFloat (segments : list string) (j : nat) :
  isFloat (partOf (map Number segments) j).
Proof.
  unfold partOf. apply orZero_isFloat. intros v Hv.
  rewrite nth_error_map in Hv.
  destruct (nth_error segments j) as [seg |]; [| discriminate Hv].
  injection Hv as <-. apply Number_isFloat.
Qed.

(** The sign of the comparator, in the words of the specification. *)
Lemma compareVersions_sound (a b : string) :
  let c := compareVersions a b in
  (isPositive c = true -> higher b a) /\
  (isNegative c = true -> higher a b) /\
  (isPositive c = false -> isNegative c = false -> tied a b).
Proof.
  unfold compareVersions, higher, tied.
  set (aParts := map Number (split "." a)).
  set (bParts := map Number (split "." b)).
  destruct (compareParts_sound aParts bParts
              (partOf_Number_isFloat (split "." a))
              (partOf_Number_isFloat (split "." b))
              (Nat.max (length aParts) (length bParts)) 0) as [Hp [Hn Ht]].
  - intros j Hj. lia.
  - intros j Hj. rewrite !partOf_past_end by lia. reflexivity.
  - repeat split.
    + intro H. apply Hp in H.
      apply (seqHigher_tied_l _ _ _ (partsTied b)) in H.
      apply (seqHigher_tied_r _ _ _ (partsTied a)) in H. exact H.
    + intro H. apply Hn in H.
      apply (seqHigher_tied_l _ _ _ (partsTied a)) in H.
      apply (seqHigher_tied_r _ _ _ (partsTied b)) in H. exact H.
    + intros H1 H2. specialize (Ht H1 H2).
      eapply seqTied_trans; [apply seqTied_sym, partsTied |].
      eapply seqTied_trans; [exact Ht | apply partsTied].
Qed.

Lemma isPositive_iff_higher (a b : string) :
  isPositive (compareVersions a b) = true <-> higher b a.
Proof.
  destruct (compareVersions_sound a b) as [Hp [Hn Ht]]. split; [exact Hp |].
  intro H. destruct (isPositive (compareVersions a b)) eqn:E; [reflexivity |].
  exfalso. destruct (isNegative (compareVersions a b)) eqn:E'.
  - exact (seqHigher_asym _ _ H (Hn eq_refl)).
  - apply (seqHigher_not_tied _ _ H). apply seqTied_sym. apply Ht; reflexivity.
Qed.

Lemma isNegative_iff_higher (a b : string) :
  isNegative (compareVersions a b) = true <-> higher a b.
Proof.
  destruct (compareVersions_sound a b) as [Hp [Hn Ht]]. split; [exact Hn |].
  intro H. destruct (isNegative (compareVersions a b)) eqn:E; [reflexivity |].
  exfalso. destruct (isPositive (compareVersions a b)) eqn:E'.
  - exact (seqHigher_asym _ _ H (Hp eq_refl)).
  - apply (seqHigher_not_tied _ _ H). apply Ht; reflexivity.
Qed.

Lemma isTie_iff_tied (a b : string) : isTie a b = true <-> tied a b.
Proof.
  destruct (compareVersions_sound a b) as [Hp [Hn Ht]]. unfold isTie. split.
  - intro H. apply andb_true_iff in H. destruct H as [H1 H2].
    apply negb_true_iff in H1, H2. apply Ht; assumption.
  - intro H.
    destruct (isPositive (compareVersions a b)) eqn:E.
    + exfalso. apply (seqHigher_not_tied _ _ (Hp eq_refl)), seqTied_sym, H.
    + destruct (isNegative (compareVersions a b)) eqn:E'; [| reflexivity].
      exfalso. exact (seqHigher_not_tied _ _ (Hn eq_refl) H).
Qed.

(* ================================================================== *)
(** ** Sorting with a consistent comparator *)
(* ================================================================== *)

Section SortFacts.
Context {A : Type} (comparefn : A -> A -> number).

Lemma insert_perm (x : A) (l : list A) :
  Permutation (x :: l) (insert comparefn x l).
Proof.
  induction l as [| y l IH]; simpl; [reflexivity |].
  destruct (isPositive (comparefn x y)); [| reflexivity].
  rewrite perm_swap. apply perm_skip, IH.
Qed.

Lemma sort_perm (l : list A) : Permutation l (sort comparefn l).
Proof.
  induction l as [| x l IH]; simpl; [reflexivity |].
  rewrite <- insert_perm. apply perm_skip, IH.
Qed.

Hypothesis behind_asym :
  forall x y, behind comparefn x y = true -> behind comparefn y x = false.
Hypothesis behind_split :
  forall x y z,
    behind comparefn x z = true ->
    behind comparefn x y = true \/ behind comparefn y z = true.

Lemma insert_sorted (x : A) (l : list A) :
  StronglySorted (fun a b => behind comparefn a b = false) l ->
  StronglySorted (fun a b => behind comparefn a b = false) (insert comparefn x l).
Proof.
  induction l as [| y l IH]; intro Hs; simpl.
  - constructor; constructor.
  - inversion Hs as [| ? ? Hs' Hall]; subst.
    destruct (isPositive (comparefn x y)) eqn:E.
    + constructor; [apply IH, Hs' |].
      apply Forall_forall. intros z Hz.
      apply (Permutation_in _ (Permutation_sym (insert_perm x l))) in Hz.
      destruct Hz as [<- | Hz].
      * apply behind_asym, E.
      * rewrite Forall_forall in Hall. apply Hall, Hz.
    + constructor; [exact Hs |].
      constructor; [exact E |].
      apply Forall_forall. intros z Hz.
      rewrite Forall_forall in Hall. specialize (Hall z Hz).
      destruct (behind comparefn x z) eqn:E'; [| reflexivity].
      destruct (behind_split x y z E') as [H | H]; unfold behind in *; congruence.
Qed.

Lemma sort_sorted (l : list A) :
  StronglySorted (fun a b => behind comparefn a b = false) (sort comparefn l).
Proof.
  induction l as [| x l IH]; simpl; [constructor | apply insert_sorted, IH].
Qed.

(** Elements of a class no two members of which are ordered by the
    comparator keep their order. *)
Lemma insert_stable (p : A -> bool) (x : A) (l : list A) :
  (forall a b, p a = true -> p b = true -> behind comparefn a b = false) ->
  filter p (insert comparefn x l) = filter p (x :: l).
Proof.
  intro Hp. induction l as [| y l IH]; [reflexivity |].
  simpl. destruct (isPositive (comparefn x y)) eqn:E; [| reflexivity].
  simpl. rewrite IH. simpl.
  destruct (p x) eqn:Px, (p y) eqn:Py; try reflexivity.
  specialize (Hp x y Px Py). unfold behind in Hp. congruence.
Qed.

Lemma sort_stable (p : A -> bool) (l : list A) :
  (forall a b, p a = true -> p b = true -> behind comparefn a b = false) ->
  filter p (sort comparefn l) = filter p l.
Proof.
  intro Hp. induction l as [| x l IH]; [reflexivity |].
  simpl sort. rewrite insert_stable by exact Hp.
  simpl. rewrite IH. reflexivity.
Qed.
End SortFacts.

Lemma StronglySorted_weaken {A : Type} (R R' : A -> A -> Prop) (l : list A) :
  (forall a b, R a b -> R' a b) -> StronglySorted R l -> StronglySorted R' l.
Proof.
  intros HR Hs. induction Hs as [| a l Hs IH Hall]; constructor.
  - exact IH.
  - eapply Forall_impl; [apply HR | exact Hall].
Qed.

Lemma compareVersions_asym (x y : string) :
  isPositive (compareVersions x y) = true -> isPositive (compareVersions y x) = false.
Proof.
  intro H. apply isPositive_iff_higher in H.
  apply not_true_iff_false. intro H'. apply isPositive_iff_higher in H'.
  exact (seqHigher_asym _ _ H H').
Qed.

Lemma compareVersions_split (x y z : string) :
  isPositive (compareVersions x z) = true ->
  isPositive (compareVersions x y) = true \/ isPositive (compareVersions y z) = true.
Proof.
  intro H. apply isPositive_iff_higher in H.
  destruct (compareVersions_sound y z) as [Hp [Hn Ht]].
  destruct (isPositive (compareVersions y z)) eqn:E; [right; reflexivity |].
  left. apply isPositive_iff_higher.
  destruct (isNegative (compareVersions y z)) eqn:E'.
  - exact (seqHigher_trans _ _ _ (Hn eq_refl) H).
  - apply (seqHigher_tied_l _ _ _ (seqTied_sym _ _ (Ht eq_refl eq_refl))). exact H.
Qed.

(** The sorted keys, in the words of the specification: the same keys,
    none followed by a higher one, tied keys in their original order. *)
Lemma sort_compareVersions (l : list string) :
  Permutation l (sort compareVersions l) /\
  StronglySorted (fun a b => ~ higher b a) (sort compareVersions l) /\
  (forall k, filter (isTie k) (sort compareVersions l) = filter (isTie k) l).
Proof.
  split; [apply sort_perm | split].
  - eapply StronglySorted_weaken; [| apply (sort_sorted compareVersions)].
    + intros a b H Hh. apply isPositive_iff_higher in Hh. unfold behind in H. congruence.
    + apply compareVersions_asym.
    + apply compareVersions_split.
  - intro k. apply sort_stable. intros a b Ha Hb.
    apply isTie_iff_tied in Ha, Hb.
    assert (Hab : tied a b) by (eapply seqTied_trans; [apply seqTied_sym, Ha | exact Hb]).
    apply isTie_iff_tied in Hab. unfold isTie in Hab.
    apply andb_true_iff in Hab. destruct Hab as [H _].
    apply negb_true_iff in H. exact H.
Qed.

Lemma partAt_not_NaN (v : string) (i : nat) : partAt v i <> NaN.
Proof.
  unfold partAt, segmentValue.
  destruct (nth_error (split "." v) i) as [seg |]; [| discriminate].
  destruct (Number seg); discriminate.
Qed.

Lemma tied_refl (a : string) : tied a a.
Proof. intro i. apply numEq_refl, partAt_not_NaN. Qed.

Lemma not_higher_tied (a b : string) : ~ higher a b -> ~ higher b a -> tied a b.
Proof.
  intros Hab Hba. destruct (compareVersions_sound a b) as [Hp [Hn Ht]].
  apply Ht.
  - destruct (isPositive (compareVersions a b)); [exfalso; apply Hba, Hp |]; reflexivity.
  - destruct (isNegative (compareVersions a b)); [exfalso; apply Hab, Hn |]; reflexivity.
Qed.

(** An arrangement of the keys that is sorted and keeps tied keys in
    their order is the only one: whatever stable algorithm the engine
    runs, it returns what [sort] returns. *)
Lemma stable_sorted_unique (l1 l2 : list string) :
  Permutation l1 l2 ->
  StronglySorted (fun a b => ~ higher b a) l1 ->
  StronglySorted (fun a b => ~ higher b a) l2 ->
  (forall k, filter (isTie k) l1 = filter (isTie k) l2) ->
  l1 = l2.
Proof.
  revert l2. induction l1 as [| x l1 IH]; intros l2 HP S1 S2 HF.
  - apply Permutation_nil in HP. congruence.
  - destruct l2 as [| y l2].
    + apply Permutation_sym, Permutation_nil in HP. discriminate HP.
    + inversion S1 as [| ? ? S1' A1]; subst. inversion S2 as [| ? ? S2' A2]; subst.
      rewrite Forall_forall in A1, A2.
      assert (Hxy : ~ higher x y).
      { assert (Hin : In x (y :: l2)) by (apply (Permutation_in _ HP); left; reflexivity).
        destruct Hin as [<- | Hin]; [| apply A2, Hin].
        intro H. exact (seqHigher_asym _ _ H H). }
      assert (Hyx : ~ higher y x).
      { assert (Hin : In y (x :: l1))
          by (apply (Permutation_in _ (Permutation_sym HP)); left; reflexivity).
        destruct Hin as [<- | Hin]; [| apply A1, Hin].
        intro H. exact (seqHigher_asym _ _ H H). }
      pose proof (proj2 (isTie_iff_tied x y) (not_higher_tied _ _ Hxy Hyx)) as Txy.
      pose proof (proj2 (isTie_iff_tied x x) (tied_refl x)) as Txx.
      pose proof (HF x) as Hx. simpl in Hx. rewrite Txx, Txy in Hx.
      injection Hx as <- _.
      f_equal. apply IH.
      * exact (Permutation_cons_inv HP).
      * exact S1'.
      * exact S2'.
      * intro k. specialize (HF k). simpl in HF.
        destruct (isTie k x); [injection HF as HF |]; exact HF.
Qed.

(* ================================================================== *)
(** ** Decimal numerals *)
(* ================================================================== *)

Lemma digit_facts (c : ascii) :
  isDecimalDigit c = true ->
  isWhiteSpace c = false /\
  digitValue c = Some (Z.of_nat (nat_of_ascii c) - 48)%Z /\
  (Z.of_nat (nat_of_ascii c) - 48 <? 10)%Z = true /\
  isExponentIndicator c = false /\
  isDot c = false /\
  Ascii.eqb c "+" = false /\
  Ascii.eqb c "-" = false /\
  radixOfPrefix c = None /\
  Ascii.eqb c "I" = false.
Proof.
  destruct c as [[] [] [] [] [] [] [] []]; vm_compute; intro H;
    try discriminate H; repeat split; reflexivity.
Qed.

Lemma trimEnd_digits (s : string) : allDigits s = true -> trimEnd s = s.
Proof.
  induction s as [| c s IH]; simpl; [reflexivity |].
  intro H. apply andb_true_iff in H. destruct H as [Hc Hs].
  rewrite (IH Hs). destruct (digit_facts c Hc) as [Hw _].
  destruct s; [rewrite Hw |]; reflexivity.
Qed.

Lemma trim_digits (s : string) : allDigits s = true -> trim s = s.
Proof.
  intro H. unfold trim. destruct s as [| c s]; [reflexivity |].
  simpl in H. pose proof H as H'. apply andb_true_iff in H'. destruct H' as [Hc Hs].
  destruct (digit_facts c Hc) as [Hw _].
  simpl trimStart. rewrite Hw. apply trimEnd_digits. simpl. exact H.
Qed.

Lemma digitsValue_digits (s : string) :
  allDigits s = true ->
  forall acc,
    digitsValue 10 acc s
    = Some (acc * 10 ^ Z.of_nat (String.length s) + decimalValue s)%Z.
Proof.
  induction s as [| c s IH]; intros H acc.
  - simpl. f_equal. lia.
  - simpl in H. apply andb_true_iff in H. destruct H as [Hc Hs].
    destruct (digit_facts c Hc) as [_ [Hv [Hlt _]]].
    cbn [digitsValue]. rewrite Hv, Hlt, (IH Hs). f_equal.
    cbn [String.length decimalValue].
    rewrite Nat2Z.inj_succ, Z.pow_succ_r by lia. ring.
Qed.

Lemma cut_none (p : ascii -> bool) (s : string) :
  (forall c, isDecimalDigit c = true -> p c = false) ->
  allDigits s = true -> cut p s = (s, None).
Proof.
  intros Hp. induction s as [| c s IH]; intro H; [reflexivity |].
  simpl in H. apply andb_true_iff in H. destruct H as [Hc Hs].
  simpl. rewrite (Hp c Hc), (IH Hs). reflexivity.
Qed.

(** A non-empty string of decimal digits is read as the float nearest
    to the integer it denotes. *)
Lemma Number_digits (s : string) :
  s <> EmptyString -> allDigits s = true ->
  Number s = roundToFloat (inject_Z (decimalValue s)).
Proof.
  intros Hne H. unfold Number. rewrite (trim_digits s H).
  destruct s as [| c s]; [congruence |]. clear Hne.
  cbn [String.eqb].
  pose proof H as H'. simpl in H'. apply andb_true_iff in H'. destruct H' as [Hc Hs].
  destruct (digit_facts c Hc) as [_ [_ [_ [_ [_ [Hplus [Hminus [_ HI]]]]]]]].
  assert (Hdec : strDecimalLiteral (String c s)
                 = roundToFloat (inject_Z (decimalValue (String c s)))).
  { unfold strDecimalLiteral. rewrite Hplus, Hminus.
    unfold strUnsignedDecimalLiteral. cbn [String.eqb]. rewrite HI. cbn [andb].
    unfold decimalLiteral.
    rewrite (cut_none isExponentIndicator) by
      (try exact H; intros d Hd; apply (digit_facts d Hd)).
    unfold mantissa.
    rewrite (cut_none isDot) by
      (try exact H; intros d Hd; apply (digit_facts d Hd)).
    unfold parseDigits. rewrite (digitsValue_digits _ H). cbn [option_map].
    unfold scale10. simpl Z.opp. simpl Z.leb. cbv iota.
    rewrite Z.pow_0_r, Z.mul_1_r, Z.mul_0_l, Z.add_0_l. reflexivity. }
  unfold strNumericLiteral. destruct s as [| d s]; [exact Hdec |].
  simpl in Hs. apply andb_true_iff in Hs. destruct Hs as [Hd _].
  destruct (digit_facts d Hd) as [_ [_ [_ [_ [_ [_ [_ [Hr _]]]]]]]].
  rewrite Hr. destruct (Ascii.eqb c "0"); exact Hdec.
Qed.

(** Literals that are not floats are rounded: to the nearest float, to
    infinity, to zero. *)
Example Number_rounds :
  Number "9007199254740993" = Finite (inject_Z 9007199254740992) /\
  Number "9007199254740995" = Finite (inject_Z 9007199254740996) /\
  Number "1e400" = PosInfinity /\
  Number "-1e400" = NegInfinity /\
  Number "1e-400" = zero /\
  Number "0.1" = Finite (3602879701896397 # 36028797018963968) /\
  Number "0x20000000000001" = Finite (inject_Z 9007199254740992).
Proof. vm_compute. repeat split. Qed.

Lemma decimalValue_nonneg (s : string) : allDigits s = true -> (0 <= decimalValue s)%Z.
Proof.
  induction s as [| c s IH]; [intros _; simpl; lia |].
  intro H. simpl in H. apply andb_true_iff in H. destruct H as [Hc Hs].
  cbn [decimalValue]. specialize (IH Hs).
  unfold isDecimalDigit in Hc. apply andb_true_iff in Hc. destruct Hc as [Hc _].
  apply Nat.leb_le in Hc.
  assert (0 <= 10 ^ Z.of_nat (String.length s))%Z by (apply Z.pow_nonneg; lia).
  nia.
Qed.

(** A string of decimal digits that denotes an integer below 2^53 is
    read as that integer. *)
Lemma Number_digits_exact (s : string) :
  s <> EmptyString -> allDigits s = true -> (decimalValue s < 2 ^ 53)%Z ->
  Number s = Finite (inject_Z (decimalValue s)).
Proof.
  intros Hne H Hlt. rewrite (Number_digits s Hne H).
  apply roundToFloat_integer. split; [apply decimalValue_nonneg, H | exact Hlt].
Qed.

(* ================================================================== *)
(** ** Author strings and repository URLs *)
(* ================================================================== *)

Lemma takeWhile_lacks (c : ascii) (pre rest : string) :
  lacks c pre ->
  takeWhile (fun d => negb (Ascii.eqb d c)) (pre ++ String c rest) = pre.
Proof.
  induction pre as [| d pre IH]; simpl.
  - intros _. rewrite Ascii.eqb_refl. reflexivity.
  - intros [Hd Hl]. apply Ascii.eqb_neq in Hd. rewrite Hd. simpl.
    rewrite (IH Hl). reflexivity.
Qed.

Lemma takeWhile_lacks_all (c : ascii) (pre : string) :
  lacks c pre -> takeWhile (fun d => negb (Ascii.eqb d c)) pre = pre.
Proof.
  induction pre as [| d pre IH]; simpl; [reflexivity |].
  intros [Hd Hl]. apply Ascii.eqb_neq in Hd. rewrite Hd. simpl.
  rewrite (IH Hl). reflexivity.
Qed.

Lemma dropWhile_lacks (c : ascii) (pre rest : string) :
  lacks c pre ->
  dropWhile (fun d => negb (Ascii.eqb d c)) (pre ++ String c rest) = String c rest.
Proof.
  induction pre as [| d pre IH]; simpl.
  - intros _. rewrite Ascii.eqb_refl. reflexivity.
  - intros [Hd Hl]. apply Ascii.eqb_neq in Hd. rewrite Hd. simpl. exact (IH Hl).
Qed.

Lemma takeWhile_beforeFirst (c : ascii) (s pre : string) :
  beforeFirst c s pre -> takeWhile (fun d => negb (Ascii.eqb d c)) s = pre.
Proof.
  intros [Hl [-> | [rest ->]]].
  - apply takeWhile_lacks_all, Hl.
  - apply takeWhile_lacks, Hl.
Qed.

Lemma takeWhile_dropWhile (p : ascii -> bool) (s : string) :
  s = takeWhile p s ++ dropWhile p s.
Proof.
  induction s as [| d s IH]; simpl; [reflexivity |].
  destruct (p d); simpl; [f_equal; exact IH | reflexivity].
Qed.

Lemma lacks_takeWhile (c : ascii) (s : string) :
  lacks c (takeWhile (fun d => negb (Ascii.eqb d c)) s).
Proof.
  induction s as [| d s IH]; simpl; [exact I |].
  destruct (Ascii.eqb d c) eqn:E; simpl; [exact I |].
  split; [apply Ascii.eqb_neq, E | exact IH].
Qed.

Lemma dropWhile_head (c : ascii) (s : string) (d : ascii) (rest : string) :
  dropWhile (fun a => negb (Ascii.eqb a c)) s = String d rest -> d = c.
Proof.
  induction s as [| a s IH]; simpl; [discriminate |].
  destruct (Ascii.eqb a c) eqn:E; simpl.
  - intro H. injection H as <- _. apply Ascii.eqb_eq, E.
  - exact IH.
Qed.

Lemma stripPrefix_Some (p s r : string) : stripPrefix p s = Some r <-> s = p ++ r.
Proof.
  revert s. induction p as [| a p IH]; intro s; simpl.
  - split; [intro H; injection H as ->; reflexivity | intros ->; reflexivity].
  - destruct s as [| b s]; [split; discriminate |].
    destruct (Ascii.eqb a b) eqn:E.
    + apply Ascii.eqb_eq in E. subst b. rewrite IH. split.
      * intros ->. reflexivity.
      * intro H. injection H as ->. reflexivity.
    + apply Ascii.eqb_neq in E. split; [discriminate |].
      intro H. injection H as H _. congruence.
Qed.

Lemma removeGitPlus_spec (u c : string) :
  withoutPrefix "git+" u c -> removeGitPlus u = c.
Proof.
  unfold removeGitPlus. intros [-> | [Hno ->]].
  - rewrite (proj2 (stripPrefix_Some "git+" ("git+" ++ c) c) eq_refl). reflexivity.
  - destruct (stripPrefix "git+" u) as [r |] eqn:E; [| reflexivity].
    apply stripPrefix_Some in E. exfalso. exact (Hno r E).
Qed.

Lemma append_length (s t : string) :
  String.length (s ++ t) = String.length s + String.length t.
Proof. induction s as [| a s IH]; simpl; [reflexivity | rewrite IH; reflexivity]. Qed.

Lemma append_assoc (s t u : string) : (s ++ t) ++ u = s ++ t ++ u.
Proof. induction s as [| a s IH]; simpl; [reflexivity | rewrite IH; reflexivity]. Qed.

Lemma append_empty_r (s : string) : s ++ EmptyString = s.
Proof. induction s as [| a s IH]; simpl; [reflexivity | rewrite IH; reflexivity]. Qed.

Lemma removeDotGit_spec (u c : string) :
  withoutSuffix ".git" u c -> removeDotGit u = c.
Proof.
  intros [-> | [Hno ->]].
  - induction c as [| a c IH]; [reflexivity |].
    cbn [append removeDotGit].
    destruct (String a (c ++ ".git") =? ".git") eqn:E.
    + apply String.eqb_eq in E. apply (f_equal String.length) in E.
      simpl in E. rewrite append_length in E. simpl in E. lia.
    + rewrite IH. reflexivity.
  - induction u as [| a u IH]; [reflexivity |].
    cbn [removeDotGit].
    destruct (String a u =? ".git") eqn:E.
    + apply String.eqb_eq in E. exfalso. apply (Hno EmptyString). exact E.
    + rewrite IH; [reflexivity |].
      intros x Hx. apply (Hno (String a x)). rewrite Hx. reflexivity.
Qed.

Lemma matchGithubHere_spec (s owner : string) :
  githubAt s EmptyString owner -> matchGithubHere s = Some owner.
Proof.
  intros [d [rest [-> [Hne [Hl Hd]]]]]. unfold matchGithubHere.
  assert (E : stripPrefix "github.com/"
                (EmptyString ++ "github.com/" ++ owner ++ String "/" (String d rest))
              = Some (owner ++ String "/" (String d rest)))
    by (apply stripPrefix_Some; reflexivity).
  rewrite E.
  unfold notSlash. rewrite (takeWhile_lacks "/" owner _ Hl), (dropWhile_lacks "/" owner _ Hl).
  destruct owner as [| a o]; [congruence |].
  apply Ascii.eqb_neq in Hd. rewrite Hd. reflexivity.
Qed.

Lemma matchGithubHere_sound (s owner : string) :
  matchGithubHere s = Some owner -> githubAt s EmptyString owner.
Proof.
  unfold matchGithubHere.
  destruct (stripPrefix "github.com/" s) as [r |] eqn:E; [| discriminate].
  apply stripPrefix_Some in E.
  pose proof (takeWhile_dropWhile notSlash r) as Hr.
  pose proof (lacks_takeWhile "/" r) as Hl. fold notSlash in Hl.
  destruct (takeWhile notSlash r) as [| a o] eqn:Et; [discriminate |].
  destruct (dropWhile notSlash r) as [| sl [| d rest]] eqn:Ed; try discriminate.
  destruct (notSlash d) eqn:Hd; [| discriminate].
  intro H. injection H as <-.
  apply dropWhile_head in Ed. subst sl.
  exists d, rest. repeat split.
  - rewrite E, Hr. reflexivity.
  - discriminate.
  - apply Hl.
  - apply Hl.
  - unfold notSlash in Hd. apply negb_true_iff in Hd. apply Ascii.eqb_neq, Hd.
Qed.

Lemma githubAt_tail (a : ascii) (c pre owner : string) :
  githubAt c pre owner -> githubAt (String a c) (String a pre) owner.
Proof.
  intros [d [rest [-> H]]]. exists d, rest. split; [reflexivity | exact H].
Qed.

(** The search finds the owner of the leftmost match. *)
Lemma matchGithub_spec (c owner : string) :
  githubPattern c owner -> matchGithub c = Some owner.
Proof.
  intros [pre [Hat Hleft]]. revert c Hat Hleft.
  induction pre as [| a pre IH]; intros c Hat Hleft.
  - destruct c; cbn [matchGithub]; rewrite (matchGithubHere_spec _ _ Hat); reflexivity.
  - destruct Hat as [d [rest [-> Hrest]]].
    cbn [append matchGithub].
    destruct (matchGithubHere _) as [o |] eqn:E.
    + exfalso. apply matchGithubHere_sound in E.
      apply (Hleft EmptyString o); [simpl; lia | exact E].
    + apply IH.
      * exists d, rest. split; [reflexivity | exact Hrest].
      * intros pre' owner' Hlen Hat'.
        apply (Hleft (String a pre') owner'); [simpl; lia |].
        apply githubAt_tail, Hat'.
Qed.

Lemma githubAt_nonempty (c pre owner : string) : githubAt c pre owner -> c <> EmptyString.
Proof.
  intros [d [rest [-> _]]] H. apply (f_equal String.length) in H.
  rewrite append_length in H. simpl in H. lia.
Qed.

Lemma beforeFirst_takeWhile (c : ascii) (s : string) :
  beforeFirst c s (takeWhile (fun d => negb (Ascii.eqb d c)) s).
Proof.
  split; [apply lacks_takeWhile |].
  pose proof (takeWhile_dropWhile (fun d => negb (Ascii.eqb d c)) s) as H.
  destruct (dropWhile (fun d => negb (Ascii.eqb d c)) s) as [| d rest] eqn:E.
  - left. rewrite append_empty_r in H. exact H.
  - right. exists rest. apply dropWhile_head in E as E'. subst d. exact H.
Qed.

Lemma withoutPrefix_removeGitPlus (u : string) :
  withoutPrefix "git+" u (removeGitPlus u).
Proof.
  unfold removeGitPlus.
  destruct (stripPrefix "git+" u) as [r |] eqn:E.
  - left. apply stripPrefix_Some, E.
  - right. split; [| reflexivity]. intros x Hx.
    apply stripPrefix_Some in Hx. congruence.
Qed.

Lemma withoutSuffix_removeDotGit (u : string) :
  withoutSuffix ".git" u (removeDotGit u).
Proof.
  induction u as [| a u IH].
  - right. split; [| reflexivity]. intros x Hx.
    apply (f_equal String.length) in Hx. rewrite append_length in Hx. simpl in Hx. lia.
  - cbn [removeDotGit]. destruct (String a u =? ".git") eqn:E.
    + apply String.eqb_eq in E. left. exact E.
    + apply String.eqb_neq in E. destruct IH as [Hu | [Hno Hu]].
      * left. cbn [append]. f_equal. exact Hu.
      * right. rewrite Hu. split; [| reflexivity].
        intros [| b x] Hx; [exact (E Hx) |].
        cbn [append] in Hx. injection Hx as _ Hx. exact (Hno x Hx).
Qed.

Lemma githubAt_tail_inv (a b : ascii) (c pre owner : string) :
  githubAt (String a c) (String b pre) owner -> githubAt c pre owner.
Proof.
  intros [d [rest [E H]]]. cbn [append] in E. injection E as _ E.
  exists d, rest. split; assumption.
Qed.

(** What the search finds is the owner of the leftmost match. *)
Lemma matchGithub_sound (c owner : string) :
  matchGithub c = Some owner -> githubPattern c owner.
Proof.
  induction c as [| a c IH]; cbn [matchGithub].
  - destruct (matchGithubHere EmptyString) as [o |] eqn:E; [| discriminate].
    intro H. injection H as ->. exists EmptyString.
    split; [apply matchGithubHere_sound, E |]. intros pre' owner' Hlen. simpl in Hlen. lia.
  - destruct (matchGithubHere (String a c)) as [o |] eqn:E.
    + intro H. injection H as ->. exists EmptyString.
      split; [apply matchGithubHere_sound, E |]. intros pre' owner' Hlen. simpl in Hlen. lia.
    + intro H. destruct (IH H) as [pre [Hat Hleft]].
      exists (String a pre). split; [apply githubAt_tail, Hat |].
      intros [| b p] owner' Hlen Hat'.
      * apply matchGithubHere_spec in Hat'. congruence.
      * apply githubAt_tail_inv in Hat'. apply (Hleft p owner'); [simpl in Hlen; lia | exact Hat'].
Qed.

(* ================================================================== *)
(** ** The pipeline *)
(* ================================================================== *)

Lemma fetchPackageData_document (h : Host) (packageName : string)
  (version : option string) (data : NpmRegistryResponse.t) :
  registryDocument h packageName = Some data ->
  fetchPackageData h packageName version = packageDetails h packageName version data.
Proof.
  unfold registryDocument, fetchPackageData, tryCatch, bind.
  destruct (fetchRegistry h _) as [response | e]; [| discriminate].
  destruct (Response.ok response); [| discriminate]. simpl.
  destruct (Response.json response) as [d | e]; [| discriminate].
  intro H. injection H as ->. destruct (packageDetails _ _ _ _); reflexivity.
Qed.

Lemma fetchPackageData_returned (h : Host) (packageName : string)
  (version : option string) (r : PackageDetailsResponse.t) :
  fetchPackageData h packageName version = Returned r ->
  exists data,
    registryDocument h packageName = Some data /\
    packageDetails h packageName version data = Returned r.
Proof.
  unfold registryDocument, fetchPackageData, tryCatch, bind.
  destruct (fetchRegistry h _) as [response | e]; [| discriminate].
  destruct (Response.ok response); simpl.
  - destruct (Response.json response) as [d | e]; [| discriminate].
    intro H. exists d. split; [reflexivity |].
    destruct (packageDetails _ _ _ _); congruence.
  - destruct (Response.status response =? 404)%Z; discriminate.
Qed.

Lemma packageDetails_target (h : Host) (packageName : string)
  (version : option string) (data : NpmRegistryResponse.t) (t : string) :
  targetVersion version data = Some t ->
  packageDetails h packageName version data
  = match lookup (NpmRegistryResponse.versions data) t with
    | Some versionData => Returned (assemble h packageName data t versionData)
    | None => Thrown (VersionNotFound t packageName)
    end.
Proof.
  unfold targetVersion, packageDetails.
  destruct (latestTag data) as [l |]; [| discriminate].
  destruct (l =? ""); [discriminate |].
  intro H. injection H as <-. reflexivity.
Qed.

Lemma packageDetails_no_target (h : Host) (packageName : string)
  (version : option string) (data : NpmRegistryResponse.t) :
  targetVersion version data = None ->
  packageDetails h packageName version data = Thrown (NoLatestTag packageName).
Proof.
  unfold targetVersion, packageDetails.
  destruct (latestTag data) as [l |]; [| reflexivity].
  destruct (l =? ""); [reflexivity | discriminate].
Qed.

Lemma lookup_own {V : Type} (d : Dict V) (k : string) (v : V) :
  get d k = Some v -> lookup d k = Some (Own v).
Proof. intro H. unfold lookup. rewrite H. reflexivity. Qed.

Lemma lookup_undefined {V : Type} (d : Dict V) (k : string) :
  get d k = None -> get objectPrototype k = None -> lookup d k = None.
Proof. intros H H'. unfold lookup. rewrite H, H'. reflexivity. Qed.

Lemma resolves_assemble (h : Host) (packageName : string) (version : option string)
  (data : NpmRegistryResponse.t) (versionData : VersionData.t)
  (r : PackageDetailsResponse.t) :
  resolves h packageName version data versionData r ->
  exists t, targetVersion version data = Some t /\
            get (NpmRegistryResponse.versions data) t = Some versionData /\
            r = assemble h packageName data t (Own versionData).
Proof.
  intros [Hdoc [[t [Ht Hget]] Hr]]. exists t. repeat split; try assumption.
  rewrite (fetchPackageData_document _ _ _ _ Hdoc) in Hr.
  rewrite (packageDetails_target _ _ _ _ _ Ht), (lookup_own _ _ _ Hget) in Hr.
  congruence.
Qed.

(** Whatever is returned has been assembled from the document and from
    what its versions hold for the target version. *)
Lemma fetchPackageData_assembled (h : Host) (packageName : string)
  (version : option string) (r : PackageDetailsResponse.t) :
  fetchPackageData h packageName version = Returned r ->
  exists data t found,
    registryDocument h packageName = Some data /\
    targetVersion version data = Some t /\
    lookup (NpmRegistryResponse.versions data) t = Some found /\
    r = assemble h packageName data t found.
Proof.
  intro Hr. destruct (fetchPackageData_returned _ _ _ _ Hr) as [data [Hdoc Hd]].
  destruct (targetVersion version data) as [t |] eqn:Ht.
  - rewrite (packageDetails_target _ _ _ _ _ Ht) in Hd.
    destruct (lookup (NpmRegistryResponse.versions data) t) as [found |] eqn:Hget;
      [| discriminate].
    exists data, t, found. repeat split; try assumption. congruence.
  - rewrite (packageDetails_no_target _ _ _ _ Ht) in Hd. discriminate.
Qed.

Lemma get_in_keys {V : Type} (d : Dict V) (k : string) :
  In k (keys d) <-> exists v, get d k = Some v.
Proof.
  induction d as [| [k' v'] d IH]; simpl.
  - split; [tauto | intros [v H]; discriminate].
  - destruct (k' =? k) eqn:E.
    + apply String.eqb_eq in E. split; [intros _; eauto | intros _; left; exact E].
    + apply String.eqb_neq in E. rewrite <- IH. tauto.
Qed.

Lemma get_not_in_keys {V : Type} (d : Dict V) (k : string) :
  ~ In k (keys d) <-> get d k = None.
Proof.
  rewrite get_in_keys. destruct (get d k) as [v |].
  - split; [intro H; exfalso; apply H; eauto | discriminate].
  - split; [reflexivity | intros _ [v H]; discriminate].
Qed.

Lemma targetVersion_requested (v l : string) (data : NpmRegistryResponse.t) :
  latestTag data = Some l -> l <> EmptyString -> v <> EmptyString ->
  targetVersion (Some v) data = Some v.
Proof.
  intros Hl Hne Hv. unfold targetVersion. rewrite Hl.
  apply String.eqb_neq in Hne, Hv. rewrite Hne. simpl. rewrite Hv. reflexivity.
Qed.

Lemma targetVersion_latest (version : option string) (l : string)
  (data : NpmRegistryResponse.t) :
  latestTag data = Some l -> l <> EmptyString ->
  version = None \/ version = Some EmptyString ->
  targetVersion version data = Some l.
Proof.
  intros Hl Hne Hv. unfold targetVersion. rewrite Hl.
  apply String.eqb_neq in Hne. rewrite Hne. destruct Hv as [-> | ->]; reflexivity.
Qed.

(* ================================================================== *)
(** ** The version list *)
(* ================================================================== *)

Lemma sort_sample (ks : list string) :
  Permutation ["1.2.0"; "1.10.0"; "2.0.0"; "1.2.10"] ks ->
  sort compareVersions ks = ["2.0.0"; "1.10.0"; "1.2.10"; "1.2.0"].
Proof.
  intro HP.
  pose proof (Permutation_length HP) as Hlen.
  destruct ks as [| a [| b [| c [| d [| e ks]]]]]; try discriminate Hlen.
  assert (Hin : forall x, In x [a; b; c; d] ->
                          In x ["1.2.0"; "1.10.0"; "2.0.0"; "1.2.10"])
    by (intros x Hx; apply (Permutation_in _ (Permutation_sym HP)), Hx).
  pose proof (Hin a (or_introl eq_refl)) as Ha.
  pose proof (Hin b (or_intror (or_introl eq_refl))) as Hb.
  pose proof (Hin c (or_intror (or_intror (or_introl eq_refl)))) as Hc.
  pose proof (Hin d (or_intror (or_intror (or_intror (or_introl eq_refl))))) as Hd.
  pose proof (proj1 (Permutation_count_occ string_dec _ _) HP) as Hocc.
  clear Hin Hlen HP. simpl in Ha, Hb, Hc, Hd.
  destruct Ha as [<- | [<- | [<- | [<- | []]]]];
    destruct Hb as [<- | [<- | [<- | [<- | []]]]];
    destruct Hc as [<- | [<- | [<- | [<- | []]]]];
    destruct Hd as [<- | [<- | [<- | [<- | []]]]];
    first
      [ vm_compute; reflexivity
      | exfalso; pose proof (Hocc "1.2.0") as H; vm_compute in H; discriminate H
      | exfalso; pose proof (Hocc "1.10.0") as H; vm_compute in H; discriminate H
      | exfalso; pose proof (Hocc "2.0.0") as H; vm_compute in H; discriminate H
      | exfalso; pose proof (Hocc "1.2.10") as H; vm_compute in H; discriminate H ].
Qed.

(** C1, as stated, fails: segments are not compared as integers of any
    size.  Two keys that differ only in a segment above 2^53, here
    9007199254740992 and 9007199254740993, are read as the same float;
    they tie and keep the order of the document, so that the version
    list has a key followed by one that is higher as integers. *)
Lemma version_list_counterexample :
  exists r,
    fetchPackageData (hostOf hugeDocument) "widget" None = Returned r /\
    PackageDetailsResponse.allVersions r
    = ["1.9007199254740992"; "1.9007199254740993"] /\
    isTie "1.9007199254740992" "1.9007199254740993" = true /\
    integerHigher "1.9007199254740993" "1.9007199254740992" /\
    ~ StronglySorted (fun a b => ~ integerHigher b a)
        (PackageDetailsResponse.allVersions r).
Proof.
  assert (Hhigher : integerHigher "1.9007199254740993" "1.9007199254740992").
  { exists 1. split.
    - intros j Hj. assert (j = 0) by lia. subst j. vm_compute. reflexivity.
    - vm_compute. reflexivity. }
  eexists. split; [reflexivity |].
  assert (Hlist : sortedVersions hugeDocument
                  = ["1.9007199254740992"; "1.9007199254740993"])
    by (vm_compute; reflexivity).
  cbn [assemble PackageDetailsResponse.allVersions]. rewrite Hlist.
  split; [reflexivity |]. split; [vm_compute; reflexivity |].
  split; [exact Hhigher |].
  intro H. inversion H as [| ? ? _ Hall]; subst.
  inversion Hall as [| ? ? Hnot _]; subst. exact (Hnot Hhigher).
Qed.

(** C1, amended: the version list returned by [fetchPackageData] holds
    exactly the keys of [data.versions]; no key is followed by a higher
    one, where keys are compared position by position on the values
    that [Number] reads for their dot-separated segments: a non-numeric
    segment and a missing position count as 0, and a string of decimal
    digits counts as the float nearest to the integer it denotes, which
    is that integer when it is below 2^53; keys that tie at every
    position keep the order they have in the document, and no other
    arrangement of the keys has these properties; any arrangement of
    the keys 1.2.0, 1.10.0, 2.0.0, 1.2.10 is returned as 2.0.0, 1.10.0,
    1.2.10, 1.2.0. *)
Theorem version_list_sorted_descending :
  (forall h packageName version r,
      fetchPackageData h packageName version = Returned r ->
      exists data,
        registryDocument h packageName = Some data /\
        Permutation (keys (NpmRegistryResponse.versions data))
                    (PackageDetailsResponse.allVersions r) /\
        StronglySorted (fun a b => ~ higher b a) (PackageDetailsResponse.allVersions r) /\
        (forall k, filter (isTie k) (PackageDetailsResponse.allVersions r)
                   = filter (isTie k) (keys (NpmRegistryResponse.versions data))) /\
        (forall l,
            Permutation (keys (NpmRegistryResponse.versions data)) l ->
            StronglySorted (fun a b => ~ higher b a) l ->
            (forall k, filter (isTie k) l
                       = filter (isTie k) (keys (NpmRegistryResponse.versions data))) ->
            l = PackageDetailsResponse.allVersions r)) /\
  (forall a b,
      (isPositive (compareVersions a b) = true <-> higher b a) /\
      (isNegative (compareVersions a b) = true <-> higher a b) /\
      (isTie a b = true <-> tied a b)) /\
  (forall seg, seg <> EmptyString -> allDigits seg = true ->
               segmentValue seg = roundToFloat (inject_Z (decimalValue seg)) /\
               ((decimalValue seg < 2 ^ 53)%Z ->
                segmentValue seg = Finite (inject_Z (decimalValue seg)))) /\
  (forall seg, Number seg = NaN -> segmentValue seg = zero) /\
  (forall v i, List.length (split "." v) <= i -> partAt v i = zero) /\
  (forall h packageName version r data,
      fetchPackageData h packageName version = Returned r ->
      registryDocument h packageName = Some data ->
      Permutation ["1.2.0"; "1.10.0"; "2.0.0"; "1.2.10"]
                  (keys (NpmRegistryResponse.versions data)) ->
      PackageDetailsResponse.allVersions r = ["2.0.0"; "1.10.0"; "1.2.10"; "1.2.0"]).
Proof.
  split; [| split; [| split; [| split; [| split]]]].
  - intros h packageName version r Hr.
    destruct (fetchPackageData_assembled _ _ _ _ Hr)
      as [data [t [found [Hdoc [_ [_ ->]]]]]].
    exists data. split; [exact Hdoc |].
    cbn [assemble PackageDetailsResponse.allVersions]. unfold sortedVersions.
    destruct (sort_compareVersions (keys (NpmRegistryResponse.versions data)))
      as [HP [HS HF]].
    split; [exact HP |]. split; [exact HS |]. split; [exact HF |].
    intros l HPl HSl HFl. apply stable_sorted_unique.
    + exact (Permutation_trans (Permutation_sym HPl) HP).
    + exact HSl.
    + exact HS.
    + intro k. rewrite HFl, HF. reflexivity.
  - intros a b. split; [apply isPositive_iff_higher |].
    split; [apply isNegative_iff_higher | apply isTie_iff_tied].
  - intros seg Hne H. unfold segmentValue. split.
    + rewrite (Number_digits seg Hne H).
      pose proof (roundToFloat_not_NaN (inject_Z (decimalValue seg))) as Hn.
      destruct (roundToFloat (inject_Z (decimalValue seg))); congruence.
    + intro Hlt. rewrite (Number_digits_exact seg Hne H Hlt). reflexivity.
  - intros seg H. unfold segmentValue. rewrite H. reflexivity.
  - intros v i H. unfold partAt. apply nth_error_None in H. rewrite H. reflexivity.
  - intros h packageName version r data Hr Hdoc HP.
    destruct (fetchPackageData_assembled _ _ _ _ Hr)
      as [data' [t [found [Hdoc' [_ [_ ->]]]]]].
    assert (data' = data) by congruence. subst data'.
    cbn [assemble PackageDetailsResponse.allVersions]. unfold sortedVersions.
    apply sort_sample, HP.
Qed.

Lemma version_list_witness :
  exists r,
    fetchPackageData (hostOf sampleDocument) "widget" None = Returned r /\
    exists data,
      registryDocument (hostOf sampleDocument) "widget" = Some data /\
      Permutation (keys (NpmRegistryResponse.versions data))
                  (PackageDetailsResponse.allVersions r) /\
      StronglySorted (fun a b => ~ higher b a) (PackageDetailsResponse.allVersions r) /\
      (forall k, filter (isTie k) (PackageDetailsResponse.allVersions r)
                 = filter (isTie k) (keys (NpmRegistryResponse.versions data))) /\
      (forall l,
          Permutation (keys (NpmRegistryResponse.versions data)) l ->
          StronglySorted (fun a b => ~ higher b a) l ->
          (forall k, filter (isTie k) l
                     = filter (isTie k) (keys (NpmRegistryResponse.versions data))) ->
          l = PackageDetailsResponse.allVersions r).
Proof.
  eexists. split; [reflexivity |].
  exact (proj1 version_list_sorted_descending
           (hostOf sampleDocument) "widget" None _ eq_refl).
Defined.

(* ================================================================== *)
(** ** The target version *)
(* ================================================================== *)

(** C2, as stated, fails: the version of the result is the [version]
    member of the record found, which for the key 3.0.0 of [oddDocument]
    is 2.0.0; the key made of no character is read as no request; and a
    latest tag that is the empty string stops every resolution. *)
Lemma requested_version_counterexample :
  (registryDocument (hostOf oddDocument) "widget" = Some oddDocument /\
   latestTag oddDocument = Some "1.0.0" /\
   In "3.0.0" (keys (NpmRegistryResponse.versions oddDocument)) /\
   ~ exists r,
       fetchPackageData (hostOf oddDocument) "widget" (Some "3.0.0") = Returned r /\
       NpmPackageData.version (PackageDetailsResponse.packageData r) = Some "3.0.0") /\
  (In EmptyString (keys (NpmRegistryResponse.versions oddDocument)) /\
   ~ exists r,
       fetchPackageData (hostOf oddDocument) "widget" (Some EmptyString) = Returned r /\
       NpmPackageData.version (PackageDetailsResponse.packageData r)
       = Some EmptyString) /\
  (registryDocument (hostOf emptyTagDocument) "widget" = Some emptyTagDocument /\
   latestTag emptyTagDocument = Some EmptyString /\
   In "1.2.0" (keys (NpmRegistryResponse.versions emptyTagDocument)) /\
   ~ exists r,
       fetchPackageData (hostOf emptyTagDocument) "widget" (Some "1.2.0") = Returned r).
Proof.
  repeat apply conj; try reflexivity.
  - simpl. tauto.
  - intros [r [Hr Hv]]. vm_compute in Hr. injection Hr as <-. discriminate Hv.
  - simpl. tauto.
  - intros [r [Hr Hv]]. vm_compute in Hr. injection Hr as <-. discriminate Hv.
  - simpl. tauto.
  - intros [r Hr]. vm_compute in Hr. discriminate Hr.
Qed.

(** C2, amended: for a document with a non-empty latest tag and a
    non-empty key [v] of its versions, resolving with the requested
    version [v] succeeds, and the version of the result is the [version]
    member of the record stored under [v]; it is [v] when the record
    carries the key it is stored under. *)
Theorem requested_version_resolves :
  forall h packageName data l v,
    registryDocument h packageName = Some data ->
    latestTag data = Some l -> l <> EmptyString ->
    v <> EmptyString ->
    In v (keys (NpmRegistryResponse.versions data)) ->
    exists versionData r,
      get (NpmRegistryResponse.versions data) v = Some versionData /\
      fetchPackageData h packageName (Some v) = Returned r /\
      NpmPackageData.version (PackageDetailsResponse.packageData r)
      = Some (VersionData.version versionData) /\
      (VersionData.version versionData = v ->
       NpmPackageData.version (PackageDetailsResponse.packageData r) = Some v).
Proof.
  intros h packageName data l v Hdoc Hl Hne Hv Hin.
  apply get_in_keys in Hin. destruct Hin as [vd Hget].
  exists vd, (assemble h packageName data v (Own vd)).
  rewrite (fetchPackageData_document _ _ _ _ Hdoc).
  rewrite (packageDetails_target _ _ _ _ _ (targetVersion_requested _ _ _ Hl Hne Hv)).
  rewrite (lookup_own _ _ _ Hget).
  split; [exact Hget |]. split; [reflexivity |]. split; [reflexivity |].
  intro H. simpl. rewrite H. reflexivity.
Qed.

Lemma requested_version_witness :
  exists versionData r,
    get (NpmRegistryResponse.versions sampleDocument) "1.10.0" = Some versionData /\
    fetchPackageData (hostOf sampleDocument) "widget" (Some "1.10.0") = Returned r /\
    NpmPackageData.version (PackageDetailsResponse.packageData r)
    = Some (VersionData.version versionData) /\
    (VersionData.version versionData = "1.10.0" ->
     NpmPackageData.version (PackageDetailsResponse.packageData r) = Some "1.10.0").
Proof.
  refine (requested_version_resolves (hostOf sampleDocument) "widget" sampleDocument
            "2.0.0" "1.10.0" eq_refl eq_refl _ _ _).
  - discriminate.
  - discriminate.
  - simpl. tauto.
Defined.




(** A requested version that names a member of [Object.prototype] is
    found although the document has no such key: what is returned has
    the name of that member and no version. *)
Example inherited_member_found :
  ~ In "constructor" (keys (NpmRegistryResponse.versions sampleDocument)) /\
  exists r,
    fetchPackageData (hostOf sampleDocument) "widget" (Some "constructor") = Returned r /\
    NpmPackageData.name (PackageDetailsResponse.packageData r) = Some "Object" /\
    NpmPackageData.version (PackageDetailsResponse.packageData r) = None /\
    NpmPackageData.author (PackageDetailsResponse.packageData r) = Some "N/A" /\
    NpmPackageData.publishedDate (PackageDetailsResponse.packageData r)
    = Some "Invalid Date".
Proof.
  split.
  - simpl. intros [H | [H | [H | [H | []]]]]; discriminate H.
  - eexists. repeat split.
Qed.

(** C8, as stated, fails: without a latest tag the failure for the
    missing version 99.0.0 is NoLatestTag, and the request made of no
    character, which is no key either, resolves to the latest version. *)
Lemma missing_version_counterexample :
  (registryDocument (hostOf untaggedDocument) "widget" = Some untaggedDocument /\
   ~ In "99.0.0" (keys (NpmRegistryResponse.versions untaggedDocument)) /\
   fetchPackageData (hostOf untaggedDocument) "widget" (Some "99.0.0")
   <> Thrown (VersionNotFound "99.0.0" "widget")) /\
  (registryDocument (hostOf sampleDocument) "widget" = Some sampleDocument /\
   ~ In EmptyString (keys (NpmRegistryResponse.versions sampleDocument)) /\
   exists r, fetchPackageData (hostOf sampleDocument) "widget" (Some EmptyString)
             = Returned r).
Proof.
  repeat apply conj; try reflexivity.
  - simpl. intros [H | [H | [H | [H | []]]]]; discriminate H.
  - vm_compute. discriminate.
  - simpl. intros [H | [H | [H | [H | []]]]]; discriminate H.
  - eexists. reflexivity.
Qed.

(** C8, amended: for a document with a non-empty latest tag and a
    non-empty requested version [v] that is no key of its versions (and
    not the name of a member every object inherits), resolution fails
    with VersionNotFound, whose message names the version and the
    package, and returns no package. *)
Theorem missing_version_fails :
  forall h packageName data l v,
    registryDocument h packageName = Some data ->
    latestTag data = Some l -> l <> EmptyString ->
    v <> EmptyString ->
    ~ In v (keys (NpmRegistryResponse.versions data)) ->
    ~ In v (keys objectPrototype) ->
    fetchPackageData h packageName (Some v) = Thrown (VersionNotFound v packageName) /\
    names (message (VersionNotFound v packageName)) (quoted v) /\
    names (message (VersionNotFound v packageName)) (quoted packageName) /\
    forall r, fetchPackageData h packageName (Some v) <> Returned r.
Proof.
  intros h packageName data l v Hdoc Hl Hne Hv Hin Hproto.
  apply get_not_in_keys in Hin, Hproto.
  assert (H : fetchPackageData h packageName (Some v)
              = Thrown (VersionNotFound v packageName)).
  { rewrite (fetchPackageData_document _ _ _ _ Hdoc).
    rewrite (packageDetails_target _ _ _ _ _ (targetVersion_requested _ _ _ Hl Hne Hv)).
    rewrite (lookup_undefined _ _ Hin Hproto). reflexivity. }
  repeat apply conj.
  - exact H.
  - exists "Could not find data for version ",
      (" of package " ++ quoted packageName ++ "."). reflexivity.
  - exists ("Could not find data for version " ++ quoted v ++ " of package "), ".".
    unfold message. rewrite !append_assoc. reflexivity.
  - intros r Hr. congruence.
Qed.

Lemma missing_version_witness :
  fetchPackageData (hostOf sampleDocument) "widget" (Some "99.0.0")
  = Thrown (VersionNotFound "99.0.0" "widget") /\
  names (message (VersionNotFound "99.0.0" "widget")) (quoted "99.0.0") /\
  names (message (VersionNotFound "99.0.0" "widget")) (quoted "widget") /\
  forall r, fetchPackageData (hostOf sampleDocument) "widget" (Some "99.0.0")
            <> Returned r.
Proof.
  refine (missing_version_fails (hostOf sampleDocument) "widget" sampleDocument
            "2.0.0" "99.0.0" eq_refl eq_refl _ _ _ _).
  - discriminate.
  - discriminate.
  - simpl. intros [H | [H | [H | [H | []]]]]; discriminate H.
  - apply get_not_in_keys. reflexivity.
Defined.

(** C10: a requested version that is the empty string is resolved
    exactly as no requested version; with a latest tag, the target is
    the version the tag names, and the failure, if any, is not
    VersionNotFound for the empty string. *)
Theorem empty_version_is_latest :
  forall h packageName,
    fetchPackageData h packageName (Some EmptyString)
    = fetchPackageData h packageName None /\
    (forall data l,
        registryDocument h packageName = Some data ->
        latestTag data = Some l -> l <> EmptyString ->
        targetVersion (Some EmptyString) data = Some l /\
        fetchPackageData h packageName (Some EmptyString)
        = match lookup (NpmRegistryResponse.versions data) l with
          | Some versionData => Returned (assemble h packageName data l versionData)
          | None => Thrown (VersionNotFound l packageName)
          end /\
        fetchPackageData h packageName (Some EmptyString)
        <> Thrown (VersionNotFound EmptyString packageName)).
Proof.
  intros h packageName. split; [reflexivity |].
  intros data l Hdoc Hl Hne.
  pose proof (targetVersion_latest (Some EmptyString) l data Hl Hne
                (or_intror eq_refl)) as Ht.
  rewrite (fetchPackageData_document _ _ _ _ Hdoc).
  rewrite (packageDetails_target _ _ _ _ _ Ht).
  repeat split; [exact Ht |].
  destruct (lookup _ l); [discriminate |]. intro H. injection H as H. congruence.
Qed.

Lemma empty_version_witness :
  targetVersion (Some EmptyString) sampleDocument = Some "2.0.0" /\
  fetchPackageData (hostOf sampleDocument) "widget" (Some EmptyString)
  = match lookup (NpmRegistryResponse.versions sampleDocument) "2.0.0" with
    | Some versionData =>
        Returned (assemble (hostOf sampleDocument) "widget" sampleDocument "2.0.0"
                           versionData)
    | None => Thrown (VersionNotFound "2.0.0" "widget")
    end /\
  fetchPackageData (hostOf sampleDocument) "widget" (Some EmptyString)
  <> Thrown (VersionNotFound EmptyString "widget").
Proof.
  refine (proj2 (empty_version_is_latest (hostOf sampleDocument) "widget")
            sampleDocument "2.0.0" eq_refl eq_refl _).
  discriminate.
Defined.

(* ================================================================== *)
(** ** The author *)
(* ================================================================== *)

Lemma author_of_assemble (h : Host) (packageName : string)
  (data : NpmRegistryResponse.t) (t : string) (found : Property VersionData.t) :
  NpmPackageData.author (PackageDetailsResponse.packageData
                           (assemble h packageName data t found))
  = Some (orString
            (extractAuthor (member VersionData.author found)
               (orElse (repositoryUrl (member VersionData.repository found))
                       (repositoryUrl (NpmRegistryResponse.repository data))))
            "N/A").
Proof. reflexivity. Qed.

Lemma authorOfRepository_truthy (author repoUrl : option string) :
  truthy author = true -> authorOfRepository author repoUrl = author.
Proof. intro H. unfold authorOfRepository. rewrite H. reflexivity. Qed.

Lemma orString_truthy (s d : string) : s <> EmptyString -> orString (Some s) d = s.
Proof. intro H. apply String.eqb_neq in H. simpl. rewrite H. reflexivity. Qed.

Lemma truthy_Some (s : string) : s <> EmptyString -> truthy (Some s) = true.
Proof. intro H. apply String.eqb_neq in H. simpl. rewrite H. reflexivity. Qed.

Lemma orElse_repositoryUrlOf (versionData : VersionData.t)
  (data : NpmRegistryResponse.t) (u : string) :
  repositoryUrlOf versionData data u ->
  orElse (repositoryUrl (VersionData.repository versionData))
         (repositoryUrl (NpmRegistryResponse.repository data)) = Some u.
Proof.
  unfold orElse. intros [[H Hne] | [[H | H] Hroot]]; rewrite H.
  - rewrite (truthy_Some u Hne). reflexivity.
  - exact Hroot.
  - exact Hroot.
Qed.

(** C3, as stated, fails: an author string that begins with the
    less-than sign is kept whole (what precedes the sign is empty), and
    one with only white space before the sign resolves to the default. *)
Lemma author_string_counterexample :
  (exists r,
      resolves (hostOf sampleDocument) "widget" (Some "2.0.0") sampleDocument
        (sampleVersion "2.0.0" (Some (AuthorString "<jane@example.com>")) None) r /\
      beforeFirst "<" "<jane@example.com>" EmptyString /\
      NpmPackageData.author (PackageDetailsResponse.packageData r)
      = Some "<jane@example.com>" /\
      NpmPackageData.author (PackageDetailsResponse.packageData r)
      <> Some (trim EmptyString)) /\
  (exists r,
      resolves (hostOf sampleDocument) "widget" (Some "1.2.10") sampleDocument
        (sampleVersion "1.2.10" (Some (AuthorString "  <jane@example.com>")) None) r /\
      beforeFirst "<" "  <jane@example.com>" "  " /\
      NpmPackageData.author (PackageDetailsResponse.packageData r) = Some "N/A" /\
      NpmPackageData.author (PackageDetailsResponse.packageData r)
      <> Some (trim "  ")).
Proof.
  split; eexists; (split; [split; [reflexivity | split; [| reflexivity]] |]).
  - exists "2.0.0". split; reflexivity.
  - split; [| split; [reflexivity | discriminate]].
    split; [exact I | right; eexists; reflexivity].
  - exists "1.2.10". split; reflexivity.
  - split; [| split; [reflexivity | discriminate]].
    split; [simpl; repeat split; discriminate | right; eexists; reflexivity].
Qed.

(** C3, amended: when the author of the record is a string, and what
    precedes its first less-than sign holds a character that is not
    white space, the resolved author is that portion, trimmed; when the
    string begins with the less-than sign, the resolved author is the
    whole string. *)
Theorem author_string_resolved :
  forall h packageName version data versionData r s pre,
    resolves h packageName version data versionData r ->
    VersionData.author versionData = Some (AuthorString s) ->
    beforeFirst "<" s pre ->
    (trim pre <> EmptyString ->
     NpmPackageData.author (PackageDetailsResponse.packageData r) = Some (trim pre)) /\
    (pre = EmptyString -> s <> EmptyString ->
     NpmPackageData.author (PackageDetailsResponse.packageData r) = Some s).
Proof.
  intros h packageName version data vd r s pre Hres Ha Hpre.
  destruct (resolves_assemble _ _ _ _ _ _ Hres) as [t [_ [_ ->]]].
  rewrite author_of_assemble. cbn [member]. rewrite Ha.
  pose proof (takeWhile_beforeFirst _ _ _ Hpre) as Htake. fold notLt in Htake.
  unfold extractAuthor, authorOfField, matchName. rewrite Htake.
  split.
  - intro Htrim.
    assert (Hs : s <> EmptyString).
    { intros ->. destruct Hpre as [_ [<- | [rest H]]].
      - apply Htrim. reflexivity.
      - destruct pre; discriminate H. }
    apply String.eqb_neq in Hs. rewrite Hs.
    destruct pre as [| a pre]; [exfalso; apply Htrim; reflexivity |].
    rewrite (authorOfRepository_truthy _ _ (truthy_Some _ Htrim)).
    rewrite (orString_truthy _ _ Htrim). reflexivity.
  - intros -> Hs. pose proof Hs as Hs'. apply String.eqb_neq in Hs'. rewrite Hs'.
    rewrite (authorOfRepository_truthy _ _ (truthy_Some _ Hs)).
    rewrite (orString_truthy _ _ Hs). reflexivity.
Qed.

Lemma author_string_witness :
  NpmPackageData.author
    (PackageDetailsResponse.packageData
       (assemble (hostOf sampleDocument) "widget" sampleDocument "1.2.0"
          (Own (sampleVersion "1.2.0"
                  (Some (AuthorString "Jane Doe <jane@example.com>")) None))))
  = Some "Jane Doe".
Proof.
  refine (proj1 (author_string_resolved (hostOf sampleDocument) "widget" (Some "1.2.0")
                   sampleDocument
                   (sampleVersion "1.2.0"
                      (Some (AuthorString "Jane Doe <jane@example.com>")) None)
                   _ "Jane Doe <jane@example.com>" "Jane Doe "
                   _ eq_refl _) _).
  - split; [reflexivity | split; [| reflexivity]].
    exists "1.2.0". split; reflexivity.
  - exact (beforeFirst_takeWhile "<" "Jane Doe <jane@example.com>").
  - discriminate.
Defined.

(** C5: when the record has no author, and its repository URL (its own,
    else the one of the root of the document), without a leading
    [git+] and then without a trailing [.git], matches
    [github.com/<owner>/<repo>], the resolved author is the owner of the
    leftmost match; the URL [git+https://github.com/acme/widget.git]
    gives [acme]. *)
Theorem author_from_repository :
  (forall h packageName version data versionData r u u1 c owner,
      resolves h packageName version data versionData r ->
      VersionData.author versionData = None ->
      repositoryUrlOf versionData data u ->
      withoutPrefix "git+" u u1 ->
      withoutSuffix ".git" u1 c ->
      githubPattern c owner ->
      NpmPackageData.author (PackageDetailsResponse.packageData r) = Some owner) /\
  (forall h packageName version data versionData r,
      resolves h packageName version data versionData r ->
      VersionData.author versionData = None ->
      repositoryUrlOf versionData data "git+https://github.com/acme/widget.git" ->
      NpmPackageData.author (PackageDetailsResponse.packageData r) = Some "acme").
Proof.
  assert (General : forall h packageName version data versionData r u u1 c owner,
      resolves h packageName version data versionData r ->
      VersionData.author versionData = None ->
      repositoryUrlOf versionData data u ->
      withoutPrefix "git+" u u1 ->
      withoutSuffix ".git" u1 c ->
      githubPattern c owner ->
      NpmPackageData.author (PackageDetailsResponse.packageData r) = Some owner);
    [| split; [exact General |];
       intros h packageName version data vd r Hres Ha Hu;
       exact (General _ _ _ _ _ _ _ _ _ _ Hres Ha Hu
                (withoutPrefix_removeGitPlus _) (withoutSuffix_removeDotGit _)
                (matchGithub_sound
                   (removeDotGit (removeGitPlus "git+https://github.com/acme/widget.git"))
                   "acme" eq_refl))].
  intros h packageName version data vd r u u1 c owner Hres Ha Hu Hp Hs Hg.
  destruct (resolves_assemble _ _ _ _ _ _ Hres) as [t [_ [_ ->]]].
  rewrite author_of_assemble. cbn [member].
  rewrite Ha, (orElse_repositoryUrlOf _ _ _ Hu).
  apply removeGitPlus_spec in Hp. apply removeDotGit_spec in Hs.
  pose proof (matchGithub_spec _ _ Hg) as Hm.
  assert (Hne : u <> EmptyString).
  { intros ->. subst u1. subst c. destruct Hg as [pre [Hat _]].
    exact (githubAt_nonempty _ _ _ Hat eq_refl). }
  assert (Ho : owner <> EmptyString).
  { destruct Hg as [pre [[d [rest [_ [H _]]]] _]]. exact H. }
  unfold extractAuthor, authorOfField, authorOfRepository.
  rewrite (truthy_Some u Hne). cbn [truthy negb andb].
  rewrite Hp, Hs, Hm. apply f_equal, orString_truthy, Ho.
Qed.

Lemma author_from_repository_witness :
  NpmPackageData.author
    (PackageDetailsResponse.packageData
       (assemble (hostOf sampleDocument) "widget" sampleDocument "1.10.0"
          (Own (sampleVersion "1.10.0" None
                  (Some "git+https://github.com/acme/widget.git")))))
  = Some "acme".
Proof.
  refine (proj2 author_from_repository (hostOf sampleDocument) "widget" (Some "1.10.0")
            sampleDocument
            (sampleVersion "1.10.0" None (Some "git+https://github.com/acme/widget.git"))
            _ _ eq_refl _).
  - split; [reflexivity | split; [| reflexivity]].
    exists "1.10.0". split; reflexivity.
  - left. split; [reflexivity | discriminate].
Defined.

(** C6: whenever resolution succeeds, the author of the result is a
    string that is not empty: the author found by the first step (the
    name of the author object, or the author string), else the owner
    inferred from the repository URL, else, when every step yields
    nothing or the empty string, the default N/A. *)
Theorem author_never_empty :
  forall h packageName version r,
    fetchPackageData h packageName version = Returned r ->
    exists a,
      NpmPackageData.author (PackageDetailsResponse.packageData r) = Some a /\
      a <> EmptyString /\
      exists data t found,
        registryDocument h packageName = Some data /\
        targetVersion version data = Some t /\
        lookup (NpmRegistryResponse.versions data) t = Some found /\
        let repoUrl := NpmPackageData.repository (PackageDetailsResponse.packageData r) in
        let first := authorOfField (member VersionData.author found) in
        (truthy first = true -> first = Some a) /\
        (truthy first = false ->
         forall u, repoUrl = Some u -> u <> EmptyString ->
                   forall owner, matchGithub (removeDotGit (removeGitPlus u)) = Some owner ->
                                 a = owner) /\
        (truthy first = false ->
         (truthy repoUrl = false \/
          forall u, repoUrl = Some u -> matchGithub (removeDotGit (removeGitPlus u)) = None) ->
         a = "N/A").
Proof.
  intros h packageName version r Hr.
  destruct (fetchPackageData_assembled _ _ _ _ Hr)
    as [data [t [found [Hdoc [Ht [Hfound Heq]]]]]].
  assert (Hgithub : forall c owner, matchGithub c = Some owner -> owner <> EmptyString).
  { intros c owner H. apply matchGithub_sound in H.
    destruct H as [pre [[d [rest [_ [H _]]]] _]]. exact H. }
  eexists. split; [rewrite Heq; apply author_of_assemble |]. split.
  - destruct (extractAuthor _ _) as [s |]; simpl; [| discriminate].
    destruct (s =? "") eqn:E; [discriminate | apply String.eqb_neq, E].
  - exists data, t, found. split; [exact Hdoc |]. split; [exact Ht |].
    split; [exact Hfound |].
    rewrite Heq. cbn [assemble PackageDetailsResponse.packageData NpmPackageData.repository].
    set (repoUrl := orElse _ _). unfold extractAuthor.
    set (first := authorOfField _). cbv zeta.
    split; [| split].
    + intro Hf. rewrite (authorOfRepository_truthy _ _ Hf).
      destruct first as [s |]; [| discriminate]. simpl in Hf |- *.
      destruct (s =? ""); [discriminate | reflexivity].
    + intros Hf u Hu Hne owner Hm. unfold authorOfRepository.
      rewrite Hf, Hu, (truthy_Some u Hne), Hm. cbn [negb andb].
      apply orString_truthy, (Hgithub _ _ Hm).
    + intros Hf Hrepo. unfold authorOfRepository. rewrite Hf. cbn [negb andb].
      assert (Hfirst : orString first "N/A" = "N/A").
      { destruct first as [s |]; [| reflexivity]. simpl in Hf |- *.
        destruct (s =? ""); [reflexivity | discriminate]. }
      destruct Hrepo as [Hrepo | Hrepo].
      * rewrite Hrepo. exact Hfirst.
      * destruct (truthy repoUrl); [| exact Hfirst].
        destruct repoUrl as [u |]; [| exact Hfirst].
        rewrite (Hrepo u eq_refl). exact Hfirst.
Qed.

Lemma author_never_empty_witness :
  exists a,
    NpmPackageData.author
      (PackageDetailsResponse.packageData
         (assemble (hostOf sampleDocument) "widget" sampleDocument "1.2.10"
            (Own (sampleVersion "1.2.10"
                    (Some (AuthorString "  <jane@example.com>")) None))))
    = Some a /\ a <> EmptyString /\ a = "N/A".
Proof.
  destruct (author_never_empty (hostOf sampleDocument) "widget" (Some "1.2.10") _ eq_refl)
    as [a [Ha [Hne _]]].
  exists a. split; [exact Ha |]. split; [exact Hne |].
  injection Ha as Ha. symmetry. exact Ha.
Defined.

(* ================================================================== *)
(** ** The two requests *)
(* ================================================================== *)

Lemma fetchPackageDownloads_failed (h : Host) (packageName : string) :
  downloadsFailed
    (fetchDownloads h ("https://api.npmjs.org/downloads/point/last-week/" ++ packageName)) ->
  fetchPackageDownloads h packageName = None.
Proof.
  unfold fetchPackageDownloads, downloadsFailed, bind.
  destruct (fetchDownloads h _) as [response | e]; [| reflexivity].
  intros [Hok | [e He]].
  - rewrite Hok. simpl. destruct (Response.status response =? 404)%Z; reflexivity.
  - rewrite He. destruct (Response.ok response); simpl; [reflexivity |].
    destruct (Response.status response =? 404)%Z; reflexivity.
Qed.

(** C7: when the document is fetched and the record of the target
    version is found, resolution succeeds whatever the downloads request
    does; when that request fails (the transport fails, the status is 404
    or another one that is not a success, or the body cannot be read),
    the count of downloads is absent from the result, and nothing else
    in the result depends on the downloads endpoint. *)
Theorem downloads_never_fail_resolution :
  forall h packageName version data t found,
    registryDocument h packageName = Some data ->
    targetVersion version data = Some t ->
    lookup (NpmRegistryResponse.versions data) t = Some found ->
    forall d,
      let h' := withDownloads h d in
      exists r,
        fetchPackageData h' packageName version = Returned r /\
        (downloadsFailed
           (d ("https://api.npmjs.org/downloads/point/last-week/" ++ packageName)) ->
         NpmPackageData.downloadsLastWeek (PackageDetailsResponse.packageData r) = None) /\
        (forall response,
            d ("https://api.npmjs.org/downloads/point/last-week/" ++ packageName)
            = Returned response ->
            Response.status response = 404%Z ->
            NpmPackageData.downloadsLastWeek (PackageDetailsResponse.packageData r) = None) /\
        PackageDetailsResponse.allVersions r
        = PackageDetailsResponse.allVersions (assemble h packageName data t found) /\
        setDownloads None (PackageDetailsResponse.packageData r)
        = setDownloads None
            (PackageDetailsResponse.packageData (assemble h packageName data t found)).
Proof.
  intros h packageName version data t vd Hdoc Ht Hget d h'.
  exists (assemble h' packageName data t vd).
  assert (Hdoc' : registryDocument h' packageName = Some data) by exact Hdoc.
  rewrite (fetchPackageData_document _ _ _ _ Hdoc').
  rewrite (packageDetails_target _ _ _ _ _ Ht), Hget.
  split; [reflexivity |]. split; [| split; [| split; reflexivity]].
  - intro Hfail. cbn [assemble PackageDetailsResponse.packageData
                        NpmPackageData.downloadsLastWeek].
    apply fetchPackageDownloads_failed. exact Hfail.
  - intros response Hresp H404.
    cbn [assemble PackageDetailsResponse.packageData NpmPackageData.downloadsLastWeek].
    apply fetchPackageDownloads_failed. unfold h', withDownloads.
    cbn [fetchDownloads downloadsFailed]. rewrite Hresp. left.
    unfold Response.ok. rewrite H404. reflexivity.
Qed.

Lemma downloads_never_fail_witness :
  exists r,
    fetchPackageData
      (withDownloads (hostOf sampleDocument) (fun _ => Thrown (Rejected "Failed to fetch")))
      "widget" None = Returned r /\
    NpmPackageData.downloadsLastWeek (PackageDetailsResponse.packageData r) = None.
Proof.
  destruct (downloads_never_fail_resolution (hostOf sampleDocument) "widget" None
              sampleDocument "2.0.0"
              (Own (sampleVersion "2.0.0" (Some (AuthorString "<jane@example.com>")) None))
              eq_refl eq_refl eq_refl (fun _ => Thrown (Rejected "Failed to fetch")))
    as [r [Hr [Hnone _]]].
  exists r. split; [exact Hr | exact (Hnone I)].
Defined.

(** C9: when the registry answers the request for the document with a
    status that is not a success, resolution fails with NotFound, whose
    message names the package, if the status is 404, and with
    TransportError, whose message carries the status text of the
    response, if it is another one; nothing but the status being 404
    tells the two apart. *)
Theorem document_fetch_failures :
  forall h packageName version response,
    fetchRegistry h ("https://registry.npmjs.org/" ++ packageName) = Returned response ->
    Response.ok response = false ->
    (Response.status response = 404%Z ->
     fetchPackageData h packageName version = Thrown (NotFound packageName)) /\
    (Response.status response <> 404%Z ->
     fetchPackageData h packageName version
     = Thrown (TransportError (Response.statusText response))) /\
    (fetchPackageData h packageName version = Thrown (NotFound packageName) <->
     Response.status response = 404%Z) /\
    names (message (NotFound packageName)) packageName /\
    names (message (TransportError (Response.statusText response)))
          (Response.statusText response).
Proof.
  intros h packageName version response Hresp Hok.
  assert (H : fetchPackageData h packageName version
              = if (Response.status response =? 404)%Z
                then Thrown (NotFound packageName)
                else Thrown (TransportError (Response.statusText response))).
  { unfold fetchPackageData, tryCatch, bind. rewrite Hresp, Hok. simpl.
    destruct (Response.status response =? 404)%Z; reflexivity. }
  rewrite H. split; [| split; [| split; [| split]]].
  - intro E. apply Z.eqb_eq in E. rewrite E. reflexivity.
  - intro E. apply Z.eqb_neq in E. rewrite E. reflexivity.
  - destruct (Response.status response =? 404)%Z eqn:E.
    + apply Z.eqb_eq in E. tauto.
    + apply Z.eqb_neq in E. split; [discriminate | tauto].
  - exists ("Package " ++ String dquote EmptyString),
      (String dquote EmptyString ++ " not found.").
    unfold message, quoted. rewrite !append_assoc. reflexivity.
  - exists "Failed to fetch package data: ", EmptyString.
    unfold message. rewrite append_empty_r. reflexivity.
Qed.

Lemma document_fetch_failures_witness :
  fetchPackageData (failingHost 404 "Not Found") "widget" None
  = Thrown (NotFound "widget") /\
  fetchPackageData (failingHost 503 "Service Unavailable") "widget" None
  = Thrown (TransportError "Service Unavailable").
Proof.
  split.
  - refine (proj1 (document_fetch_failures (failingHost 404 "Not Found") "widget" None
                     _ eq_refl eq_refl) eq_refl).
  - refine (proj1 (proj2 (document_fetch_failures
                            (failingHost 503 "Service Unavailable") "widget" None
                            _ eq_refl eq_refl)) _).
    discriminate.
Defined.

(* ================================================================== *)
(** ** Further properties of the service *)
(* ================================================================== *)

(** X1: [fetchPackageDownloads] returns a count exactly when the
    downloads endpoint answers with a success status and a body that can
    be read, and the count is then the [downloads] member of the body. *)
Theorem downloads_count_iff :
  forall h packageName count,
    fetchPackageDownloads h packageName = Some count <->
    exists response data,
      fetchDownloads h ("https://api.npmjs.org/downloads/point/last-week/" ++ packageName)
      = Returned response /\
      Response.ok response = true /\
      Response.json response = Returned data /\
      NpmDownloadsResponse.downloads data = count.
Proof.
  intros h packageName count. unfold fetchPackageDownloads, bind. split.
  - destruct (fetchDownloads h _) as [response | e]; [| discriminate].
    destruct (Response.ok response) eqn:Hok; simpl.
    + destruct (Response.json response) as [data | e] eqn:Hj; [| discriminate].
      intro H. injection H as H. exists response, data. repeat split; assumption.
    + destruct (Response.status response =? 404)%Z; discriminate.
  - intros [response [data [Hr [Hok [Hj Hc]]]]].
    rewrite Hr, Hok. simpl. rewrite Hj, Hc. reflexivity.
Qed.

(** X2: a rejection of the request for the document, or of the reading
    of its body, is thrown again unchanged by [fetchPackageData]. *)
Theorem rejections_pass_through :
  forall h packageName version e,
    (fetchRegistry h ("https://registry.npmjs.org/" ++ packageName) = Thrown e ->
     fetchPackageData h packageName version = Thrown e) /\
    (forall response,
        fetchRegistry h ("https://registry.npmjs.org/" ++ packageName) = Returned response ->
        Response.ok response = true ->
        Response.json response = Thrown e ->
        fetchPackageData h packageName version = Thrown e).
Proof.
  intros h packageName version e. unfold fetchPackageData, tryCatch, bind. split.
  - intro H. rewrite H. reflexivity.
  - intros response H Hok Hj. rewrite H, Hok. simpl. rewrite Hj. reflexivity.
Qed.

Lemma rejections_pass_through_witness :
  fetchPackageData offlineHost "widget" None = Thrown (Rejected "Failed to fetch").
Proof.
  exact (proj1 (rejections_pass_through offlineHost "widget" None
                  (Rejected "Failed to fetch")) eq_refl).
Defined.

Lemma packageDetails_withDownloads_thrown (h : Host) (packageName : string)
  (version : option string) (data : NpmRegistryResponse.t) (e : Failure)
  (d : string -> Outcome (Response.t NpmDownloadsResponse.t)) :
  packageDetails h packageName version data = Thrown e <->
  packageDetails (withDownloads h d) packageName version data = Thrown e.
Proof.
  unfold packageDetails. destruct (latestTag data) as [l |]; [| tauto].
  destruct (l =? ""); [tauto |].
  destruct (lookup _ _); [split; discriminate | tauto].
Qed.

(** X3: whether [fetchPackageData] fails, and with which failure, does
    not depend on what the downloads endpoint answers. *)
Theorem failure_independent_of_downloads :
  forall h packageName version e d,
    fetchPackageData h packageName version = Thrown e <->
    fetchPackageData (withDownloads h d) packageName version = Thrown e.
Proof.
  intros h packageName version e d.
  unfold fetchPackageData, tryCatch, bind. cbn [withDownloads fetchRegistry].
  destruct (fetchRegistry h _) as [response | e']; [| tauto].
  destruct (negb (Response.ok response)); [tauto |].
  destruct (Response.json response) as [data | e']; [| tauto].
  pose proof (packageDetails_withDownloads_thrown h packageName version data e d) as H.
  destruct (packageDetails h packageName version data),
    (packageDetails (withDownloads h d) packageName version data); exact H.
Qed.

(** X4: when the author of the record is an object with a non-empty
    name, the resolved author is that name, whatever the repository URLs
    of the record and of the document are. *)
Theorem author_object_name :
  forall h packageName version data versionData r o,
    resolves h packageName version data versionData r ->
    VersionData.author versionData = Some (AuthorRecord o) ->
    AuthorObject.name o <> EmptyString ->
    NpmPackageData.author (PackageDetailsResponse.packageData r)
    = Some (AuthorObject.name o).
Proof.
  intros h packageName version data vd r o Hres Ha Hne.
  destruct (resolves_assemble _ _ _ _ _ _ Hres) as [t [_ [_ ->]]].
  rewrite author_of_assemble. cbn [member]. rewrite Ha.
  unfold extractAuthor, authorOfField.
  pose proof Hne as Hne'. apply String.eqb_neq in Hne'. rewrite Hne'.
  rewrite (authorOfRepository_truthy _ _ (truthy_Some _ Hne)).
  rewrite (orString_truthy _ _ Hne). reflexivity.
Qed.

Lemma author_object_name_witness :
  NpmPackageData.author
    (PackageDetailsResponse.packageData
       (assemble (hostOf datedDocument) "widget" datedDocument "1.0.0"
          (Own (sampleVersion "1.0.0"
                  (Some (AuthorRecord {| AuthorObject.name := "Jane Doe";
                                         AuthorObject.email := None;
                                         AuthorObject.url := None |}))
                  (Some "git+https://github.com/acme/widget.git")))))
  = Some "Jane Doe".
Proof.
  refine (author_object_name (hostOf datedDocument) "widget" (Some "1.0.0") datedDocument
            (sampleVersion "1.0.0"
               (Some (AuthorRecord {| AuthorObject.name := "Jane Doe";
                                      AuthorObject.email := None;
                                      AuthorObject.url := None |}))
               (Some "git+https://github.com/acme/widget.git"))
            _ {| AuthorObject.name := "Jane Doe"; AuthorObject.email := None;
                 AuthorObject.url := None |} _ eq_refl _).
  - split; [reflexivity | split; [| reflexivity]].
    exists "1.0.0". split; reflexivity.
  - discriminate.
Defined.

(** X5: an author that is the empty string, or an object whose name is
    empty, counts as no author: the resolved author is the owner inferred
    from the repository URL when the cleaned URL matches the pattern, and
    N/A when the record and the document have no repository URL. *)
Theorem empty_author_is_no_author :
  forall h packageName version data versionData r,
    resolves h packageName version data versionData r ->
    (VersionData.author versionData = Some (AuthorString EmptyString) \/
     exists o, VersionData.author versionData = Some (AuthorRecord o) /\
               AuthorObject.name o = EmptyString) ->
    (forall u owner,
        repositoryUrlOf versionData data u ->
        githubPattern (removeDotGit (removeGitPlus u)) owner ->
        NpmPackageData.author (PackageDetailsResponse.packageData r) = Some owner) /\
    (repositoryUrl (VersionData.repository versionData) = None ->
     repositoryUrl (NpmRegistryResponse.repository data) = None ->
     NpmPackageData.author (PackageDetailsResponse.packageData r) = Some "N/A").
Proof.
  intros h packageName version data vd r Hres Ha.
  destruct (resolves_assemble _ _ _ _ _ _ Hres) as [t [_ [_ ->]]].
  rewrite author_of_assemble. cbn [member].
  assert (Hfield : authorOfField (VersionData.author vd) = None).
  { destruct Ha as [-> | [o [-> Ho]]]; [reflexivity |].
    unfold authorOfField. rewrite Ho. reflexivity. }
  unfold extractAuthor. rewrite Hfield. split.
  - intros u owner Hu Hg.
    rewrite (orElse_repositoryUrlOf _ _ _ Hu).
    assert (Hne : u <> EmptyString).
    { intros ->. destruct Hg as [pre [Hat _]].
      exact (githubAt_nonempty _ _ _ Hat eq_refl). }
    assert (Ho : owner <> EmptyString).
    { destruct Hg as [pre [[d [rest [_ [H _]]]] _]]. exact H. }
    unfold authorOfRepository. rewrite (truthy_Some u Hne). cbn [truthy negb andb].
    rewrite (matchGithub_spec _ _ Hg). apply f_equal, orString_truthy, Ho.
  - intros H1 H2. rewrite H1, H2. reflexivity.
Qed.

Lemma empty_author_is_no_author_witness :
  NpmPackageData.author
    (PackageDetailsResponse.packageData
       (assemble (hostOf datedDocument) "widget" datedDocument "1.1.0"
          (Own (sampleVersion "1.1.0" (Some (AuthorString EmptyString)) None))))
  = Some "root".
Proof.
  refine (proj1 (empty_author_is_no_author (hostOf datedDocument) "widget" (Some "1.1.0")
                   datedDocument
                   (sampleVersion "1.1.0" (Some (AuthorString EmptyString)) None)
                   _ _ (or_introl eq_refl))
            "https://github.com/root/widget" "root" _
            (matchGithub_sound
               (removeDotGit (removeGitPlus "https://github.com/root/widget"))
               "root" eq_refl)).
  - split; [reflexivity | split; [| reflexivity]].
    exists "1.1.0". split; reflexivity.
  - right. split; [left; reflexivity | reflexivity].
Defined.

(** X6: the repository URL and the homepage of the result are those of
    the record when it has them and they are not empty, and those of the
    root of the document otherwise. *)
Theorem repository_and_homepage_fallback :
  forall h packageName version data versionData r,
    resolves h packageName version data versionData r ->
    (forall u, repositoryUrlOf versionData data u ->
               NpmPackageData.repository (PackageDetailsResponse.packageData r) = Some u) /\
    (forall p, VersionData.homepage versionData = Some p -> p <> EmptyString ->
               NpmPackageData.homepage (PackageDetailsResponse.packageData r) = Some p) /\
    (VersionData.homepage versionData = None \/
     VersionData.homepage versionData = Some EmptyString ->
     NpmPackageData.homepage (PackageDetailsResponse.packageData r)
     = NpmRegistryResponse.homepage data) /\
    (repositoryUrl (VersionData.repository versionData) = None \/
     repositoryUrl (VersionData.repository versionData) = Some EmptyString ->
     NpmPackageData.repository (PackageDetailsResponse.packageData r)
     = repositoryUrl (NpmRegistryResponse.repository data)).
Proof.
  intros h packageName version data vd r Hres.
  destruct (resolves_assemble _ _ _ _ _ _ Hres) as [t [_ [_ ->]]].
  cbn [assemble PackageDetailsResponse.packageData NpmPackageData.repository
         NpmPackageData.homepage member].
  split; [| split; [| split]].
  - intros u Hu. exact (orElse_repositoryUrlOf _ _ _ Hu).
  - intros p Hp Hne. unfold orElse. rewrite Hp, (truthy_Some p Hne). reflexivity.
  - intros [H | H]; unfold orElse; rewrite H; reflexivity.
  - intros [H | H]; unfold orElse; rewrite H; reflexivity.
Qed.

Lemma repository_and_homepage_fallback_witness :
  NpmPackageData.homepage
    (PackageDetailsResponse.packageData
       (assemble (hostOf datedDocument) "widget" datedDocument "1.1.0"
          (Own (sampleVersion "1.1.0" (Some (AuthorString EmptyString)) None))))
  = Some "https://widget.example".
Proof.
  refine (proj1 (proj2 (proj2 (repository_and_homepage_fallback
                                 (hostOf datedDocument) "widget" (Some "1.1.0")
                                 datedDocument
                                 (sampleVersion "1.1.0" (Some (AuthorString EmptyString)) None)
                                 _ _)))
            (or_introl eq_refl)).
  split; [reflexivity | split; [| reflexivity]].
  exists "1.1.0". split; reflexivity.
Defined.

(** X7: the version list does not depend on the version requested: two
    resolutions of the same package that succeed return the same list. *)
Theorem version_list_independent_of_request :
  forall h packageName version1 version2 r1 r2,
    fetchPackageData h packageName version1 = Returned r1 ->
    fetchPackageData h packageName version2 = Returned r2 ->
    PackageDetailsResponse.allVersions r1 = PackageDetailsResponse.allVersions r2.
Proof.
  intros h packageName v1 v2 r1 r2 H1 H2.
  destruct (fetchPackageData_assembled _ _ _ _ H1) as [d1 [t1 [f1 [Hd1 [_ [_ ->]]]]]].
  destruct (fetchPackageData_assembled _ _ _ _ H2) as [d2 [t2 [f2 [Hd2 [_ [_ ->]]]]]].
  assert (d1 = d2) by congruence. subst d2. reflexivity.
Qed.

Lemma version_list_independent_witness :
  PackageDetailsResponse.allVersions
    (assemble (hostOf sampleDocument) "widget" sampleDocument "2.0.0"
       (Own (sampleVersion "2.0.0" (Some (AuthorString "<jane@example.com>")) None)))
  = PackageDetailsResponse.allVersions
      (assemble (hostOf sampleDocument) "widget" sampleDocument "1.2.0"
         (Own (sampleVersion "1.2.0"
                 (Some (AuthorString "Jane Doe <jane@example.com>")) None))).
Proof.
  exact (version_list_independent_of_request (hostOf sampleDocument) "widget"
           None (Some "1.2.0") _ _ eq_refl eq_refl).
Defined.

(** X8: the published date of the result is absent exactly when the
    times of the document hold nothing for the target version (not even
    an inherited member) or hold the empty string; a non-empty time
    stamp is given in the locale format. *)
Theorem published_date_presence :
  forall h packageName version data t found r,
    registryDocument h packageName = Some data ->
    targetVersion version data = Some t ->
    lookup (NpmRegistryResponse.versions data) t = Some found ->
    fetchPackageData h packageName version = Returned r ->
    (NpmPackageData.publishedDate (PackageDetailsResponse.packageData r) = None <->
     lookup (NpmRegistryResponse.time data) t = None \/
     get (NpmRegistryResponse.time data) t = Some EmptyString) /\
    (forall raw, get (NpmRegistryResponse.time data) t = Some raw -> raw <> EmptyString ->
                 NpmPackageData.publishedDate (PackageDetailsResponse.packageData r)
                 = Some (toLocaleDateString h raw)).
Proof.
  intros h packageName version data t found r Hdoc Ht Hfound Hr.
  rewrite (fetchPackageData_document _ _ _ _ Hdoc) in Hr.
  rewrite (packageDetails_target _ _ _ _ _ Ht), Hfound in Hr.
  injection Hr as <-.
  cbn [assemble PackageDetailsResponse.packageData NpmPackageData.publishedDate].
  unfold lookup. split.
  - destruct (get (NpmRegistryResponse.time data) t) as [raw |] eqn:Hraw.
    + destruct (raw =? "") eqn:E.
      * apply String.eqb_eq in E. subst raw. split; [right; reflexivity | reflexivity].
      * apply String.eqb_neq in E. split; [discriminate |].
        intros [H | H]; [discriminate | congruence].
    + destruct (get objectPrototype t); simpl.
      * split; [discriminate | intros [H | H]; discriminate].
      * split; [left; reflexivity | reflexivity].
  - intros raw Hraw Hne. rewrite Hraw. apply String.eqb_neq in Hne. rewrite Hne.
    reflexivity.
Qed.

Lemma published_date_presence_witness :
  NpmPackageData.publishedDate
    (PackageDetailsResponse.packageData
       (assemble (hostOf datedDocument) "widget" datedDocument "1.0.0"
          (Own (sampleVersion "1.0.0"
                  (Some (AuthorRecord {| AuthorObject.name := "Jane Doe";
                                         AuthorObject.email := None;
                                         AuthorObject.url := None |}))
                  (Some "git+https://github.com/acme/widget.git")))))
  = Some "2020-01-02T03:04:05.000Z".
Proof.
  refine (proj2 (published_date_presence (hostOf datedDocument) "widget" (Some "1.0.0")
                   datedDocument "1.0.0" _ _ eq_refl eq_refl eq_refl eq_refl)
            "2020-01-02T03:04:05.000Z" eq_refl _).
  discriminate.
Defined.

(* ================================================================== *)
(** ** Further properties of the ordering of versions *)
(* ================================================================== *)

Lemma split_lacks (c : ascii) (s : string) : lacks c s -> split c s = [s].
Proof.
  induction s as [| d s IH]; intro H; [reflexivity |].
  destruct H as [Hd Hs]. simpl.
  apply Ascii.eqb_neq in Hd. rewrite Hd, (IH Hs). reflexivity.
Qed.

Lemma split_nonempty (c : ascii) (s : string) : split c s <> [].
Proof.
  destruct s as [| d s]; simpl; [discriminate |].
  destruct (Ascii.eqb d c); [discriminate |].
  destruct (split c s); discriminate.
Qed.

Lemma split_append (c : ascii) (a seg : string) :
  lacks c seg -> split c (a ++ String c seg) = (split c a ++ [seg])%list.
Proof.
  intro H. induction a as [| d a IH]; simpl.
  - rewrite Ascii.eqb_refl, (split_lacks _ _ H). reflexivity.
  - rewrite IH. destruct (Ascii.eqb d c); [reflexivity |].
    destruct (split c a) eqn:E; [exfalso; exact (split_nonempty _ _ E) | reflexivity].
Qed.

Lemma segmentValue_not_NaN (seg : string) : segmentValue seg <> NaN.
Proof. unfold segmentValue. destruct (Number seg); discriminate. Qed.

Lemma same_prefix_tied (a s1 s2 : string) :
  lacks "." s1 -> lacks "." s2 ->
  numEq (segmentValue s1) (segmentValue s2) ->
  tied (a ++ String "." s1) (a ++ String "." s2).
Proof.
  intros H1 H2 Hv i. unfold partAt.
  rewrite (split_append _ _ _ H1), (split_append _ _ _ H2).
  destruct (Nat.lt_ge_cases i (length (split "." a))) as [Hi | Hi].
  - rewrite !nth_error_app1 by exact Hi.
    destruct (nth_error (split "." a) i) as [seg |].
    + apply numEq_refl, segmentValue_not_NaN.
    + apply numEq_refl. discriminate.
  - rewrite !nth_error_app2 by exact Hi.
    destruct (i - length (split "." a))%nat as [| [| k]]; cbn [nth_error].
    + exact Hv.
    + apply numEq_refl. discriminate.
    + apply numEq_refl. discriminate.
Qed.

Lemma zero_suffix_tied (a s : string) :
  lacks "." s -> numEq (segmentValue s) zero -> tied (a ++ String "." s) a.
Proof.
  intros H Hv i. unfold partAt. rewrite (split_append _ _ _ H).
  destruct (Nat.lt_ge_cases i (length (split "." a))) as [Hi | Hi].
  - rewrite nth_error_app1 by exact Hi.
    destruct (nth_error (split "." a) i) as [seg |].
    + apply numEq_refl, segmentValue_not_NaN.
    + apply numEq_refl. discriminate.
  - rewrite nth_error_app2 by exact Hi.
    rewrite (proj2 (nth_error_None (split "." a) i) Hi).
    destruct (i - length (split "." a))%nat as [| [| k]]; cbn [nth_error].
    + exact Hv.
    + apply numEq_refl. discriminate.
    + apply numEq_refl. discriminate.
Qed.

(** X9: the comparator of the version list is a consistent comparator
    on all strings, numeric or not: a key ties with itself, swapping the
    arguments swaps the sign, going behind is transitive, and keys that
    tie compare alike with every third key. *)
Theorem comparator_consistent :
  forall a b c : string,
    isTie a a = true /\
    isPositive (compareVersions a b) = isNegative (compareVersions b a) /\
    (isPositive (compareVersions a b) = true ->
     isPositive (compareVersions b c) = true ->
     isPositive (compareVersions a c) = true) /\
    (isTie a b = true ->
     isPositive (compareVersions a c) = isPositive (compareVersions b c) /\
     isNegative (compareVersions a c) = isNegative (compareVersions b c)).
Proof.
  intros a b c. split; [| split; [| split]].
  - apply isTie_iff_tied, tied_refl.
  - apply eq_iff_eq_true.
    rewrite isPositive_iff_higher, isNegative_iff_higher. reflexivity.
  - intros H1 H2. apply isPositive_iff_higher in H1, H2.
    apply isPositive_iff_higher. exact (seqHigher_trans _ _ _ H2 H1).
  - intro H. apply isTie_iff_tied in H. split; apply eq_iff_eq_true.
    + rewrite !isPositive_iff_higher. split; intro Hh.
      * exact (seqHigher_tied_r _ _ _ H Hh).
      * exact (seqHigher_tied_r _ _ _ (seqTied_sym _ _ H) Hh).
    + rewrite !isNegative_iff_higher. split; intro Hh.
      * exact (seqHigher_tied_l _ _ _ H Hh).
      * exact (seqHigher_tied_l _ _ _ (seqTied_sym _ _ H) Hh).
Qed.

(** X10: only the values of the segments count.  Two keys that differ
    in their last segment only tie when these segments have the same
    value, so that a segment that is not numeric, such as 0-beta, is
    the same as 0; and a key followed by a further segment of value 0
    ties with the key itself. *)
Theorem segment_values_decide :
  forall a s1 s2 : string,
    lacks "." s1 -> lacks "." s2 ->
    (numEq (segmentValue s1) (segmentValue s2) ->
     isTie (a ++ "." ++ s1) (a ++ "." ++ s2) = true) /\
    (Number s1 = NaN -> isTie (a ++ "." ++ s1) (a ++ ".0") = true) /\
    (numEq (segmentValue s1) zero -> isTie (a ++ "." ++ s1) a = true).
Proof.
  intros a s1 s2 H1 H2. split; [| split].
  - intro Hv. apply isTie_iff_tied. exact (same_prefix_tied a s1 s2 H1 H2 Hv).
  - intro Hn. apply isTie_iff_tied.
    apply (same_prefix_tied a s1 "0" H1).
    + split; [discriminate | exact I].
    + unfold segmentValue. rewrite Hn. vm_compute. reflexivity.
  - intro Hv. apply isTie_iff_tied. exact (zero_suffix_tied a s1 H1 Hv).
Qed.

Lemma segment_values_decide_witness :
  isTie "1.0.0-beta" "1.0.0" = true /\ isTie "1.0.0" "1.0" = true.
Proof.
  split.
  - refine (proj1 (proj2 (segment_values_decide "1.0" "0-beta" "0" _ _)) eq_refl).
    + simpl. repeat split; discriminate.
    + simpl. repeat split; discriminate.
  - refine (proj2 (proj2 (segment_values_decide "1.0" "0" "0" _ _)) _).
    + simpl. repeat split; discriminate.
    + simpl. repeat split; discriminate.
    + vm_compute. reflexivity.
Defined.

Lemma Permutation_filter_same {A : Type} (p : A -> bool) (l1 l2 : list A) :
  Permutation l1 l2 -> Permutation (filter p l1) (filter p l2).
Proof.
  intro H. induction H as [| x l l' H IH | x y l | l l' l'' H1 IH1 H2 IH2]; simpl.
  - constructor.
  - destruct (p x); [apply perm_skip, IH | exact IH].
  - destruct (p x), (p y); try reflexivity. apply perm_swap.
  - exact (Permutation_trans IH1 IH2).
Qed.

Lemma at_most_one (l : list string) :
  NoDup l -> (forall a b, In a l -> In b l -> a = b) -> (length l <= 1)%nat.
Proof.
  intros Hnd Heq. destruct l as [| x [| y l]]; simpl; try lia.
  exfalso. inversion Hnd as [| ? ? Hx _]; subst. apply Hx.
  rewrite (Heq x y); [left; reflexivity | left; reflexivity | right; left; reflexivity].
Qed.

Lemma NoDup_filter_keep {A : Type} (p : A -> bool) (l : list A) :
  NoDup l -> NoDup (filter p l).
Proof.
  intro H. induction H as [| x l Hx H IH]; simpl; [constructor |].
  destruct (p x); [| exact IH].
  constructor; [| exact IH]. intro Hin. apply Hx.
  apply filter_In in Hin. exact (proj1 Hin).
Qed.

Lemma short_permutation (l1 l2 : list string) :
  (length l1 <= 1)%nat -> Permutation l1 l2 -> l1 = l2.
Proof.
  intros Hlen HP. destruct l1 as [| x [| y l1]]; simpl in Hlen; try lia.
  - apply Permutation_nil in HP. congruence.
  - apply Permutation_length_1_inv in HP. congruence.
Qed.

(** X11: when no two distinct version keys tie, the version list does
    not depend on the order the document lists the versions in: any two
    arrangements of the same keys sort to the same list. *)
Theorem sort_independent_of_key_order :
  forall l1 l2 : list string,
    Permutation l1 l2 ->
    NoDup l1 ->
    (forall a b, In a l1 -> In b l1 -> isTie a b = true -> a = b) ->
    sort compareVersions l1 = sort compareVersions l2.
Proof.
  intros l1 l2 HP Hnd Hties.
  destruct (sort_compareVersions l1) as [P1 [S1 F1]].
  destruct (sort_compareVersions l2) as [P2 [S2 F2]].
  apply stable_sorted_unique; [| exact S1 | exact S2 |].
  - exact (Permutation_trans (Permutation_sym P1) (Permutation_trans HP P2)).
  - intro k. rewrite F1, F2.
    apply short_permutation; [| apply Permutation_filter_same, HP].
    apply at_most_one; [apply NoDup_filter_keep, Hnd |].
    intros a b Ha Hb. apply filter_In in Ha, Hb.
    destruct Ha as [Ha Ta], Hb as [Hb Tb].
    apply (Hties a b Ha Hb). apply isTie_iff_tied.
    apply isTie_iff_tied in Ta, Tb.
    exact (seqTied_trans _ _ _ (seqTied_sym _ _ Ta) Tb).
Qed.

Lemma sort_independent_witness :
  sort compareVersions ["1.2.0"; "2.0.0"; "1.10.0"]
  = sort compareVersions ["1.10.0"; "1.2.0"; "2.0.0"].
Proof.
  apply sort_independent_of_key_order.
  - apply Permutation_sym.
    apply (Permutation_cons_app ["1.2.0"; "2.0.0"] [] "1.10.0"). reflexivity.
  - repeat constructor; simpl; intuition discriminate.
  - intros a b Ha Hb. simpl in Ha, Hb.
    destruct Ha as [<- | [<- | [<- | []]]], Hb as [<- | [<- | [<- | []]]];
      vm_compute; intro H; first [reflexivity | discriminate H].
Defined.

(** X12: a list of keys in which no key is followed by a higher one is
    left as it is by the sort; in particular sorting the version list a
    second time changes nothing. *)
Theorem sorted_keys_unchanged :
  forall l : list string,
    StronglySorted (fun a b => isPositive (compareVersions a b) = false) l ->
    sort compareVersions l = l /\
    sort compareVersions (sort compareVersions l) = sort compareVersions l.
Proof.
  intros l Hs.
  assert (H : sort compareVersions l = l).
  { destruct (sort_compareVersions l) as [P [S F]].
    apply stable_sorted_unique; [exact (Permutation_sym P) | exact S | | exact F].
    eapply StronglySorted_weaken; [| exact Hs].
    intros a b Hab Hh. apply isPositive_iff_higher in Hh. congruence. }
  split; [exact H |]. rewrite H. exact H.
Qed.

Lemma sorted_keys_unchanged_witness :
  sort compareVersions ["2.0.0"; "1.10.0"; "1.2.0"] = ["2.0.0"; "1.10.0"; "1.2.0"].
Proof.
  refine (proj1 (sorted_keys_unchanged ["2.0.0"; "1.10.0"; "1.2.0"] _)).
  repeat constructor; vm_compute; reflexivity.
Defined.

(* ================================================================== *)
(** ** The application *)
(* ================================================================== *)

Lemma trimEnd_idempotent (s : string) : trimEnd (trimEnd s) = trimEnd s.
Proof.
  induction s as [| c s IH]; [reflexivity |].
  simpl. destruct (trimEnd s) as [| d t] eqn:E.
  - destruct (isWhiteSpace c) eqn:W; [reflexivity |].
    simpl. rewrite W. reflexivity.
  - change (trimEnd (String c (String d t))) with
      (match trimEnd (String d t) with
       | EmptyString => if isWhiteSpace c then EmptyString else String c EmptyString
       | t' => String c t'
       end).
    rewrite IH. reflexivity.
Qed.

Lemma trimStart_head (s : string) :
  trimStart s = EmptyString \/
  exists c s', trimStart s = String c s' /\ isWhiteSpace c = false.
Proof.
  induction s as [| c s IH]; [left; reflexivity |].
  simpl. destruct (isWhiteSpace c) eqn:W; [exact IH |].
  right. exists c, s. split; [reflexivity | exact W].
Qed.

Lemma trimEnd_head (c : ascii) (s : string) :
  isWhiteSpace c = false -> exists t, trimEnd (String c s) = String c t.
Proof.
  intro W. simpl. destruct (trimEnd s) as [| d t].
  - rewrite W. exists EmptyString. reflexivity.
  - exists (String d t). reflexivity.
Qed.

Lemma trim_idempotent (s : string) : trim (trim s) = trim s.
Proof.
  unfold trim. destruct (trimStart_head s) as [E | [c [s' [E W]]]]; rewrite E.
  - reflexivity.
  - destruct (trimEnd_head c s' W) as [t Ht].
    assert (Hs : trimStart (trimEnd (String c s')) = trimEnd (String c s')).
    { rewrite Ht. simpl. rewrite W. reflexivity. }
    rewrite Hs. apply trimEnd_idempotent.
Qed.

(** The three ways [handleSearch] ends. *)
Lemma handleSearch_blank (h : Host) (versionToFetch pkgNameOverride : option string)
  (s : App.State) :
  orString pkgNameOverride (trim (App.packageName s)) = EmptyString ->
  App.handleSearch h versionToFetch pkgNameOverride s
  = {| App.packageName := App.packageName s;
       App.selectedVersion := Some EmptyString;
       App.availableVersions := [];
       App.packageData := None;
       App.securityAdvisories := [];
       App.loading := App.loading s;
       App.error := Some "Please enter a package name.";
       App.commandPaletteOpen := App.commandPaletteOpen s |}.
Proof. intro H. unfold App.handleSearch. rewrite H. reflexivity. Qed.

Lemma handleSearch_returned (h : Host) (versionToFetch pkgNameOverride : option string)
  (s : App.State) (r : PackageDetailsResponse.t) :
  orString pkgNameOverride (trim (App.packageName s)) <> EmptyString ->
  fetchPackageData h (orString pkgNameOverride (trim (App.packageName s))) versionToFetch
  = Returned r ->
  App.handleSearch h versionToFetch pkgNameOverride s
  = {| App.packageName :=
         if truthy pkgNameOverride then App.packageName s
         else orString pkgNameOverride (trim (App.packageName s));
       App.selectedVersion := NpmPackageData.version (PackageDetailsResponse.packageData r);
       App.availableVersions := PackageDetailsResponse.allVersions r;
       App.packageData := Some (PackageDetailsResponse.packageData r);
       App.securityAdvisories := [];
       App.loading := false;
       App.error := None;
       App.commandPaletteOpen := App.commandPaletteOpen s |}.
Proof.
  intros Hne Hr. unfold App.handleSearch, App.trySearch.
  apply String.eqb_neq in Hne. rewrite Hne, Hr.
  destruct (truthy pkgNameOverride); reflexivity.
Qed.

Lemma handleSearch_thrown (h : Host) (versionToFetch pkgNameOverride : option string)
  (s : App.State) (e : Failure) :
  orString pkgNameOverride (trim (App.packageName s)) <> EmptyString ->
  fetchPackageData h (orString pkgNameOverride (trim (App.packageName s))) versionToFetch
  = Thrown e ->
  App.handleSearch h versionToFetch pkgNameOverride s
  = {| App.packageName := App.packageName s;
       App.selectedVersion := Some EmptyString;
       App.availableVersions := [];
       App.packageData := None;
       App.securityAdvisories := [];
       App.loading := false;
       App.error := Some (orString (Some (message e)) "An unexpected error occurred.");
       App.commandPaletteOpen := App.commandPaletteOpen s |}.
Proof.
  intros Hne Hr. unfold App.handleSearch, App.trySearch.
  apply String.eqb_neq in Hne. rewrite Hne, Hr. reflexivity.
Qed.

Lemma orString_nonempty (a : option string) (b : string) :
  b <> EmptyString -> orString a b <> EmptyString.
Proof.
  intro Hb. unfold orString. destruct a as [t |]; [| exact Hb].
  destruct (t =? "") eqn:E; simpl; [exact Hb |].
  apply String.eqb_neq, E.
Qed.

Lemma handleSearch_settled (h : Host) (versionToFetch pkgNameOverride : option string)
  (s : App.State) :
  App.loading s = false ->
  settled (App.handleSearch h versionToFetch pkgNameOverride s).
Proof.
  intro Hl.
  destruct (string_dec (orString pkgNameOverride (trim (App.packageName s))) EmptyString)
    as [Hb | Hn].
  - rewrite (handleSearch_blank _ _ _ _ Hb). unfold settled. simpl.
    repeat split; try assumption; try discriminate. right. reflexivity.
  - destruct (fetchPackageData h (orString pkgNameOverride (trim (App.packageName s)))
                versionToFetch) as [r | e] eqn:Hr.
    + rewrite (handleSearch_returned _ _ _ _ _ Hn Hr). unfold settled. simpl.
      repeat split; try discriminate. left. reflexivity.
    + rewrite (handleSearch_thrown _ _ _ _ _ Hn Hr). unfold settled. simpl.
      repeat split; try discriminate.
      * intro H. injection H as H. revert H.
        destruct (message e =? "") eqn:E; [discriminate |].
        apply String.eqb_neq, E.
      * right. reflexivity.
Qed.

Lemma step_settled (h : Host) (e : App.Event) (s : App.State) :
  settled s -> settled (App.step h e s).
Proof.
  intro Hs. pose proof Hs as [Hl [Ha [He [Hx Hv]]]].
  destruct e as [| value | newVersion | ctrlKey metaKey key | pkg | | |]; simpl.
  - apply handleSearch_settled, Hl.
  - unfold App.onChange. destruct (value =? ""); unfold settled; simpl.
    + repeat split; try assumption; try discriminate. left. reflexivity.
    + split; [exact Hl | split; [exact Ha | split; [exact He | split; [exact Hx | exact Hv]]]].
  - apply handleSearch_settled. exact Hl.
  - unfold App.handleGlobalKeyDown.
    destruct ((ctrlKey || metaKey) && (key =? "k")%string); exact Hs.
  - unfold App.searchPackageCommand.
    destruct (truthy pkg); [| exact Hs].
    destruct pkg as [text |]; [| exact Hs].
    exact (handleSearch_settled h None (Some (trim text)) s Hl).
  - unfold settled. simpl. repeat split; try assumption; try discriminate.
    left. reflexivity.
  - exact Hs.
  - exact Hs.
Qed.

Lemma run_settled (events : list (Host * App.Event)) (s : App.State) :
  settled s -> settled (App.run events s).
Proof.
  revert s. induction events as [| [h e] events IH]; intros s Hs; [exact Hs |].
  simpl. apply IH, step_settled, Hs.
Qed.

Lemma initial_settled : settled App.initial.
Proof.
  unfold settled. simpl. repeat split; try discriminate. left. reflexivity.
Qed.

(** X13: a search with a blank package name (nothing but white space in
    the input, and no name given by the palette) sends no request: the
    state it leaves is the same whatever the network would answer, with
    the error asking for a package name, and without package data,
    versions or advisories; the input text and the loading flag are
    left as they are. *)
Theorem blank_search_sends_no_request :
  forall h versionToFetch pkgNameOverride s,
    truthy pkgNameOverride = false ->
    trim (App.packageName s) = EmptyString ->
    let s' := App.handleSearch h versionToFetch pkgNameOverride s in
    App.error s' = Some "Please enter a package name." /\
    App.packageData s' = None /\
    App.availableVersions s' = [] /\
    App.selectedVersion s' = Some EmptyString /\
    App.securityAdvisories s' = [] /\
    App.packageName s' = App.packageName s /\
    App.loading s' = App.loading s /\
    forall h' versionToFetch',
      App.handleSearch h' versionToFetch' pkgNameOverride s = s'.
Proof.
  intros h v o s Ho Hs s'.
  assert (Hb : orString o (trim (App.packageName s)) = EmptyString).
  { unfold orString. unfold truthy in Ho. destruct o as [t |]; [| exact Hs].
    destruct (t =? ""); [exact Hs | discriminate Ho]. }
  subst s'. rewrite (handleSearch_blank h v o s Hb). simpl.
  repeat split. intros h' v'. apply handleSearch_blank, Hb.
Qed.

Lemma blank_search_witness :
  App.error (App.handleSearch (hostOf sampleDocument) None None
               (App.setPackageName "   " App.initial))
  = Some "Please enter a package name.".
Proof.
  exact (proj1 (blank_search_sends_no_request (hostOf sampleDocument) None None
                  (App.setPackageName "   " App.initial) eq_refl eq_refl)).
Defined.

(** X14: a search for a name that is not blank shows what the service
    answers for that name.  When the service returns, the state holds
    its package data, its version list and the version of the data, and
    no error; when it throws, the state holds the message of the error
    (a fixed text when the message is empty), which is never empty, and
    no package data, version or version list.  Loading is over in both
    cases and no advisory is listed. *)
Theorem search_reflects_service :
  forall h versionToFetch pkgNameOverride s,
    let currentPackageName := orString pkgNameOverride (trim (App.packageName s)) in
    let s' := App.handleSearch h versionToFetch pkgNameOverride s in
    currentPackageName <> EmptyString ->
    (forall r,
        fetchPackageData h currentPackageName versionToFetch = Returned r ->
        App.packageData s' = Some (PackageDetailsResponse.packageData r) /\
        App.availableVersions s' = PackageDetailsResponse.allVersions r /\
        App.selectedVersion s'
        = NpmPackageData.version (PackageDetailsResponse.packageData r) /\
        App.error s' = None) /\
    (forall e,
        fetchPackageData h currentPackageName versionToFetch = Thrown e ->
        App.error s' = Some (if message e =? "" then "An unexpected error occurred."
                             else message e) /\
        App.error s' <> Some EmptyString /\
        App.packageData s' = None /\
        App.availableVersions s' = [] /\
        App.selectedVersion s' = Some EmptyString /\
        App.packageName s' = App.packageName s) /\
    App.loading s' = false /\
    App.securityAdvisories s' = [].
Proof.
  intros h v o s n s' Hn. subst n s'.
  destruct (fetchPackageData h (orString o (trim (App.packageName s))) v)
    as [r | e] eqn:Hr.
  - rewrite (handleSearch_returned _ _ _ _ _ Hn Hr). simpl.
    split; [| split; [| split; reflexivity]].
    + intros r' H. injection H as <-. repeat split.
    + intros e H. discriminate H.
  - rewrite (handleSearch_thrown _ _ _ _ _ Hn Hr). simpl.
    split; [| split; [| split; reflexivity]].
    + intros r H. discriminate H.
    + intros e' H. injection H as <-. unfold orString, truthy.
      destruct (message e =? "") eqn:E; simpl; repeat split; try discriminate.
      intro H. injection H as H. apply String.eqb_neq in E. exact (E H).
Qed.

Lemma search_reflects_service_witness :
  App.error (App.handleSearch (failingHost 404 "Not Found") None None
               (App.setPackageName " widget " App.initial))
  = Some (message (NotFound "widget")).
Proof.
  refine (proj1 (proj1 (proj2 (search_reflects_service (failingHost 404 "Not Found")
                                 None None
                                 (App.setPackageName " widget " App.initial) _))
                   (NotFound "widget") eq_refl)).
  discriminate.
Defined.


(** X16: after any session the advisory list is empty: the security
    advisories of a package are never fetched from anywhere, so that
    the security card of every package says that no known
    vulnerabilities were found. *)
Theorem no_advisory_ever_listed :
  forall events : list (Host * App.Event),
    App.securityAdvisories (App.run events App.initial) = [] /\
    PackageCard.securityStatus (App.securityAdvisories (App.run events App.initial))
    = PackageCard.NoKnownVulnerabilities /\
    forall packageName version,
      fetchSecurityAdvisories packageName version = Returned [].
Proof.
  intro events.
  pose proof (proj1 (proj2 (run_settled events App.initial initial_settled))) as H.
  split; [exact H | split; [rewrite H; reflexivity | reflexivity]].
Qed.

Lemma handleSearch_reads (h : Host) (versionToFetch pkgNameOverride : option string)
  (s s' : App.State) :
  App.packageName s' = App.packageName s ->
  App.loading s' = App.loading s ->
  App.commandPaletteOpen s' = App.commandPaletteOpen s ->
  App.handleSearch h versionToFetch pkgNameOverride s'
  = App.handleSearch h versionToFetch pkgNameOverride s.
Proof.
  intros Hn Hl Hc.
  destruct (string_dec (orString pkgNameOverride (trim (App.packageName s))) EmptyString)
    as [Hb | Hne].
  - rewrite (handleSearch_blank h versionToFetch pkgNameOverride s Hb).
    rewrite <- Hn in Hb.
    rewrite (handleSearch_blank h versionToFetch pkgNameOverride s' Hb).
    rewrite Hn, Hl, Hc. reflexivity.
  - destruct (fetchPackageData h (orString pkgNameOverride (trim (App.packageName s)))
                versionToFetch) as [r | e] eqn:Hr.
    + rewrite (handleSearch_returned h versionToFetch pkgNameOverride s r Hne Hr).
      rewrite <- Hn in Hne, Hr.
      rewrite (handleSearch_returned h versionToFetch pkgNameOverride s' r Hne Hr).
      rewrite Hn, Hc. reflexivity.
    + rewrite (handleSearch_thrown h versionToFetch pkgNameOverride s e Hne Hr).
      rewrite <- Hn in Hne, Hr.
      rewrite (handleSearch_thrown h versionToFetch pkgNameOverride s' e Hne Hr).
      rewrite Hn, Hc. reflexivity.
Qed.

(** X17: choosing a version searches for the text of the input, not for
    the package on display: the state it leaves depends on the input
    text only.  So after a search made from the palette while the input
    is blank, choosing a version of the package found replaces it by
    the error asking for a package name. *)
Theorem version_change_reads_input :
  forall h newVersion s,
    (forall s',
        App.packageName s' = App.packageName s ->
        App.loading s' = App.loading s ->
        App.commandPaletteOpen s' = App.commandPaletteOpen s ->
        App.handleVersionChange h newVersion s'
        = App.handleVersionChange h newVersion s) /\
    (trim (App.packageName s) = EmptyString ->
     forall h0 pkg,
       let s' := App.handleVersionChange h newVersion
                   (App.onClose (App.searchPackageCommand h0 pkg s)) in
       App.error s' = Some "Please enter a package name." /\
       App.packageData s' = None /\
       App.availableVersions s' = []).
Proof.
  intros h v s. split.
  - intros s' Hn Hl Hc. unfold App.handleVersionChange; cbv zeta.
    apply handleSearch_reads; assumption.
  - intros Hb h0 pkg s'.
    assert (Hname : trim (App.packageName (App.onClose (App.searchPackageCommand h0 pkg s)))
                    = EmptyString).
    { unfold App.searchPackageCommand.
      destruct (truthy pkg); [| exact Hb].
      destruct pkg as [text |]; [| exact Hb].
      destruct (string_dec (orString (Some (trim text)) (trim (App.packageName s)))
                  EmptyString) as [Hblank | Hne].
      - rewrite (handleSearch_blank _ _ _ _ Hblank). exact Hb.
      - assert (Ht : truthy (Some (trim text)) = true).
        { apply truthy_Some. intro E. apply Hne. unfold orString. rewrite E. exact Hb. }
        destruct (fetchPackageData h0 (orString (Some (trim text)) (trim (App.packageName s)))
                    None) as [r | e] eqn:Hr.
        + rewrite (handleSearch_returned _ _ _ _ _ Hne Hr).
          unfold App.onClose, App.setCommandPaletteOpen. cbn [App.packageName].
          rewrite Ht. exact Hb.
        + rewrite (handleSearch_thrown _ _ _ _ _ Hne Hr). exact Hb. }
    subst s'. unfold App.handleVersionChange; cbv zeta.
    rewrite handleSearch_blank by exact Hname. simpl. repeat split.
Qed.

Lemma version_change_reads_input_witness :
  App.packageData (App.onClose (App.searchPackageCommand (hostOf sampleDocument)
                                  (Some "widget") App.initial)) <> None /\
  App.error (App.handleVersionChange (hostOf sampleDocument) "1.2.0"
               (App.onClose (App.searchPackageCommand (hostOf sampleDocument)
                               (Some "widget") App.initial)))
  = Some "Please enter a package name.".
Proof.
  split; [discriminate |].
  exact (proj1 (proj2 (version_change_reads_input (hostOf sampleDocument) "1.2.0"
                         App.initial) eq_refl (hostOf sampleDocument) (Some "widget"))).
Defined.

(** X18: after a search from the form that succeeded, choosing a
    version resolves that version of the same package: the state holds
    what the service returns for the trimmed name and the version
    chosen, and the version list offered stays the same. *)
Theorem version_change_after_search :
  forall h newVersion s r0 r,
    trim (App.packageName s) <> EmptyString ->
    fetchPackageData h (trim (App.packageName s)) None = Returned r0 ->
    fetchPackageData h (trim (App.packageName s)) (Some newVersion) = Returned r ->
    let s1 := App.handleSearch h None None s in
    let s2 := App.handleVersionChange h newVersion s1 in
    App.packageName s2 = trim (App.packageName s) /\
    App.packageData s2 = Some (PackageDetailsResponse.packageData r) /\
    App.selectedVersion s2
    = NpmPackageData.version (PackageDetailsResponse.packageData r) /\
    App.availableVersions s2 = App.availableVersions s1 /\
    App.error s2 = None.
Proof.
  intros h v s r0 r Hne H0 Hr s1 s2.
  assert (E1 : s1 = App.handleSearch h None None s) by reflexivity.
  rewrite (handleSearch_returned h None None s r0 Hne H0) in E1. simpl in E1.
  subst s2. unfold App.handleVersionChange; cbv zeta.
  assert (Hn1 : App.packageName (App.setSelectedVersion (Some v) s1)
                = trim (App.packageName s)) by (rewrite E1; reflexivity).
  assert (Hne' : orString None (trim (App.packageName (App.setSelectedVersion (Some v) s1)))
                 <> EmptyString).
  { rewrite Hn1, trim_idempotent. exact Hne. }
  assert (Hr' : fetchPackageData h
                  (orString None (trim (App.packageName (App.setSelectedVersion (Some v) s1))))
                  (Some v) = Returned r).
  { rewrite Hn1, trim_idempotent. exact Hr. }
  rewrite (handleSearch_returned h (Some v) None _ r Hne' Hr').
  cbn [App.packageName App.packageData App.selectedVersion App.availableVersions
         App.error truthy orString].
  rewrite Hn1, trim_idempotent.
  repeat split.
  rewrite E1. cbn [App.availableVersions].
  destruct (fetchPackageData_assembled _ _ _ _ Hr) as [d1 [t1 [f1 [Hd1 [_ [_ Er]]]]]].
  destruct (fetchPackageData_assembled _ _ _ _ H0) as [d2 [t2 [f2 [Hd2 [_ [_ Er0]]]]]].
  assert (Hd : d1 = d2) by congruence.
  rewrite Er, Er0, Hd. reflexivity.
Qed.

Lemma version_change_after_search_witness :
  App.selectedVersion
    (App.handleVersionChange (hostOf sampleDocument) "1.2.0"
       (App.handleSearch (hostOf sampleDocument) None None
          (App.setPackageName " widget " App.initial)))
  = Some "1.2.0".
Proof.
  refine (proj1 (proj2 (proj2 (version_change_after_search (hostOf sampleDocument) "1.2.0"
                                 (App.setPackageName " widget " App.initial)
                                 _ _ _ eq_refl eq_refl)))).
  discriminate.
Defined.

(** X19: the Search Package command of the palette.  A cancelled or
    empty answer to the prompt changes nothing; an answer of white space
    only acts as submitting the form; any other answer searches for the
    trimmed answer (latest version) and leaves the text of the input as
    it is, whether the search succeeds or not. *)
Theorem palette_search_behaviour :
  forall h s,
    App.searchPackageCommand h None s = s /\
    App.searchPackageCommand h (Some EmptyString) s = s /\
    (forall text,
        text <> EmptyString -> trim text = EmptyString ->
        App.searchPackageCommand h (Some text) s = App.handleSearch h None None s) /\
    (forall text,
        trim text <> EmptyString ->
        let s' := App.searchPackageCommand h (Some text) s in
        App.packageName s' = App.packageName s /\
        (forall r, fetchPackageData h (trim text) None = Returned r ->
                   App.packageData s' = Some (PackageDetailsResponse.packageData r)) /\
        (forall e, fetchPackageData h (trim text) None = Thrown e ->
                   App.packageData s' = None /\ App.error s' <> None)).
Proof.
  intros h s. split; [reflexivity | split; [reflexivity | split]].
  - intros text Hne Ht. unfold App.searchPackageCommand.
    rewrite (truthy_Some text Hne), Ht.
    unfold App.handleSearch, App.trySearch. reflexivity.
  - intros text Ht s'.
    assert (Hne : text <> EmptyString) by (intros ->; apply Ht; reflexivity).
    assert (Hcur : orString (Some (trim text)) (trim (App.packageName s)) = trim text)
      by (apply orString_truthy, Ht).
    assert (Hs' : s' = App.handleSearch h None (Some (trim text)) s).
    { subst s'. unfold App.searchPackageCommand. rewrite (truthy_Some text Hne).
      reflexivity. }
    assert (Hcur' : orString (Some (trim text)) (trim (App.packageName s)) <> EmptyString)
      by (rewrite Hcur; exact Ht).
    destruct (fetchPackageData h (trim text) None) as [r | e] eqn:Hr.
    + rewrite <- Hcur in Hr.
      rewrite (handleSearch_returned _ _ _ _ _ Hcur' Hr) in Hs'. rewrite Hs'.
      cbn [App.packageName App.packageData App.error].
      rewrite (truthy_Some _ Ht).
      split; [reflexivity | split].
      * intros r' H. injection H as <-. reflexivity.
      * intros e H. discriminate H.
    + rewrite <- Hcur in Hr.
      rewrite (handleSearch_thrown _ _ _ _ _ Hcur' Hr) in Hs'. rewrite Hs'. simpl.
      split; [reflexivity | split].
      * intros r H. discriminate H.
      * intros e' H. split; [reflexivity | discriminate].
Qed.

Lemma palette_search_witness :
  App.packageName (App.searchPackageCommand (hostOf sampleDocument) (Some " widget ")
                     (App.setPackageName "other" App.initial))
  = "other".
Proof.
  refine (proj1 (proj2 (proj2 (proj2 (palette_search_behaviour (hostOf sampleDocument)
                                        (App.setPackageName "other" App.initial))))
                   " widget " _)).
  discriminate.
Defined.

(* ================================================================== *)
(** ** The command palette *)
(* ================================================================== *)

Lemma includes_names (s t : string) :
  CommandPalette.includes s t = true <-> names s t.
Proof.
  split.
  - induction s as [| c s IH]; simpl.
    + destruct (stripPrefix t EmptyString) as [r |] eqn:E; [| discriminate].
      intros _. apply stripPrefix_Some in E. exists EmptyString, r. exact E.
    + destruct (stripPrefix t (String c s)) as [r |] eqn:E.
      * intros _. apply stripPrefix_Some in E. exists EmptyString, r. exact E.
      * intro H. destruct (IH H) as [pre [post Hs]].
        exists (String c pre), post. simpl. rewrite Hs. reflexivity.
  - intros [pre [post Hs]]. revert s Hs.
    induction pre as [| c pre IH]; intros s Hs.
    + simpl in Hs.
      assert (E : stripPrefix t s = Some post) by (apply stripPrefix_Some; exact Hs).
      destruct s; simpl; rewrite E; reflexivity.
    + simpl in Hs. subst s. simpl.
      destruct (stripPrefix t (String c (pre ++ t ++ post))); [reflexivity |].
      apply IH. reflexivity.
Qed.

Lemma names_trans (x y z : string) : names x y -> names y z -> names x z.
Proof.
  intros [p1 [q1 H1]] [p2 [q2 H2]]. exists (p1 ++ p2), (q2 ++ q1).
  rewrite H1, H2. rewrite !append_assoc. reflexivity.
Qed.

Lemma names_refl (x : string) : names x x.
Proof. exists EmptyString, EmptyString. simpl. rewrite append_empty_r. reflexivity. Qed.

Lemma names_empty (x : string) : names x EmptyString.
Proof. exists EmptyString, x. reflexivity. Qed.

Lemma toLowerCase_append (a b : string) :
  CommandPalette.toLowerCase (a ++ b)
  = CommandPalette.toLowerCase a ++ CommandPalette.toLowerCase b.
Proof. induction a as [| c a IH]; simpl; [| rewrite IH]; reflexivity. Qed.

Lemma toLowerCase_names (s t : string) :
  names s t -> names (CommandPalette.toLowerCase s) (CommandPalette.toLowerCase t).
Proof.
  intros [pre [post ->]].
  exists (CommandPalette.toLowerCase pre), (CommandPalette.toLowerCase post).
  rewrite !toLowerCase_append. reflexivity.
Qed.

Lemma toLowerCaseUnit_idempotent (c : ascii) :
  CommandPalette.toLowerCaseUnit (CommandPalette.toLowerCaseUnit c)
  = CommandPalette.toLowerCaseUnit c.
Proof. destruct c as [[] [] [] [] [] [] [] []]; vm_compute; reflexivity. Qed.

Lemma toLowerCase_idempotent (s : string) :
  CommandPalette.toLowerCase (CommandPalette.toLowerCase s) = CommandPalette.toLowerCase s.
Proof.
  induction s as [| c s IH]; simpl; [reflexivity |].
  rewrite toLowerCaseUnit_idempotent, IH. reflexivity.
Qed.

Lemma matches_narrower {A : Type} (term term' : string)
  (command : CommandPalette.Command A) :
  names term' term ->
  CommandPalette.matches term' command = true ->
  CommandPalette.matches term command = true.
Proof.
  intros Hn. apply toLowerCase_names in Hn.
  unfold CommandPalette.matches. intro H.
  apply orb_true_iff in H. apply orb_true_iff. destruct H as [H | H].
  - left. apply includes_names. apply includes_names in H.
    exact (names_trans _ _ _ H Hn).
  - right. destruct (CommandPalette.keywords command) as [ks |]; [| discriminate].
    apply existsb_exists in H. destruct H as [k [Hk H]].
    apply existsb_exists. exists k. split; [exact Hk |].
    apply includes_names. apply includes_names in H.
    exact (names_trans _ _ _ H Hn).
Qed.

(** X20: the filter of the palette.  The empty search term keeps every
    command, in order; matching ignores the case of the term; and a
    command is always found by its own name and by each of its
    keywords, however they are capitalised in the term. *)
Theorem palette_filter_matching :
  forall (A : Type) (commands : list (CommandPalette.Command A)),
    CommandPalette.filteredCommands commands EmptyString = commands /\
    (forall term,
        CommandPalette.filteredCommands commands (CommandPalette.toLowerCase term)
        = CommandPalette.filteredCommands commands term) /\
    (forall command term,
        In command commands ->
        CommandPalette.toLowerCase term
        = CommandPalette.toLowerCase (CommandPalette.name command) \/
        (exists ks keyword,
            CommandPalette.keywords command = Some ks /\ In keyword ks /\
            CommandPalette.toLowerCase term = CommandPalette.toLowerCase keyword) ->
        In command (CommandPalette.filteredCommands commands term)).
Proof.
  intros A commands. split; [| split].
  - unfold CommandPalette.filteredCommands.
    induction commands as [| c cs IH]; [reflexivity |].
    simpl. rewrite IH.
    assert (H : CommandPalette.matches EmptyString c = true).
    { unfold CommandPalette.matches. apply orb_true_iff. left.
      apply includes_names, names_empty. }
    rewrite H. reflexivity.
  - intro term. unfold CommandPalette.filteredCommands, CommandPalette.matches.
    rewrite toLowerCase_idempotent. reflexivity.
  - intros command term Hin H. apply filter_In. split; [exact Hin |].
    unfold CommandPalette.matches. apply orb_true_iff.
    destruct H as [-> | [ks [keyword [Hks [Hk ->]]]]].
    + left. apply includes_names, names_refl.
    + right. rewrite Hks. apply existsb_exists. exists keyword.
      split; [exact Hk | apply includes_names, names_refl].
Qed.

Lemma palette_filter_matching_witness :
  In (nth 1 CommandPalette.appCommands
          {| CommandPalette.id := EmptyString; CommandPalette.name := EmptyString;
             CommandPalette.action := CommandPalette.RunHelp;
             CommandPalette.keywords := None |})
     (CommandPalette.filteredCommands CommandPalette.appCommands "RESET").
Proof.
  refine (proj2 (proj2 (palette_filter_matching _ CommandPalette.appCommands)) _ "RESET" _ _).
  - right. left. reflexivity.
  - right. exists ["reset"; "empty"], "reset".
    split; [reflexivity | split; [left; reflexivity | reflexivity]].
Defined.

(** X21: extending the search term never brings a command back: when
    the old term occurs in the new one, the commands kept for the new
    term are among those kept for the old one, and filtering the old
    result again gives the same list as filtering all the commands. *)
Theorem refining_term_narrows :
  forall (A : Type) (commands : list (CommandPalette.Command A)) (term term' : string),
    CommandPalette.includes term' term = true ->
    incl (CommandPalette.filteredCommands commands term')
         (CommandPalette.filteredCommands commands term) /\
    CommandPalette.filteredCommands (CommandPalette.filteredCommands commands term) term'
    = CommandPalette.filteredCommands commands term'.
Proof.
  intros A commands term term' H. apply includes_names in H. split.
  - intros c Hc. apply filter_In in Hc. destruct Hc as [Hin Hm].
    apply filter_In. split; [exact Hin | exact (matches_narrower _ _ _ H Hm)].
  - unfold CommandPalette.filteredCommands.
    induction commands as [| c cs IH]; [reflexivity |].
    simpl. destruct (CommandPalette.matches term c) eqn:E.
    + simpl. rewrite IH. reflexivity.
    + rewrite IH. destruct (CommandPalette.matches term' c) eqn:E'; [| reflexivity].
      rewrite (matches_narrower _ _ _ H E') in E. discriminate E.
Qed.

Lemma refining_term_witness :
  CommandPalette.filteredCommands
    (CommandPalette.filteredCommands CommandPalette.appCommands "e") "re"
  = CommandPalette.filteredCommands CommandPalette.appCommands "re".
Proof.
  exact (proj2 (refining_term_narrows _ CommandPalette.appCommands "e" "re" eq_refl)).
Defined.

Lemma at_Some {A : Type} (l : list A) (i : Z) :
  (0 <= i < Z.of_nat (length l))%Z -> exists x, CommandPalette.at_ l i = Some x.
Proof.
  intros [H0 H1]. unfold CommandPalette.at_.
  destruct (i <? 0)%Z eqn:E; [apply Z.ltb_lt in E; lia |].
  destruct (nth_error l (Z.to_nat i)) as [x |] eqn:N; [exists x; reflexivity |].
  apply nth_error_None in N. lia.
Qed.

Lemma at_None {A : Type} (l : list A) (i : Z) :
  (i < 0 \/ Z.of_nat (length l) <= i)%Z -> CommandPalette.at_ l i = None.
Proof.
  intro H. unfold CommandPalette.at_.
  destruct (i <? 0)%Z eqn:E; [reflexivity |].
  apply Z.ltb_ge in E. apply nth_error_None. lia.
Qed.



(** X23: which keys act.  A key runs a command only if it is Enter and
    the selected index lies inside the list of filtered commands, and
    then it runs one command; the palette is closed by Escape and by an
    Enter that runs a command, by nothing else.  With no command left
    by the filter, no key runs anything, and ArrowUp moves the index
    from 0 to -1. *)
Theorem keys_that_act :
  forall (A : Type) (commands : list (CommandPalette.Command A)) (i : Z) (key : string),
    let requests := CommandPalette.handleKeyDown commands i key in
    let inside := (0 <= i < Z.of_nat (length commands))%Z in
    (CommandPalette.actionsOf requests <> [] <-> key = "Enter" /\ inside) /\
    (length (CommandPalette.actionsOf requests) <= 1)%nat /\
    (In CommandPalette.OnClose requests <-> key = "Escape" \/ (key = "Enter" /\ inside)) /\
    (commands = [] ->
     CommandPalette.actionsOf requests = [] /\
     CommandPalette.selectedAfter
       (CommandPalette.handleKeyDown commands 0%Z "ArrowUp") 0%Z = (-1)%Z).
Proof.
  intros A commands i key requests inside.
  assert (Hempty : commands = [] ->
                   CommandPalette.selectedAfter
                     (CommandPalette.handleKeyDown commands 0%Z "ArrowUp") 0%Z = (-1)%Z)
    by (intros ->; reflexivity).
  assert (Hlen : commands = [] -> ~ inside)
    by (intros -> H; unfold inside in H; simpl in H; lia).
  revert Hempty Hlen. generalize (CommandPalette.selectedAfter
    (CommandPalette.handleKeyDown commands 0%Z "ArrowUp") 0%Z). intros z Hempty Hlen.
  subst requests. unfold CommandPalette.handleKeyDown.
  destruct (key =? "Escape") eqn:E1;
    [apply String.eqb_eq in E1; subst key; simpl;
     intuition (try discriminate; try congruence; try lia) |].
  destruct (key =? "ArrowUp") eqn:E2;
    [apply String.eqb_eq in E2; subst key; simpl;
     intuition (try discriminate; try congruence; try lia) |].
  destruct (key =? "ArrowDown") eqn:E3;
    [apply String.eqb_eq in E3; subst key; simpl;
     intuition (try discriminate; try congruence; try lia) |].
  apply String.eqb_neq in E1.
  destruct (key =? "Enter") eqn:E4.
  - apply String.eqb_eq in E4. subst key.
    destruct (Z_lt_dec i 0) as [Hneg | Hpos];
      [| destruct (Z_lt_dec i (Z.of_nat (length commands))) as [Hin | Hout]].
    + assert (Hno : ~ inside) by (unfold inside; lia).
      rewrite (at_None commands i) by lia. simpl.
      intuition (try discriminate; try congruence; try lia).
    + assert (Hyes : inside) by (unfold inside; lia).
      destruct (at_Some commands i) as [c Hc]; [exact Hyes |]. rewrite Hc. simpl.
      intuition (try discriminate; try congruence; try lia).
    + assert (Hno : ~ inside) by (unfold inside; lia).
      rewrite (at_None commands i) by lia. simpl.
      intuition (try discriminate; try congruence; try lia).
  - apply String.eqb_neq in E4. simpl.
    intuition (try discriminate; try congruence; try lia).
Qed.

Lemma keys_that_act_witness :
  CommandPalette.actionsOf
    (CommandPalette.handleKeyDown
       (CommandPalette.filteredCommands CommandPalette.appCommands "zzz") 0%Z "Enter")
  = [].
Proof.
  exact (proj1 (proj2 (proj2 (proj2 (keys_that_act _
           (CommandPalette.filteredCommands CommandPalette.appCommands "zzz")
           0%Z "Enter"))) eq_refl)).
Defined.

(* ================================================================== *)
(** ** The package card *)
(* ================================================================== *)

Lemma hd_split (c : ascii) (s : string) :
  hd EmptyString (split c s) = takeWhile (fun d => negb (Ascii.eqb d c)) s.
Proof.
  induction s as [| a s IH]; [reflexivity |].
  simpl. destruct (Ascii.eqb a c); simpl; [reflexivity |].
  rewrite <- IH. destruct (split c s); reflexivity.
Qed.

Lemma takeWhile_word (scheme rest : string) :
  PackageCard.wordOnly scheme = true ->
  takeWhile PackageCard.isWord (scheme ++ String ":" rest) = scheme /\
  dropWhile PackageCard.isWord (scheme ++ String ":" rest) = String ":" rest.
Proof.
  induction scheme as [| a scheme IH]; simpl.
  - intros _. split; reflexivity.
  - intro H. apply andb_true_iff in H. destruct H as [Ha Hs].
    rewrite Ha. destruct (IH Hs) as [H1 H2]. rewrite H1, H2. split; reflexivity.
Qed.

Lemma hd_split_host (host rest : string) :
  lacks "/" host ->
  rest = EmptyString \/ (exists r, rest = String "/" r) ->
  hd EmptyString (split "/" (host ++ rest)) = host.
Proof.
  intros Hl [-> | [r ->]]; rewrite hd_split.
  - rewrite append_empty_r. apply takeWhile_lacks_all, Hl.
  - apply takeWhile_lacks, Hl.
Qed.

(** X24: the text of the homepage link never holds a slash.  For a
    homepage made of a scheme of word characters, a colon and two
    slashes, a host and a path, it is the host; so it is for a homepage
    that starts with the two slashes. *)
Theorem homepage_label_is_host :
  (forall homepage, lacks "/" (PackageCard.homepageLabel homepage)) /\
  (forall scheme host rest,
      scheme <> EmptyString ->
      PackageCard.wordOnly scheme = true ->
      lacks "/" host ->
      rest = EmptyString \/ (exists r, rest = String "/" r) ->
      PackageCard.homepageLabel (scheme ++ "://" ++ host ++ rest) = host /\
      PackageCard.homepageLabel ("//" ++ host ++ rest) = host).
Proof.
  split.
  - intro homepage. unfold PackageCard.homepageLabel. rewrite hd_split.
    apply lacks_takeWhile.
  - intros scheme host rest Hne Hw Hl Hrest. split.
    + unfold PackageCard.homepageLabel, PackageCard.removeScheme.
      change (scheme ++ "://" ++ host ++ rest)
        with (scheme ++ String ":" ("//" ++ host ++ rest)).
      destruct (takeWhile_word scheme ("//" ++ host ++ rest) Hw) as [H1 H2].
      rewrite H1, H2.
      destruct scheme as [| a scheme]; [exfalso; apply Hne; reflexivity |].
      assert (E : stripPrefix "://" (String ":" ("//" ++ host ++ rest))
                  = Some (host ++ rest)) by (apply stripPrefix_Some; reflexivity).
      rewrite E. apply hd_split_host; assumption.
    + unfold PackageCard.homepageLabel, PackageCard.removeScheme.
      change (takeWhile PackageCard.isWord ("//" ++ host ++ rest)) with EmptyString.
      assert (E : stripPrefix "//" ("//" ++ host ++ rest) = Some (host ++ rest))
        by (apply stripPrefix_Some; reflexivity).
      rewrite E. apply hd_split_host; assumption.
Qed.

Lemma homepage_label_witness :
  PackageCard.homepageLabel "https://widget.example/docs/index.html" = "widget.example".
Proof.
  refine (proj1 (proj2 homepage_label_is_host "https" "widget.example" "/docs/index.html"
                   _ eq_refl _ _)).
  - discriminate.
  - simpl. repeat split; discriminate.
  - right. exists "docs/index.html". reflexivity.
Defined.

Lemma last_slash (s : string) :
  lacks "/" s \/ exists pre name, s = pre ++ String "/" name /\ lacks "/" name.
Proof.
  induction s as [| a s IH]; [left; exact I |].
  destruct IH as [Hl | [pre [name [-> Hl]]]].
  - destruct (ascii_dec a "/") as [-> | Hne].
    + right. exists EmptyString, s. split; [reflexivity | exact Hl].
    + left. split; assumption.
  - right. exists (String a pre), name. split; [reflexivity | exact Hl].
Qed.

Lemma last_split (pre name : string) :
  lacks "/" name -> last (split "/" (pre ++ String "/" name)) EmptyString = name.
Proof. intro H. rewrite (split_append _ _ _ H). apply last_last. Qed.

(** X25: the repository link.  Its text never holds a slash and is what
    follows the last slash of its target (the whole target when it has
    no slash); for a repository URL of the form git+ base / name .git
    the target is base / name and the text is name. *)
Theorem repository_label_is_last_segment :
  forall repository,
    let href := PackageCard.repositoryHref repository in
    let label := PackageCard.repositoryLabel repository in
    lacks "/" label /\
    ((lacks "/" href /\ label = href) \/ exists pre, href = pre ++ "/" ++ label) /\
    (forall base name,
        lacks "/" name ->
        repository = "git+" ++ base ++ "/" ++ name ++ ".git" ->
        href = base ++ "/" ++ name /\ label = name).
Proof.
  intros repository href label. subst label. unfold PackageCard.repositoryLabel.
  fold href.
  assert (Hgen : forall s,
             lacks "/" (last (split "/" s) EmptyString) /\
             ((lacks "/" s /\ last (split "/" s) EmptyString = s) \/
              exists pre, s = pre ++ "/" ++ last (split "/" s) EmptyString)).
  { intro s. destruct (last_slash s) as [Hl | [pre [name [-> Hl]]]].
    - rewrite (split_lacks _ _ Hl). simpl. split; [exact Hl | left; split; [exact Hl |]].
      reflexivity.
    - rewrite (last_split _ _ Hl). split; [exact Hl |]. right. exists pre. reflexivity. }
  destruct (Hgen href) as [H1 H2]. split; [exact H1 | split; [exact H2 |]].
  intros base name Hl ->.
  assert (Hh : href = base ++ "/" ++ name).
  { subst href. unfold PackageCard.repositoryHref.
    rewrite (removeGitPlus_spec ("git+" ++ base ++ "/" ++ name ++ ".git")
               (base ++ "/" ++ name ++ ".git")) by (left; reflexivity).
    apply removeDotGit_spec. left.
    rewrite !append_assoc. reflexivity. }
  split; [exact Hh |]. rewrite Hh. exact (last_split base name Hl).
Qed.

Lemma repository_label_witness :
  PackageCard.repositoryLabel "git+https://github.com/acme/widget.git" = "widget".
Proof.
  refine (proj2 (proj2 (proj2 (repository_label_is_last_segment
                                 "git+https://github.com/acme/widget.git"))
                   "https://github.com/acme" "widget" _ eq_refl)).
  simpl. repeat split; discriminate.
Defined.

(* ================================================================== *)
(** ** The dependency graph *)
(* ================================================================== *)

Lemma get_None (nodes : list DependencyGraph.VisNode) (i : string) :
  DependencyGraph.get nodes i = None <-> ~ In i (map DependencyGraph.id nodes).
Proof.
  unfold DependencyGraph.get. induction nodes as [| n nodes IH]; simpl.
  - split; [intros _ [] | reflexivity].
  - destruct (DependencyGraph.id n =? i) eqn:E.
    + apply String.eqb_eq in E. split; [discriminate | intro H; exfalso; apply H; left; exact E].
    + apply String.eqb_neq in E. rewrite IH. split.
      * intros H [H' | H']; [exact (E H') | exact (H H')].
      * intros H H'. apply H. right. exact H'.
Qed.

Lemma addDependency_spec (name type : string) (g : DependencyGraph.Graph)
  (entry : string * string) :
  exists N,
    DependencyGraph.addDependency name type g entry
    = Some {| DependencyGraph.nodes := (DependencyGraph.nodes g ++ N)%list;
              DependencyGraph.edges :=
                (DependencyGraph.edges g ++ [DependencyGraph.edgeOf name type entry])%list |} /\
    In (fst entry) (map DependencyGraph.id (DependencyGraph.nodes g ++ N)) /\
    (N = [] \/
     exists n, N = [n] /\ DependencyGraph.id n = fst entry /\
               DependencyGraph.group n = type /\
               ~ In (fst entry) (map DependencyGraph.id (DependencyGraph.nodes g))).
Proof.
  unfold DependencyGraph.addDependency, DependencyGraph.add. cbn [DependencyGraph.id].
  destruct (DependencyGraph.get (DependencyGraph.nodes g) (fst entry)) as [n |] eqn:E.
  - exists []. rewrite app_nil_r. split; [reflexivity | split; [| left; reflexivity]].
    destruct (in_dec string_dec (fst entry)
                (map DependencyGraph.id (DependencyGraph.nodes g))) as [H | H];
      [exact H |].
    apply get_None in H. congruence.
  - eexists [_]. split; [reflexivity | split].
    + rewrite map_app. apply in_or_app. right. left. reflexivity.
    + right. eexists. split; [reflexivity |]. cbn.
      split; [reflexivity | split; [reflexivity |]]. apply get_None, E.
Qed.

Lemma addDependencies_spec (name type : string) (d : Dict string) :
  forall g : DependencyGraph.Graph,
  exists N,
    DependencyGraph.addDependencies name (Some d) type g
    = Some {| DependencyGraph.nodes := (DependencyGraph.nodes g ++ N)%list;
              DependencyGraph.edges :=
                (DependencyGraph.edges g ++ map (DependencyGraph.edgeOf name type) d)%list |} /\
    (forall n, In n N ->
               In (DependencyGraph.id n) (keys d) /\ DependencyGraph.group n = type /\
               ~ In (DependencyGraph.id n) (map DependencyGraph.id (DependencyGraph.nodes g))) /\
    NoDup (map DependencyGraph.id N) /\
    (forall k, In k (keys d) ->
               In k (map DependencyGraph.id (DependencyGraph.nodes g ++ N))).
Proof.
  unfold DependencyGraph.addDependencies.
  induction d as [| entry d IH]; intro g.
  - exists []. simpl. rewrite !app_nil_r. destruct g. simpl.
    split; [reflexivity | split; [intros n [] | split; [constructor | intros k []]]].
  - destruct (addDependency_spec name type g entry) as [N0 [Hstep [Hcov HN0]]].
    cbn [fold_left]. rewrite Hstep.
    destruct (IH {| DependencyGraph.nodes := (DependencyGraph.nodes g ++ N0)%list;
                    DependencyGraph.edges :=
                      (DependencyGraph.edges g
                         ++ [DependencyGraph.edgeOf name type entry])%list |})
      as [N1 [Hfold [HN1 [Hnd Hcov1]]]].
    cbn [DependencyGraph.nodes DependencyGraph.edges] in Hfold, HN1, Hcov1.
    exists (N0 ++ N1)%list. rewrite Hfold.
    split; [| split; [| split]].
    + rewrite <- !app_assoc. reflexivity.
    + intros n Hn. apply in_app_or in Hn. destruct Hn as [Hn | Hn].
      * destruct HN0 as [-> | [n0 [-> [Hid [Hgr Hfresh]]]]]; [destruct Hn |].
        destruct Hn as [<- | []]. rewrite Hid.
        split; [left; reflexivity | split; [exact Hgr | exact Hfresh]].
      * destruct (HN1 n Hn) as [Hk [Hgr Hfresh]].
        split; [right; exact Hk | split; [exact Hgr |]].
        intro H. apply Hfresh. rewrite map_app. apply in_or_app. left. exact H.
    + rewrite map_app. apply NoDup_app; [| exact Hnd |].
      * destruct HN0 as [-> | [n0 [-> _]]]; [constructor |].
        constructor; [intros [] | constructor].
      * intros i Hi0 Hi1. apply in_map_iff in Hi1. destruct Hi1 as [n [<- Hn]].
        destruct (HN1 n Hn) as [_ [_ Hfresh]]. apply Hfresh.
        rewrite map_app. apply in_or_app. right. exact Hi0.
    + intros k [<- | Hk].
      * rewrite app_assoc, map_app. apply in_or_app. left. exact Hcov.
      * rewrite app_assoc. apply Hcov1, Hk.
Qed.

Lemma addDependencies_entries (name : string) (deps : option (Dict string))
  (type : string) (g : DependencyGraph.Graph) :
  DependencyGraph.addDependencies name deps type g
  = DependencyGraph.addDependencies name (Some (DependencyGraph.entries deps)) type g.
Proof. destruct deps; reflexivity. Qed.

Lemma graphOf_spec (name : string) (version : option string)
  (dependencies devDependencies : option (Dict string)) :
  exists N1 N2,
    DependencyGraph.graphOf name version dependencies devDependencies
    = Some {| DependencyGraph.nodes := mainNode name version :: N1 ++ N2;
              DependencyGraph.edges :=
                map (DependencyGraph.edgeOf name "dep")
                    (DependencyGraph.entries dependencies)
                ++ map (DependencyGraph.edgeOf name "devDep")
                       (DependencyGraph.entries devDependencies) |}%list /\
    (forall n, In n N1 ->
               In (DependencyGraph.id n) (keys (DependencyGraph.entries dependencies)) /\
               DependencyGraph.group n = "dep" /\ DependencyGraph.id n <> name) /\
    (forall n, In n N2 ->
               In (DependencyGraph.id n) (keys (DependencyGraph.entries devDependencies)) /\
               DependencyGraph.group n = "devDep" /\ DependencyGraph.id n <> name /\
               ~ In (DependencyGraph.id n) (keys (DependencyGraph.entries dependencies))) /\
    NoDup (map DependencyGraph.id (mainNode name version :: N1 ++ N2)) /\
    (forall k, In k (keys (DependencyGraph.entries dependencies)) ->
               In k (map DependencyGraph.id (mainNode name version :: N1))) /\
    (forall k, In k (keys (DependencyGraph.entries devDependencies)) ->
               In k (map DependencyGraph.id (mainNode name version :: N1 ++ N2))).
Proof.
  unfold DependencyGraph.graphOf. fold (mainNode name version).
  change (DependencyGraph.add [] (mainNode name version))
    with (Some [mainNode name version]).
  cbv beta iota.
  rewrite (addDependencies_entries name dependencies).
  destruct (addDependencies_spec name "dep" (DependencyGraph.entries dependencies)
              {| DependencyGraph.nodes := [mainNode name version];
                 DependencyGraph.edges := [] |})
    as [N1 [H1 [HN1 [Hnd1 Hcov1]]]].
  rewrite H1. cbn [DependencyGraph.nodes DependencyGraph.edges app] in *.
  rewrite (addDependencies_entries name devDependencies).
  destruct (addDependencies_spec name "devDep" (DependencyGraph.entries devDependencies)
              {| DependencyGraph.nodes := mainNode name version :: N1;
                 DependencyGraph.edges :=
                   map (DependencyGraph.edgeOf name "dep")
                       (DependencyGraph.entries dependencies) |})
    as [N2 [H2 [HN2 [Hnd2 Hcov2]]]].
  rewrite H2. cbn [DependencyGraph.nodes DependencyGraph.edges app] in *.
  exists N1, N2. split; [reflexivity |].
  assert (HN1' : forall n, In n N1 ->
             In (DependencyGraph.id n) (keys (DependencyGraph.entries dependencies)) /\
             DependencyGraph.group n = "dep" /\ DependencyGraph.id n <> name).
  { intros n Hn. destruct (HN1 n Hn) as [Hk [Hg Hf]].
    split; [exact Hk | split; [exact Hg |]].
    intro E. apply Hf. left. symmetry. exact E. }
  assert (HN2' : forall n, In n N2 ->
             In (DependencyGraph.id n) (keys (DependencyGraph.entries devDependencies)) /\
             DependencyGraph.group n = "devDep" /\ DependencyGraph.id n <> name /\
             ~ In (DependencyGraph.id n) (keys (DependencyGraph.entries dependencies))).
  { intros n Hn. destruct (HN2 n Hn) as [Hk [Hg Hf]].
    split; [exact Hk | split; [exact Hg | split]].
    - intro E. apply Hf. left. symmetry. exact E.
    - intro Hd. apply Hf. apply Hcov1, Hd. }
  split; [exact HN1' | split; [exact HN2' | split; [| split; [exact Hcov1 | exact Hcov2]]]].
  change (mainNode name version :: N1 ++ N2)%list
    with (([mainNode name version] ++ N1) ++ N2)%list.
  rewrite map_app. apply NoDup_app; [| exact Hnd2 |].
  - rewrite map_app. apply NoDup_app; [| exact Hnd1 |].
    + constructor; [intros [] | constructor].
    + intros i Hi0 Hi1. apply in_map_iff in Hi1. destruct Hi1 as [n [<- Hn]].
      destruct (HN1 n Hn) as [_ [_ Hf]]. exact (Hf Hi0).
  - intros i Hi0 Hi1. apply in_map_iff in Hi1. destruct Hi1 as [n [<- Hn]].
    destruct (HN2 n Hn) as [_ [_ Hf]]. exact (Hf Hi0).
Qed.

(** X26: the graph of a package is always built: no [add] is refused,
    whatever the two dependency lists hold.  Its nodes have distinct
    ids, which are the name of the package and the names of its
    dependencies; it has one edge for each entry of the two lists, in
    order, from the package to the dependency, dashed exactly for the
    development dependencies; and every edge ends at a node. *)
Theorem graph_always_built :
  forall name version dependencies devDependencies,
  exists g,
    DependencyGraph.graphOf name version dependencies devDependencies = Some g /\
    NoDup (map DependencyGraph.id (DependencyGraph.nodes g)) /\
    (forall i, In i (map DependencyGraph.id (DependencyGraph.nodes g)) <->
               i = name \/
               In i (keys (DependencyGraph.entries dependencies)) \/
               In i (keys (DependencyGraph.entries devDependencies))) /\
    DependencyGraph.edges g
    = (map (fun entry => {| DependencyGraph.from := name;
                            DependencyGraph.to := fst entry;
                            DependencyGraph.arrows := "to";
                            DependencyGraph.dashes := false |})
           (DependencyGraph.entries dependencies)
       ++ map (fun entry => {| DependencyGraph.from := name;
                               DependencyGraph.to := fst entry;
                               DependencyGraph.arrows := "to";
                               DependencyGraph.dashes := true |})
              (DependencyGraph.entries devDependencies))%list /\
    (forall e, In e (DependencyGraph.edges g) ->
               In (DependencyGraph.to e) (map DependencyGraph.id (DependencyGraph.nodes g))).
Proof.
  intros name version deps devDeps.
  destruct (graphOf_spec name version deps devDeps)
    as [N1 [N2 [Hg [HN1 [HN2 [Hnd [Hc1 Hc2]]]]]]].
  eexists. split; [exact Hg |]. cbn [DependencyGraph.nodes DependencyGraph.edges].
  assert (Hids : forall i,
             In i (map DependencyGraph.id (mainNode name version :: N1 ++ N2)) <->
             i = name \/ In i (keys (DependencyGraph.entries deps)) \/
             In i (keys (DependencyGraph.entries devDeps))).
  { intro i. split.
    - intros [H | H]; [left; symmetry; exact H |].
      apply in_map_iff in H. destruct H as [n [<- Hn]].
      apply in_app_or in Hn. destruct Hn as [Hn | Hn].
      + right. left. apply (HN1 n Hn).
      + right. right. apply (HN2 n Hn).
    - intros [-> | [H | H]].
      + left. reflexivity.
      + destruct (Hc1 i H) as [H' | H']; [left; exact H' |].
        right. rewrite map_app. apply in_or_app. left. exact H'.
      + apply Hc2, H. }
  split; [exact Hnd | split; [exact Hids | split; [reflexivity |]]].
  intros e He. apply Hids. apply in_app_or in He.
  destruct He as [He | He]; apply in_map_iff in He; destruct He as [entry [<- Hin]];
    cbn [DependencyGraph.edgeOf DependencyGraph.to].
  - right. left. apply in_map, Hin.
  - right. right. apply in_map, Hin.
Qed.

(** X27: the colour group of a node.  The first node is the package
    itself, in the group main; a dependency named like the package gets
    no node of its own.  Every other node is in the group dep when its
    name is a production dependency, also when it is a development
    dependency as well, and in the group devDep otherwise. *)
Theorem node_groups :
  forall name version dependencies devDependencies g,
    DependencyGraph.graphOf name version dependencies devDependencies = Some g ->
    hd_error (DependencyGraph.nodes g)
    = Some {| DependencyGraph.id := name;
              DependencyGraph.label :=
                name ++ DependencyGraph.newline ++ "v" ++ DependencyGraph.text version;
              DependencyGraph.group := "main" |} /\
    forall n,
      In n (DependencyGraph.nodes g) ->
      DependencyGraph.group n
      = if DependencyGraph.id n =? name then "main"
        else if existsb (String.eqb (DependencyGraph.id n))
                        (keys (DependencyGraph.entries dependencies))
             then "dep" else "devDep".
Proof.
  intros name version deps devDeps g Hg.
  destruct (graphOf_spec name version deps devDeps)
    as [N1 [N2 [Hg' [HN1 [HN2 _]]]]].
  rewrite Hg' in Hg. injection Hg as <-. cbn [DependencyGraph.nodes].
  split; [reflexivity |].
  intros n [<- | Hn].
  - cbn [mainNode DependencyGraph.id DependencyGraph.group].
    rewrite String.eqb_refl. reflexivity.
  - apply in_app_or in Hn. destruct Hn as [Hn | Hn].
    + destruct (HN1 n Hn) as [Hk [Hgr Hne]].
      apply String.eqb_neq in Hne. rewrite Hne, Hgr.
      assert (E : existsb (String.eqb (DependencyGraph.id n))
                          (keys (DependencyGraph.entries deps)) = true).
      { apply existsb_exists. exists (DependencyGraph.id n).
        split; [exact Hk | apply String.eqb_refl]. }
      rewrite E. reflexivity.
    + destruct (HN2 n Hn) as [Hk [Hgr [Hne Hnot]]].
      apply String.eqb_neq in Hne. rewrite Hne, Hgr.
      destruct (existsb (String.eqb (DependencyGraph.id n))
                        (keys (DependencyGraph.entries deps))) eqn:E; [| reflexivity].
      exfalso. apply existsb_exists in E. destruct E as [k [Hk' Ek]].
      apply String.eqb_eq in Ek. subst k. exact (Hnot Hk').
Qed.

Lemma node_groups_witness :
  DependencyGraph.group
    {| DependencyGraph.id := "left-pad";
       DependencyGraph.label := "left-pad" ++ DependencyGraph.newline ++ "^1.3.0";
       DependencyGraph.group := "dep" |}
  = "dep".
Proof.
  refine (proj2 (node_groups "widget" (Some "1.0.0")
                   (Some [("left-pad", "^1.3.0"); ("widget", "*")])
                   (Some [("left-pad", "^1.0.0"); ("jest", "^29.0.0")])
                   _ eq_refl)
            {| DependencyGraph.id := "left-pad";
               DependencyGraph.label := "left-pad" ++ DependencyGraph.newline ++ "^1.3.0";
               DependencyGraph.group := "dep" |} _).
  right. left. reflexivity.
Defined.

(** X28: the card and the graph agree.  The numbers shown after the
    titles of the two dependency lists add up to the number of edges of
    the graph, and the card says that no dependencies are listed exactly
    when the graph has no edge, in which case the package is its only
    node. *)
Theorem card_and_graph_agree :
  forall (packageData : NpmPackageData.t) name g,
    NpmPackageData.name packageData = Some name ->
    DependencyGraph.graphOf name (NpmPackageData.version packageData)
      (NpmPackageData.dependencies packageData)
      (NpmPackageData.devDependencies packageData) = Some g ->
    (PackageCard.listedCount (NpmPackageData.dependencies packageData)
     + PackageCard.listedCount (NpmPackageData.devDependencies packageData)
     = length (DependencyGraph.edges g))%nat /\
    (PackageCard.listsNoDependencies packageData = true <-> DependencyGraph.edges g = []) /\
    (PackageCard.listsNoDependencies packageData = true ->
     map DependencyGraph.id (DependencyGraph.nodes g) = [name]).
Proof.
  intros p name g _ Hg.
  destruct (graphOf_spec name (NpmPackageData.version p) (NpmPackageData.dependencies p)
              (NpmPackageData.devDependencies p))
    as [N1 [N2 [Hg' [HN1 [HN2 _]]]]].
  rewrite Hg' in Hg. injection Hg as <-.
  cbn [DependencyGraph.nodes DependencyGraph.edges].
  unfold PackageCard.listsNoDependencies.
  assert (Hcount : forall deps,
             PackageCard.listedCount deps = length (DependencyGraph.entries deps)).
  { intros [d |]; [| reflexivity]. unfold PackageCard.listedCount, PackageCard.isEmpty, keys.
    rewrite length_map. destruct d; reflexivity. }
  assert (Hempty : forall deps,
             PackageCard.isEmpty deps = true <-> DependencyGraph.entries deps = []).
  { intros [d |]; [| split; reflexivity]. unfold PackageCard.isEmpty, keys.
    rewrite length_map. destruct d; simpl; split; try reflexivity; discriminate. }
  split; [| split].
  - rewrite !Hcount, length_app, !length_map. reflexivity.
  - rewrite andb_true_iff, !Hempty. split.
    + intros [-> ->]. reflexivity.
    + intro H. apply app_eq_nil in H. destruct H as [H1 H2].
      apply map_eq_nil in H1, H2. split; assumption.
  - rewrite andb_true_iff, !Hempty. intros [E1 E2].
    destruct N1 as [| n N1];
      [| exfalso; destruct (HN1 n (or_introl eq_refl)) as [Hk _];
         rewrite E1 in Hk; exact Hk].
    destruct N2 as [| n N2];
      [| exfalso; destruct (HN2 n (or_introl eq_refl)) as [Hk _];
         rewrite E2 in Hk; exact Hk].
    reflexivity.
Qed.

Lemma card_and_graph_witness :
  (PackageCard.listedCount (Some [("left-pad", "^1.3.0")])
   + PackageCard.listedCount None = 1)%nat.
Proof.
  exact (proj1 (card_and_graph_agree
                  (setDownloads None
                     {| NpmPackageData.name := Some "widget";
                        NpmPackageData.version := Some "1.0.0";
                        NpmPackageData.description := None;
                        NpmPackageData.license := None;
                        NpmPackageData.author := Some "N/A";
                        NpmPackageData.dependencies := Some [("left-pad", "^1.3.0")];
                        NpmPackageData.devDependencies := None;
                        NpmPackageData.homepage := None;
                        NpmPackageData.repository := None;
                        NpmPackageData.npmUrl := "https://www.npmjs.com/package/widget";
                        NpmPackageData.publishedDate := None;
                        NpmPackageData.maintainers := None;
                        NpmPackageData.downloadsLastWeek := None |})
                  "widget" _ eq_refl eq_refl)).
Defined.
